(** * YTAudioConverterAPI: a shallow embedding of [main.py]

    The service caches short audio artifacts in the directory [audios],
    serves them with byte-range support, reclaims them after a retention
    period and produces them through a duration-gated fetch pipeline.

    Conventions of the embedding.
    - Python [int] is [Z]; a Python number that may be a [float] (a probed
      duration, a modification time, a clock reading) is the rational it
      denotes, in [Q], and the one sum the program takes of a float rounds as
      doubles do ([round64]).
    - Python [str] is [string], one character for each code point, for text
      whose code points are below 256; [bytes] is [list byte].
    - A Python exception is a value of [exn]; code that may raise returns a
      [result], and code that also performs calls on the outside world runs
      in the state-and-exception monad [M], whose state records those calls.
    - The libraries the program calls (the file system, yt-dlp, pydub, the
      search catalog) are records of functions passed to the handlers.
    - The rate limiter in front of each route is not part of the handlers:
      a handler below is what runs once the limiter has let the request in.
      Nor is the CORS extension behind them ([CORS(app)]), which adds its
      headers to every response once the handler has returned it: the
      headers of a response below are those the handler gave it. *)

From Stdlib Require Import ZArith QArith Qround Lqa Lia Ascii String.
From Stdlib Require Import DecimalString DecimalZ DecimalPos.
From Stdlib.Strings Require Import Byte.
From stdpp Require Import gmap strings list.

Set Warnings "-register-all".

Open Scope Z_scope.

Abbreviation byte := Byte.byte.

(** ** Exceptions and results *)

Inductive exc_class : Type :=
  | ValueError | IndexError | TypeError | KeyError | OSError
  | OverflowError | MemoryError
  | DownloadError | CouldntDecodeError.

Record exn : Type := Exn { exn_class : exc_class; exn_msg : string }.

Inductive result (A : Type) : Type :=
  | Ok (a : A)
  | Raise (e : exn).

Arguments Ok {A} a.
Arguments Raise {A} e.

Definition rbind {A B} (r : result A) (k : A -> result B) : result B :=
  match r with
  | Ok a => k a
  | Raise e => Raise e
  end.

Notation "x <-? c ;; k" := (rbind c (fun x => k))
  (at level 100, c at next level, right associativity).

(** ** The state-and-exception monad

    [St] is whatever the component mutates or records: a trace of calls, a
    directory together with a log. An exception leaves the state as it was
    when it was raised, as in Python. *)

Definition M (St A : Type) : Type := St -> result A * St.

Definition ret {St A} (a : A) : M St A := fun s => (Ok a, s).

Definition throw {St A} (e : exn) : M St A := fun s => (Raise e, s).

Definition bind {St A B} (c : M St A) (k : A -> M St B) : M St B :=
  fun s => match c s with
           | (Ok a, s') => k a s'
           | (Raise e, s') => (Raise e, s')
           end.

(** [try: c except Exception as e: h e] *)
Definition try_except {St A} (c : M St A) (h : exn -> M St A) : M St A :=
  fun s => match c s with
           | (Ok a, s') => (Ok a, s')
           | (Raise e, s') => h e s'
           end.

Definition lift {St A} (r : result A) : M St A := fun s => (r, s).

Definition modify {St} (f : St -> St) : M St unit := fun s => (Ok tt, f s).

Definition gets {St A} (f : St -> A) : M St A := fun s => (Ok (f s), s).

Notation "x <- c ;; k" := (bind c (fun x => k))
  (at level 100, c at next level, right associativity).
Notation "c ;;; k" := (bind c (fun _ => k))
  (at level 100, right associativity).

(** ** Strings and integers of Python *)

Definition is_digit (c : ascii) : bool :=
  match c with
  | "0" | "1" | "2" | "3" | "4" | "5" | "6" | "7" | "8" | "9" => true
  | _ => false
  end%char.

(** The white space [int] skips at both ends of a [str]: tab, line feed,
    vertical tab, form feed, carriage return and the space, and, of the
    code points above 127, the next-line control and the no-break space.
    The separators 28..31, which [str.strip] drops, are not among them. *)
Definition is_space (c : ascii) : bool :=
  let n := nat_of_ascii c in
  ((9 <=? n) && (n <=? 13) || (n =? 32) || (n =? 133) || (n =? 160))%nat.

Fixpoint lstrip (s : string) : string :=
  match s with
  | String c r => if is_space c then lstrip r else s
  | EmptyString => EmptyString
  end.

Fixpoint rstrip (s : string) : string :=
  match s with
  | String c r =>
      match rstrip r with
      | EmptyString => if is_space c then EmptyString else String c EmptyString
      | r' => String c r'
      end
  | EmptyString => EmptyString
  end.

Definition strip (s : string) : string := rstrip (lstrip s).

(** [str(n)] for an [int]. *)
Definition py_str (n : Z) : string := NilZero.string_of_int (Z.to_int n).

(** [repr(s)] for a [str]: single quotes, unless the text holds one and no
    double quote; the quote in use and the backslash are escaped with a
    backslash, tab, line feed and carriage return are written as a
    backslash and [t], [n] or [r], and the other code points that do not
    print (below 32, 127 to 160, 173) as a backslash, [x] and two
    hexadecimal digits. *)
Definition hex_digit (n : nat) : ascii :=
  ascii_of_nat (if (n <? 10)%nat then 48 + n else 87 + n).

Definition dquote : ascii := ascii_of_nat 34.

Definition backslash : ascii := ascii_of_nat 92.

Fixpoint has_char (c : ascii) (s : string) : bool :=
  match s with
  | String a r => Ascii.eqb a c || has_char c r
  | EmptyString => false
  end.

Definition repr_char (quote c : ascii) : string :=
  let n := nat_of_ascii c in
  if Ascii.eqb c quote || Ascii.eqb c backslash then
    String backslash (String c EmptyString)
  else if (n =? 9)%nat then String backslash "t"
  else if (n =? 10)%nat then String backslash "n"
  else if (n =? 13)%nat then String backslash "r"
  else if ((n <? 32) || (127 <=? n) && (n <=? 160) || (n =? 173))%nat then
    String backslash
      (String "x" (String (hex_digit (n / 16))
         (String (hex_digit (n mod 16)) EmptyString)))
  else String c EmptyString.

Fixpoint repr_body (quote : ascii) (s : string) : string :=
  match s with
  | String c r => repr_char quote c +:+ repr_body quote r
  | EmptyString => EmptyString
  end.

Definition py_repr (s : string) : string :=
  let quote :=
    if has_char "'" s && negb (has_char dquote s) then dquote else "'"%char in
  String quote (repr_body quote s +:+ String quote EmptyString).

(** The run of digits and underscores an integer literal begins with: its
    digits, and what follows the run. An underscore stands between two
    digits: the scan answers [None] when one follows another or ends the
    run. [after_us] tells that the previous character was an underscore. *)
Fixpoint scan_digits (after_us : bool) (s : string) : option (string * string) :=
  match s with
  | String c r =>
      if is_digit c then
        match scan_digits false r with
        | Some (ds, rest) => Some (String c ds, rest)
        | None => None
        end
      else if Ascii.eqb c "_" then
        if after_us then None else scan_digits true r
      else if after_us then None else Some (EmptyString, s)
  | EmptyString => if after_us then None else Some (EmptyString, EmptyString)
  end.

(** The default of [sys.get_int_max_str_digits()]. *)
Definition int_max_str_digits : nat := 4300.

Definition value_err (s : string) : exn :=
  Exn ValueError ("invalid literal for int() with base 10: " +:+ py_repr s).

Definition digits_err (digits : nat) : exn :=
  Exn ValueError
    ("Exceeds the limit (4300 digits) for integer string conversion: value has "
       +:+ py_str (Z.of_nat digits)
       +:+ " digits; use sys.set_int_max_str_digits() to increase the limit").

(** [int(s)] for a [str]: white space is skipped at both ends, a sign is
    accepted, then come the digits, read in base ten. A literal of more
    than [int_max_str_digits] digits is refused, before what follows the
    digits is looked at; so is one without digits, one that begins with an
    underscore, and one in which anything follows the digits. *)
Definition py_int (s : string) : result Z :=
  let t := strip s in
  let '(neg, body) :=
    match t with
    | String "-" r => (true, r)
    | String "+" r => (false, r)
    | _ => (false, t)
    end in
  match body with
  | String "_" _ => Raise (value_err s)
  | _ =>
      match scan_digits false body with
      | Some (ds, rest) =>
          if (int_max_str_digits <? String.length ds)%nat then
            Raise (digits_err (String.length ds))
          else
            match ds, rest, NilEmpty.uint_of_string ds with
            | String _ _, EmptyString, Some u =>
                Ok (if neg then - Z.of_uint u else Z.of_uint u)
            | _, _, _ => Raise (value_err s)
            end
      | None => Raise (value_err s)
      end
  end.

(** [s.startswith(p)] *)
Definition startswith (s p : string) : bool := String.prefix p s.

(** [needle in hay] *)
Fixpoint str_in (needle hay : string) : bool :=
  String.prefix needle hay ||
  match hay with
  | String _ r => str_in needle r
  | EmptyString => false
  end.

(** ** The regular expression of the range resolver

    The pattern is: one or more digits (group 1), a dash, zero or more
    digits (group 2).

    [re.search] tries every start position from the left; at one position
    the engine takes digits greedily and gives them back one at a time
    until a dash follows. *)

(** Zero or more digits, greedy: the digits taken and what is left. *)
Fixpoint span_digits (s : string) : string * string :=
  match s with
  | String c r =>
      if is_digit c then
        let '(ds, rest) := span_digits r in (String c ds, rest)
      else (EmptyString, s)
  | EmptyString => (EmptyString, EmptyString)
  end.

(** Group 1 and the dash, anchored at the head of [s]: group 1 and the text after the
    dash. The recursive call is the greedy attempt to take one more digit;
    the inner match is the engine backing off to stop here. *)
Fixpoint digits_dash (s : string) : option (string * string) :=
  match s with
  | String c r =>
      if is_digit c then
        match digits_dash r with
        | Some (g1, rest) => Some (String c g1, rest)
        | None =>
            match r with
            | String "-" rest => Some (String c EmptyString, rest)
            | _ => None
            end
        end
      else None
  | EmptyString => None
  end.

(** The whole pattern anchored at the head of [s]: groups 1 and 2. *)
Definition re_match (s : string) : option (string * string) :=
  match digits_dash s with
  | Some (g1, rest) => Some (g1, fst (span_digits rest))
  | None => None
  end.

(** [re.search] of the pattern in [s]: the leftmost match. *)
Fixpoint re_search (s : string) : option (string * string) :=
  match re_match s with
  | Some m => Some m
  | None =>
      match s with
      | String _ r => re_search r
      | EmptyString => None
      end
  end.

(** ** Range resolver *)

(** Truth value of a [str]: non-empty. *)
Definition truthy (s : string) : bool :=
  match s with
  | EmptyString => false
  | _ => true
  end.

Definition parse_range_header (range_header : string) (file_size : Z)
  : result (Z * Z) :=
  match re_search range_header with
  | None => Ok (0, file_size - 1)
  | Some (group1, group2) =>
      start_pos <-? (if truthy group1 then py_int group1 else Ok 0) ;;
      end_pos <-? (if truthy group2 then py_int group2
                   else Ok (file_size - 1)) ;;
      let start_pos := Z.max 0 (Z.min start_pos (file_size - 1)) in
      let end_pos := Z.max start_pos (Z.min end_pos (file_size - 1)) in
      Ok (start_pos, end_pos)
  end.

(** ** Calls on the outside world and the log *)

Inductive level : Type := INFO | ERROR.

Inductive event : Type :=
  | EGetcwd
  | EIsfile (path : string)
  | EGetsize (path : string)
  | EOpen (path : string)
  | EExists (path : string)
  | EListdir (path : string)
  | EGetmtime (path : string)
  | ERemove (path : string)
  | EExtractInfo (url : string) (download : bool)
  | EPrepareFilename
  | EFromFile (path : string)
  | EExport (path : string)
  | ESearch (q : string)
  | ELog (lv : level) (msg : string).

Abbreviation trace := (list event).

(** Record one call and return its outcome. *)
Definition call {A} (e : event) (r : result A) : M trace A :=
  fun t => (r, t ++ [e]).

Definition logger (lv : level) (msg : string) : M trace unit :=
  fun t => (Ok tt, t ++ [ELog lv msg]).

Definition touches_path (e : event) : bool :=
  match e with
  | EIsfile _ | EGetsize _ | EOpen _ | EExists _ | EListdir _
  | EGetmtime _ | ERemove _ | EFromFile _ | EExport _ => true
  | _ => false
  end.

(** ** Responses *)

Inductive json : Type :=
  | JNull
  | JStr (s : string)
  | JInt (n : Z)
  | JArr (items : list json)
  | JObj (fields : list (string * json)).

(** A response body: raw bytes, one JSON document ([jsonify]), or a stream
    whose chunks are JSON documents ([json.dumps] of each, encoded). The
    embedding keeps the documents, not their serialisation. *)
Inductive payload : Type :=
  | Raw (data : list byte)
  | JsonDoc (doc : json)
  | Chunks (docs : list json).

Record response : Type := Response {
  status_code : Z;
  headers : list (string * string);
  body : payload
}.

(** [headers.get(k)]: the first value under [k]. *)
Fixpoint hget (k : string) (h : list (string * string)) : option string :=
  match h with
  | (k', v) :: r => if String.eqb k k' then Some v else hget k r
  | [] => None
  end.

Definition hremove (k : string) (h : list (string * string)) :=
  filter (fun kv => negb (String.eqb k kv.1)) h.

(** [headers.set(k, v)]: the first entry under [k] is replaced where it
    stands and the others are dropped; a new key goes to the end. *)
Fixpoint hset (k v : string) (h : list (string * string))
  : list (string * string) :=
  match h with
  | (k', v') :: r =>
      if String.eqb k k' then (k, v) :: hremove k r else (k', v') :: hset k v r
  | [] => [(k, v)]
  end.

(** [headers.add(k, v)] *)
Definition hadd (k v : string) (h : list (string * string)) := h ++ [(k, v)].

Definition set_header (k v : string) (r : response) : response :=
  Response (status_code r) (hset k v (headers r)) (body r).

Definition add_header (k v : string) (r : response) : response :=
  Response (status_code r) (hadd k v (headers r)) (body r).

Definition set_status (c : Z) (r : response) : response :=
  Response c (headers r) (body r).

Definition len (data : list byte) : Z := Z.of_nat (length data).

(** [make_response(content)] and [make_response(content, status)] for a
    [bytes] body. *)
Definition make_response_bytes (content : list byte) (status : Z) : response :=
  Response status
    [("Content-Type", "text/html; charset=utf-8");
     ("Content-Length", py_str (len content))]
    (Raw content).

(** The same for a [str] body, which Flask encodes. *)
Definition make_response_text (content : string) (status : Z) : response :=
  make_response_bytes (list_byte_of_string content) status.

(** [jsonify(doc)]: status 200 and the JSON content type. The document is
    kept as it is, not serialised, and the headers Flask derives from the
    serialised text (its length) are left out with it. *)
Definition jsonify (doc : json) : response :=
  Response 200 [("Content-Type", "application/json")] (JsonDoc doc).

(** ** The file system as Content Delivery sees it

    Each function answers one call of the [os] module; they are separate
    so that a file may pass [isfile] and still fail to open. Opening gives
    the content of the file, which is what [read()] returns. [os_max_seek]
    is the largest offset the file system lets [seek] go to, [os_max_read]
    the largest count for which [read] obtains its buffer; a file that
    opens is one the system holds and the process can read, so its length
    is within both ([os_fits]). *)

(** The largest value of a signed machine word, which bounds offsets and
    buffer sizes in the interpreter. *)
Definition ssize_max : Z := 2 ^ 63 - 1.

(** Offsets and counts up to [n] are within the limits of the system and
    of the interpreter, which keeps 33 bytes of a machine word for the
    header of a [bytes] object. *)
Definition within_limits (max_seek max_read n : Z) : Prop :=
  n <= max_seek /\ n <= max_read /\ n <= ssize_max - 33.

Record os_world : Type := OsWorld {
  os_getcwd : string;
  os_isfile : string -> bool;
  os_getsize : string -> result Z;
  os_open_rb : string -> result (list byte);
  os_max_seek : Z;
  os_max_read : Z;
  os_fits : forall path data,
    os_open_rb path = Ok data -> within_limits os_max_seek os_max_read (len data)
}.

Definition endswith_sep (s : string) : bool :=
  match String.length s with
  | O => false
  | S n => match String.get n s with
           | Some c => Ascii.eqb c "/"
           | None => false
           end
  end.

(** [posixpath.join] of two components, and of a list of them. *)
Definition path_join2 (a b : string) : string :=
  if startswith b "/" then b
  else if negb (truthy a) || endswith_sep a then a +:+ b
  else a +:+ "/" +:+ b.

Definition os_path_join (a : string) (p : list string) : string :=
  fold_left path_join2 p a.

(** [file.seek(pos)] on an open binary file holding [data]: what is left
    to read. An offset that does not fit a machine word is refused by the
    interpreter, a negative one or one beyond [os_max_seek] by the system. *)
Definition file_seek (w : os_world) (data : list byte) (pos : Z)
  : result (list byte) :=
  if (pos <? - ssize_max - 1) || (ssize_max <? pos) then
    Raise (Exn ValueError "cannot fit 'int' into an offset-sized integer")
  else if (pos <? 0) || (os_max_seek w <? pos) then
    Raise (Exn OSError "[Errno 22] Invalid argument")
  else Ok (drop (Z.to_nat pos) data).

(** [file.read(n)] with [rest] left to read. The count [-1] reads to the
    end of the file; any other negative count is refused. For a count of
    zero or more the buffer is obtained first, whatever the file holds: a
    count that leaves no room for the header of a [bytes] object in a
    machine word, or one beyond [os_max_read], raises. *)
Definition file_read (w : os_world) (rest : list byte) (n : Z)
  : result (list byte) :=
  if (n <? - ssize_max - 1) || (ssize_max <? n) then
    Raise (Exn OverflowError "cannot fit 'int' into an index-sized integer")
  else if n <? -1 then
    Raise (Exn ValueError "read length must be non-negative or -1")
  else if n =? -1 then Ok rest
  else if ssize_max - 33 <? n then
    Raise (Exn OverflowError "byte string is too large")
  else if os_max_read w <? n then Raise (Exn MemoryError EmptyString)
  else Ok (take (Z.to_nat n) rest).

(** ** Content Delivery *)

Definition make_partial_response (w : os_world)
    (file_path : string) (start_pos end_pos file_size : Z) : M trace response :=
  try_except
    (file <- call (EOpen file_path) (os_open_rb w file_path) ;;
     rest <- lift (file_seek w file start_pos) ;;
     let content_length := end_pos - start_pos + 1 in
     content <- lift (file_read w rest content_length) ;;
     let response := make_response_bytes content 200 in
     let response :=
       set_header "Content-Range"
         ("bytes " +:+ py_str start_pos +:+ "-" +:+ py_str end_pos
            +:+ "/" +:+ py_str file_size) response in
     let response := set_header "Content-Length" (py_str content_length) response in
     let response := set_status 206 response in
     ret response)
    (fun e =>
       logger ERROR ("Error creating partial response: " +:+ exn_msg e) ;;;
       ret (make_response_text "Error reading file" 500)).

Definition make_entire_response (w : os_world)
    (file_path : string) (file_size : Z) : M trace response :=
  try_except
    (file <- call (EOpen file_path) (os_open_rb w file_path) ;;
     content <- lift (file_read w file (-1)) ;;
     let response := make_response_bytes content 200 in
     let response := set_header "Content-Length" (py_str file_size) response in
     ret response)
    (fun e =>
       logger ERROR ("Error creating full response: " +:+ exn_msg e) ;;;
       ret (make_response_text "Error reading file" 500)).

(** The handler of [/audios/<path:filename>]; [range_header] is
    [request.headers.get('Range')]. An exception that leaves the handler is
    Flask's to answer. *)
Definition serve_audio (w : os_world) (range_header : option string)
    (filename : string) : M trace response :=
  root_dir <- call EGetcwd (Ok (os_getcwd w)) ;;
  let file_path := os_path_join root_dir ["audios"; filename] in
  if str_in ".." filename || startswith filename "/" then
    ret (make_response_text "Invalid filename" 400)
  else
    isfile <- call (EIsfile file_path) (Ok (os_isfile w file_path)) ;;
    if negb isfile then
      ret (make_response_text "Audio file not found" 404)
    else
      file_size <- call (EGetsize file_path) (os_getsize w file_path) ;;
      response <-
        match range_header with
        | Some h =>
            if truthy h then
              range <- lift (parse_range_header h file_size) ;;
              let '(start_pos, end_pos) := range in
              make_partial_response w file_path start_pos end_pos file_size
            else make_entire_response w file_path file_size
        | None => make_entire_response w file_path file_size
        end ;;
      let response := set_header "Access-Control-Allow-Origin" "*" response in
      let response := set_header "Access-Control-Allow-Methods" "GET" response in
      let response := set_header "Content-Type" "audio/mpeg" response in
      ret response.

(** ** Numbers that may be floats *)

(** [a < b] on rationals, as a boolean. *)
Definition Qltb (a b : Q) : bool := negb (Qle_bool b a).

(** [int(x)] for a float: truncation toward zero. *)
Definition int_of_float (x : Q) : Z :=
  if Qle_bool 0 x then Qfloor x else Qceiling x.

(** The integer nearest to [y]; the even one of the two when [y] lies half
    way between them. *)
Definition round_half_even (y : Q) : Z :=
  let f := Qfloor y in
  match (2 * (y - inject_Z f) ?= 1)%Q with
  | Lt => f
  | Gt => f + 1
  | Eq => if Z.even f then f else f + 1
  end.

(** The exponent of the leading bit of [x], for [x] other than zero: the
    [e] with [2 ^ e <= |x| < 2 ^ (e + 1)]. *)
Definition Qlog2 (x : Q) : Z :=
  let n := Z.abs (Qnum x) in
  let d := Zpos (Qden x) in
  let e := Z.log2 n - Z.log2 d in
  if (if 0 <=? e then d * 2 ^ e <=? n else d <=? n * 2 ^ (- e)) then e
  else e - 1.

(** The exponent of the gap between the doubles around [x]: 52 bits under
    the leading bit, and never under the gap of the subnormal numbers. *)
Definition ulp_exponent (x : Q) : Z := Z.max (Qlog2 x) (-1022) - 52.

(** The double a floating-point operation returns for the exact result
    [x]: the nearest one, the one with an even last bit when two are as
    near. Below [2 ^ 53] in magnitude the doubles are the multiples of
    [2 ^ ulp_exponent x] and the result is rounded to one of them. From
    [2 ^ 53] on, some 285 million years counted in seconds, where every
    double is a whole number, [x] is returned as it is. *)
Definition round64 (x : Q) : Q :=
  if Qeq_bool x 0 then 0
  else
    let e := ulp_exponent x in
    if 0 <? e then x
    else
      let scale := inject_Z (2 ^ (- e)) in
      inject_Z (round_half_even (x * scale)) / scale.

(** [x + n] for a float [x] and an [int] [n] that is itself a double. *)
Definition float_add_int (x : Q) (n : Z) : Q := round64 (x + inject_Z n).

(** The retention period in seconds (2 hours). *)
Definition RETENTION_PERIOD : Z := 2 * 60 * 60.

(** ** The cache directory as the Retention Sweeper sees it

    One pass of the sweeper runs against a directory that nothing else
    changes meanwhile. An entry is a regular file or something else (a
    sub-directory, a dangling link); [entry_mtime] is the float
    [os.path.getmtime] returns for it; [entry_locked] tells that
    [os.remove] is refused on it. *)

Inductive kind : Type := RegularFile | OtherEntry.

Record entry : Type := Entry {
  entry_kind : kind;
  entry_mtime : Q;
  entry_locked : bool
}.

Inductive cache_dir : Type :=
  | Missing
  | Unlistable (e : exn)
  | Listing (files : gmap string entry).

Record sweep_state : Type := SweepState {
  audios : cache_dir;
  sweep_trace : trace
}.

Definition record (e : event) (s : sweep_state) : sweep_state :=
  SweepState (audios s) (sweep_trace s ++ [e]).

Fixpoint strip_prefix (p s : string) : option string :=
  match p, s with
  | EmptyString, _ => Some s
  | String a p', String b s' => if Ascii.eqb a b then strip_prefix p' s' else None
  | String _ _, EmptyString => None
  end.

(** The entry a path of the form [audios/<name>] denotes. *)
Definition entry_at (d : cache_dir) (path : string) : option entry :=
  match d with
  | Listing files =>
      match strip_prefix "audios/" path with
      | Some name => files !! name
      | None => None
      end
  | _ => None
  end.

Definition os_path_exists (path : string) : M sweep_state bool :=
  fun s =>
    let s := record (EExists path) s in
    (Ok (if String.eqb path "audios"
         then match audios s with Missing => false | _ => true end
         else bool_decide (is_Some (entry_at (audios s) path))), s).

(** What the [os] module raises for the system error [errno] on [path]:
    the message quotes the path. *)
Definition os_error (errno : string) (path : string) : exn :=
  Exn OSError (errno +:+ ": " +:+ py_repr path).

Definition os_listdir (path : string) : M sweep_state (list string) :=
  fun s =>
    let s := record (EListdir path) s in
    (match audios s with
     | Listing files =>
         if String.eqb path "audios" then Ok (map_to_list files).*1
         else Raise (os_error "[Errno 20] Not a directory" path)
     | Unlistable e => Raise e
     | Missing => Raise (os_error "[Errno 2] No such file or directory" path)
     end, s).

Definition os_path_isfile (path : string) : M sweep_state bool :=
  fun s =>
    let s := record (EIsfile path) s in
    (Ok (match entry_at (audios s) path with
         | Some (Entry RegularFile _ _) => true
         | _ => false
         end), s).

Definition os_path_getmtime (path : string) : M sweep_state Q :=
  fun s =>
    let s := record (EGetmtime path) s in
    (match entry_at (audios s) path with
     | Some e => Ok (entry_mtime e)
     | None => Raise (os_error "[Errno 2] No such file or directory" path)
     end, s).

(** The exception of a refused removal. The system has several reasons to
    refuse (permissions, a read-only or busy file system); the embedding
    takes the first, and what is stated of the log does not depend on
    which. *)
Definition remove_refused (path : string) : exn :=
  os_error "[Errno 13] Permission denied" path.

Definition os_remove (path : string) : M sweep_state unit :=
  fun s =>
    let s := record (ERemove path) s in
    match audios s, strip_prefix "audios/" path with
    | Listing files, Some name =>
        match files !! name with
        | Some (Entry RegularFile _ false) =>
            (Ok tt, SweepState (Listing (delete name files)) (sweep_trace s))
        | Some (Entry RegularFile _ true) => (Raise (remove_refused path), s)
        | Some (Entry OtherEntry _ _) =>
            (Raise (os_error "[Errno 21] Is a directory" path), s)
        | None => (Raise (os_error "[Errno 2] No such file or directory" path), s)
        end
    | _, _ => (Raise (os_error "[Errno 2] No such file or directory" path), s)
    end.

Definition sweep_logger (lv : level) (msg : string) : M sweep_state unit :=
  modify (record (ELog lv msg)).

(** [for x in l: body x] *)
Fixpoint for_each {St A} (l : list A) (body : A -> M St unit) : M St unit :=
  match l with
  | [] => ret tt
  | x :: r => body x ;;; for_each r body
  end.

(** ** Retention Sweeper *)

(** The body of the loop of [delete_expired_files] for one directory
    entry. *)
Definition sweep_entry (current_timestamp : Z) (file_name : string)
  : M sweep_state unit :=
  let file_path := os_path_join "audios" [file_name] in
  isfile <- os_path_isfile file_path ;;
  if isfile then
    mtime <- os_path_getmtime file_path ;;
    if Qltb (float_add_int mtime RETENTION_PERIOD) (inject_Z current_timestamp) then
      try_except
        (os_remove file_path ;;;
         sweep_logger INFO ("Deleted expired file: " +:+ file_path))
        (fun e =>
           sweep_logger ERROR
             ("Error deleting file " +:+ file_path +:+ ": " +:+ exn_msg e))
    else ret tt
  else ret tt.

(** [time_time] is the reading of [time.time()]. *)
Definition delete_expired_files (time_time : Q) : M sweep_state unit :=
  let current_timestamp := int_of_float time_time in
  try_except
    (present <- os_path_exists "audios" ;;
     if negb present then ret tt
     else
       names <- os_listdir "audios" ;;
       for_each names (sweep_entry current_timestamp))
    (fun e =>
       sweep_logger ERROR ("Error in delete_expired_files: " +:+ exn_msg e)).

(** ** Path helpers of [os.path] used by the pipeline *)

(** [s.rfind(c)]: the last index of [c], or [-1]. *)
Fixpoint rfind (c : ascii) (s : string) : Z :=
  match s with
  | String a r =>
      let i := rfind c r in
      if 0 <=? i then i + 1 else if Ascii.eqb a c then 0 else -1
  | EmptyString => -1
  end.

(** [s[i:j]] for [0 <= i]. *)
Definition slice (s : string) (i j : Z) : string :=
  String.substring (Z.to_nat i) (Z.to_nat (j - i)) s.

Definition slen (s : string) : Z := Z.of_nat (String.length s).

Fixpoint all_dots (s : string) : bool :=
  match s with
  | String c r => Ascii.eqb c "." && all_dots r
  | EmptyString => true
  end.

(** [os.path.splitext]: the extension starts at the last dot of the last
    component, unless only dots precede it there. *)
Definition os_path_splitext (p : string) : string * string :=
  let sepIndex := rfind "/" p in
  let dotIndex := rfind "." p in
  if sepIndex <? dotIndex then
    if all_dots (slice p (sepIndex + 1) dotIndex) then (p, EmptyString)
    else (slice p 0 dotIndex, slice p dotIndex (slen p))
  else (p, EmptyString).

(** [os.path.basename] *)
Definition os_path_basename (p : string) : string :=
  slice p (rfind "/" p + 1) (slen p).

(** [s.rstrip('/')] *)
Fixpoint rstrip_sep (s : string) : string :=
  match s with
  | String c r =>
      match rstrip_sep r with
      | EmptyString => if Ascii.eqb c "/" then EmptyString else String c EmptyString
      | r' => String c r'
      end
  | EmptyString => EmptyString
  end.

(** ** The extraction and transcoding libraries *)

(** What the pipeline reads of an [info_dict]. *)
Record info_dict : Type := InfoDict {
  info_duration : option Q;
  info_thumbnail : option string
}.

(** yt-dlp: [extract_info(url, download)] and [prepare_filename]. Entering
    and leaving the [YoutubeDL] context are taken not to raise. *)
Record ytdl : Type := Ytdl {
  extract_info : string -> bool -> result info_dict;
  prepare_filename : info_dict -> result string
}.

(** pydub: [AudioSegment.from_file] and [export]; the decoded audio is kept
    as bytes. *)
Record pydub : Type := Pydub {
  from_file : string -> result (list byte);
  export : list byte -> string -> result unit
}.

(** What a handler reads of the request and of the clock. *)
Record request_ctx : Type := RequestCtx {
  url_root : string;
  base_url : string;
  time_time : Q
}.

(** ** Fetch Pipeline *)

Definition compress_audio (P : pydub) (file_path : string) : M trace unit :=
  try_except
    (audio <- call (EFromFile file_path) (from_file P file_path) ;;
     call (EExport file_path) (export P audio file_path) ;;;
     logger INFO ("Compressed audio file: " +:+ file_path))
    (fun e =>
       logger ERROR
         ("Error compressing audio " +:+ file_path +:+ ": " +:+ exn_msg e) ;;;
       throw e).

(** [duration and duration <= 300]: [None] and zero are false. *)
Definition duration_passes (duration : option Q) : bool :=
  match duration with
  | Some d => negb (Qeq_bool d 0) && Qle_bool d 300
  | None => false
  end.

Definition json_of_optstr (o : option string) : json :=
  match o with
  | Some s => JStr s
  | None => JNull
  end.

Definition duration_error : json :=
  JObj [("error", JStr "Video duration must be less than or equal to 5 minutes.")].

(** The [try] block of [generate] up to its [yield]: the document it
    yields. Nothing follows the [yield] in the block but leaving the
    context managers. *)
Definition generate_try (Y : ytdl) (P : pydub) (R : request_ctx)
    (video_url : string) : M trace json :=
  info <- call (EExtractInfo video_url false) (extract_info Y video_url false) ;;
  let duration := info_duration info in
  if duration_passes duration then
    info <- call (EExtractInfo video_url true) (extract_info Y video_url true) ;;
    audio_file_path <- call EPrepareFilename (prepare_filename Y info) ;;
    let thumbnail_url := info_thumbnail info in
    let '(file_name, file_extension) := os_path_splitext audio_file_path in
    let file_name := os_path_basename file_name in
    let expiration_timestamp := int_of_float (time_time R) + RETENTION_PERIOD in
    let mp3_path := "audios/" +:+ file_name +:+ ".mp3" in
    compress_audio P mp3_path ;;;
    let base_url := rstrip_sep (url_root R) in
    ret (JObj [("img", json_of_optstr thumbnail_url);
               ("direct_link", JStr (base_url +:+ "/audios/" +:+ file_name +:+ ".mp3"));
               ("expiration_timestamp", JInt expiration_timestamp)])
  else
    ret duration_error.

(** [generate]: the documents the generator yields, in order. *)
Definition generate (Y : ytdl) (P : pydub) (R : request_ctx)
    (host_url video_url : string) : M trace (list json) :=
  try_except
    (doc <- generate_try Y P R video_url ;;
     ret [doc])
    (fun e =>
       logger ERROR
         ("Error processing video " +:+ video_url +:+ ": " +:+ exn_msg e) ;;;
       ret [JObj [("error", JStr ("Error processing video: " +:+ exn_msg e))]]).

(** The handler of [/download]; [video_url] is
    [request.args.get('video_url')]. *)
Definition download_audio (Y : ytdl) (P : pydub) (R : request_ctx)
    (video_url : option string) : M trace response :=
  match video_url with
  | Some u =>
      if truthy u then
        let host_url := base_url R +:+ "/" in
        docs <- generate Y P R host_url u ;;
        ret (Response 200 [("Content-Type", "application/json")] (Chunks docs))
      else
        ret (set_status 400
               (jsonify (JObj [("error", JStr "video_url parameter is required")])))
  | None =>
      ret (set_status 400
             (jsonify (JObj [("error", JStr "video_url parameter is required")])))
  end.

(** ** Search *)

(** One result of the catalog. [v_duration] is [None] when the key is
    missing and [Some None] when the catalog gives [None] for it. *)
Record video : Type := Video {
  v_duration : option (option string);
  v_title : string;
  v_link : string;
  v_thumbnails : list string
}.

(** [s.split(sep)] for a one-character separator. *)
Fixpoint split_on (sep : ascii) (s : string) : list string :=
  match s with
  | String c r =>
      if Ascii.eqb c sep then EmptyString :: split_on sep r
      else match split_on sep r with
           | p :: ps => String c p :: ps
           | [] => [String c EmptyString]
           end
  | EmptyString => [EmptyString]
  end.

Definition search_entry (v : video) : json :=
  JObj [("title", JStr (v_title v));
        ("url", JStr (v_link v));
        ("thumbnail", JStr (match v_thumbnails v with
                            | t :: _ => t
                            | [] => EmptyString
                            end))].

(** [video.get("duration", "")] followed by [":" in duration], which
    raises when the value is [None]. *)
Definition colon_in_duration (v : video) : result (string * bool) :=
  match v_duration v with
  | None => Ok (EmptyString, str_in ":" EmptyString)
  | Some (Some d) => Ok (d, str_in ":" d)
  | Some None =>
      Raise (Exn TypeError "argument of type 'NoneType' is not iterable")
  end.

(** The body of the loop of [search] for one video. *)
Definition search_step (search_results : list json) (v : video)
  : result (list json) :=
  dc <-? colon_in_duration v ;;
  let '(duration, has_colon) := dc in
  if has_colon then
    match split_on ":" duration with
    | [p0; p1] =>
        match (minutes <-? py_int p0 ;;
               seconds <-? py_int p1 ;;
               let total_seconds := minutes * 60 + seconds in
               Ok (if total_seconds <? 300
                   then search_results ++ [search_entry v]
                   else search_results)) with
        | Ok l => Ok l
        | Raise e =>
            match exn_class e with
            | ValueError | IndexError => Ok search_results
            | _ => Raise e
            end
        end
    | _ => Ok search_results
    end
  else Ok search_results.

Fixpoint search_loop (search_results : list json) (results : list video)
  : result (list json) :=
  match results with
  | [] => Ok search_results
  | v :: r =>
      l <-? search_step search_results v ;;
      search_loop l r
  end.

(** The handler of [/search]; [catalog q] is
    [VideosSearch(q, limit=15).result()["result"]]. *)
Definition search (catalog : string -> result (list video))
    (q : option string) : M trace response :=
  match q with
  | Some (String _ _ as q) =>
      try_except
        (results <- call (ESearch q) (catalog q) ;;
         search_results <- lift (search_loop [] results) ;;
         let response := jsonify (JObj [("search", JArr search_results)]) in
         ret (add_header "Content-Type" "application/json" response))
        (fun e =>
           logger ERROR ("Error searching videos: " +:+ exn_msg e) ;;;
           ret (set_status 500 (jsonify (JObj [("error", JStr "Search failed")]))))
  | _ => ret (jsonify (JObj [("error", JStr "Invalid search query")]))
  end.

(** ** Vocabulary of the statements *)

(** A string of decimal digits. *)
Fixpoint all_digits (s : string) : bool :=
  match s with
  | String c r => is_digit c && all_digits r
  | EmptyString => true
  end.

(** The numbers of the first pattern of the header have no more digits
    than [int] converts. *)
Definition within_digit_limit (range_header : string) : bool :=
  match re_search range_header with
  | Some (group1, group2) =>
      (String.length group1 <=? int_max_str_digits)%nat
      && (String.length group2 <=? int_max_str_digits)%nat
  | None => true
  end.

(** The same for [request.headers.get('Range')]. *)
Definition convertible (range_header : option string) : bool :=
  match range_header with
  | Some h => within_digit_limit h
  | None => true
  end.

(** The natural numbers [int] converts from what [str] writes for them
    are those of at most 4300 digits: the ones below [int_limit]. *)
Definition int_limit : Z := 10 ^ 4300.

(** A number of [n] digits, all of them [9]. *)
Definition nines (n : nat) : string :=
  string_of_list_ascii (List.repeat "9"%char n).

(** [len content = end_pos - start_pos + 1] and [content] is [data] from
    offset [start_pos] through offset [end_pos]. *)
Definition is_span (content data : list byte) (start_pos end_pos : Z) : Prop :=
  len content = end_pos - start_pos + 1 /\
  forall i : nat, Z.of_nat i < end_pos - start_pos + 1 ->
    content !! i = data !! (Z.to_nat start_pos + i)%nat.

(** The file name passes the security check of [serve_audio]. *)
Definition accepted_filename (filename : string) : Prop :=
  str_in ".." filename = false /\ startswith filename "/" = false.

(** The path [serve_audio] builds for a file name. *)
Definition audio_path (w : os_world) (filename : string) : string :=
  os_path_join (os_getcwd w) ["audios"; filename].



(** Offsets and counts up to [n] are within what [seek] and [read]
    accept. *)
Definition in_reach (w : os_world) (n : Z) : Prop :=
  within_limits (os_max_seek w) (os_max_read w) n.

(** The file exists under [audios], holds [data] and can be read. *)
Definition stored (w : os_world) (filename : string) (data : list byte) : Prop :=
  os_isfile w (audio_path w filename) = true /\
  os_getsize w (audio_path w filename) = Ok (len data) /\
  os_open_rb w (audio_path w filename) = Ok data.

(** The limits of the sample worlds: a file system whose offsets go to
    8 TiB, and room for buffers of 1 GiB. *)
Definition sample_max_seek : Z := 2 ^ 43.

Definition sample_max_read : Z := 2 ^ 30.

(** What opening gives in a sample world that holds [r] for the file: a
    content beyond the limits is one that cannot be read there. *)
Definition sample_open (r : result (list byte)) : result (list byte) :=
  match r with
  | Ok data =>
      if len data <=? sample_max_read then Ok data
      else Raise (Exn OSError "[Errno 27] File too large")
  | Raise e => Raise e
  end.

Definition sample_open_fits (r : result (list byte)) (data : list byte) :
  sample_open r = Ok data ->
  within_limits sample_max_seek sample_max_read (len data).
Proof.
  unfold sample_open. destruct r as [d|e]; [|discriminate].
  destruct (Z.leb_spec (len d) sample_max_read) as [Hle|]; [|discriminate].
  intros [= <-].
  unfold within_limits, sample_max_seek, sample_max_read, ssize_max in *. lia.
Defined.

(** A world holding one readable file [audios/<name>] under [/srv]. *)
Definition one_file_world (name : string) (data : list byte) : os_world :=
  let path := "/srv/audios/" +:+ name in
  let opened p :=
    if String.eqb p path then Ok data
    else Raise (Exn OSError "[Errno 2] No such file or directory") in
  OsWorld "/srv"
    (fun p => String.eqb p path)
    (fun p => if String.eqb p path then Ok (len data)
              else Raise (Exn OSError "[Errno 2] No such file or directory"))
    (fun p => sample_open (opened p))
    sample_max_seek sample_max_read
    (fun p => sample_open_fits (opened p)).

(** The response is a partial-content answer for the bytes [start_pos]
    through [end_pos] of a file holding [data]. *)
Definition partial_content (r : response) (data : list byte)
    (start_pos end_pos : Z) : Prop :=
  status_code r = 206 /\
  hget "Content-Range" (headers r)
    = Some ("bytes " +:+ py_str start_pos +:+ "-" +:+ py_str end_pos
              +:+ "/" +:+ py_str (len data)) /\
  hget "Content-Length" (headers r) = Some (py_str (end_pos - start_pos + 1)) /\
  exists content, body r = Raw content /\ is_span content data start_pos end_pos.

(** The response is a full-content answer for a file holding [data]. *)
Definition entire_content (r : response) (data : list byte) : Prop :=
  status_code r = 200 /\
  hget "Content-Length" (headers r) = Some (py_str (len data)) /\
  body r = Raw data.

(** [now - mtime > RETENTION_PERIOD] *)
Definition expired (now : Z) (mtime : Q) : Prop :=
  (inject_Z RETENTION_PERIOD < inject_Z now - mtime)%Q.

(** [now > mtime + RETENTION_PERIOD] as the sweeper evaluates it: the sum
    is a float. *)
Definition found_expired (now : Z) (mtime : Q) : Prop :=
  (float_add_int mtime RETENTION_PERIOD < inject_Z now)%Q.

(** The names of a directory are file names: none begins with the
    separator. *)
Definition names_ok (files : gmap string entry) : Prop :=
  forall k, is_Some (files !! k) -> startswith k "/" = false.

(** The entry is one the pass removes: a regular file, found expired,
    whose removal is not refused. *)
Definition removable (now : Z) (o : option entry) : bool :=
  match o with
  | Some (Entry RegularFile mtime false) =>
      Qltb (float_add_int mtime RETENTION_PERIOD) (inject_Z now)
  | _ => false
  end.

(** What one turn of the loop does to the directory, and the calls and log
    lines it produces. *)
Definition sweep_one (now : Z) (files : gmap string entry) (k : string)
  : gmap string entry :=
  if removable now (files !! k) then delete k files else files.


Definition sweep_one_events (now : Z) (files : gmap string entry) (k : string)
  : trace :=
  let path := "audios/" +:+ k in
  match files !! k with
  | Some (Entry RegularFile mtime locked) =>
      [EIsfile path; EGetmtime path] ++
      (if Qltb (float_add_int mtime RETENTION_PERIOD) (inject_Z now) then
         [ERemove path;
          if locked then
            ELog ERROR ("Error deleting file " +:+ path +:+ ": "
                          +:+ exn_msg (remove_refused path))
          else ELog INFO ("Deleted expired file: " +:+ path)]
       else [])
  | _ => [EIsfile path]
  end.

Fixpoint sweep_events (now : Z) (files : gmap string entry) (l : list string)
  : trace :=
  match l with
  | [] => []
  | k :: r => sweep_one_events now files k ++ sweep_events now (sweep_one now files k) r
  end.

(** A cache directory with an expired file, a fresh one, an expired one
    whose removal is refused, and a sub-directory. *)
Definition sample_dir : gmap string entry :=
  <["old.mp3" := Entry RegularFile 1000 false]>
    (<["new.mp3" := Entry RegularFile 5000 false]>
       (<["held.mp3" := Entry RegularFile 10 true]>
          (<["sub" := Entry OtherEntry 10 false]> ∅))).

(** A modification time a quarter of a microsecond under [2 ^ 31 - 1]
    seconds and a clock reading of [2 ^ 31 + 7199] seconds: the file is
    7200 seconds and a quarter of a microsecond old, and the float sum
    [late_mtime + RETENTION_PERIOD] is [2 ^ 31 + 7199]. *)
Definition late_mtime : Q := (9007199250546687 # 4194304)%Q.

Definition late_clock : Q := 2147490847%Q.

(** A cache directory with such a file and one whose removal is refused. *)
Definition rounding_dir : gmap string entry :=
  <["late.mp3" := Entry RegularFile late_mtime false]>
    (<["held.mp3" := Entry RegularFile 10 true]> ∅).

(** The path [generate] hands to [compress_audio] for the file name
    yt-dlp reports. *)
Definition mp3_path_of (audio_file_path : string) : string :=
  "audios/" +:+ os_path_basename (os_path_splitext audio_file_path).1 +:+ ".mp3".

(** The first exception the pipeline meets is [e]: at the probe, at the
    download, at the file-name query, or in the post-processing (decoding
    or export). *)
Definition step_raises (Y : ytdl) (P : pydub) (video_url : string) (e : exn)
  : Prop :=
  extract_info Y video_url false = Raise e
  \/ exists info,
       extract_info Y video_url false = Ok info
       /\ duration_passes (info_duration info) = true
       /\ (extract_info Y video_url true = Raise e
           \/ exists info',
                extract_info Y video_url true = Ok info'
                /\ (prepare_filename Y info' = Raise e
                    \/ exists path,
                         prepare_filename Y info' = Ok path
                         /\ (from_file P (mp3_path_of path) = Raise e
                             \/ exists audio,
                                  from_file P (mp3_path_of path) = Ok audio
                                  /\ export P audio (mp3_path_of path) = Raise e))).

Definition error_payload (e : exn) : json :=
  JObj [("error", JStr ("Error processing video: " +:+ exn_msg e))].

(** A JSON object with an [error] field holding a message. *)
Definition is_error_payload (doc : json) : Prop :=
  exists msg, doc = JObj [("error", JStr msg)].

(** The descriptor of a produced artifact. *)
Definition is_descriptor (doc : json) : Prop :=
  exists img link ts,
    doc = JObj [("img", img); ("direct_link", JStr link);
                ("expiration_timestamp", JInt ts)].

(** An extraction library that reports [duration] for every reference and
    downloads to [audios/ID.webm], and a transcoder that succeeds. *)
Definition sample_ytdl (duration : option Q) : ytdl :=
  Ytdl (fun _ _ => Ok (InfoDict duration (Some "https://i.example/t.jpg")))
       (fun _ => Ok "audios/ID.webm").

Definition sample_pydub : pydub :=
  Pydub (fun _ => Ok []) (fun _ _ => Ok tt).

Definition sample_ctx : request_ctx :=
  RequestCtx "http://host/" "http://host/download" 1000.

(** A transcoder that cannot decode its input. *)
Definition failing_pydub : pydub :=
  Pydub (fun _ => Raise (Exn CouldntDecodeError "Decoding failed")) (fun _ _ => Ok tt).

(** The duration of a result reads as minutes and seconds, two parts
    around one colon that [int] converts, and they total strictly less than
    300 seconds. *)
Definition under_five_minutes (v : video) : Prop :=
  exists p0 p1 minutes seconds,
    v_duration v = Some (Some (p0 +:+ ":" +:+ p1))
    /\ str_in ":" p0 = false /\ str_in ":" p1 = false
    /\ py_int p0 = Ok minutes /\ py_int p1 = Ok seconds
    /\ minutes * 60 + seconds < 300.

(** The same, as the filter the handler applies. *)
Definition kept (v : video) : bool :=
  match v_duration v with
  | Some (Some d) =>
      match split_on ":" d with
      | [p0; p1] =>
          match py_int p0, py_int p1 with
          | Ok minutes, Ok seconds => minutes * 60 + seconds <? 300
          | _, _ => false
          end
      | _ => false
      end
  | _ => false
  end.

(** The response of [/search] carrying the array [entries]. *)
Definition search_response (entries : list json) : response :=
  add_header "Content-Type" "application/json"
    (jsonify (JObj [("search", JArr entries)])).

Definition sample_video (duration : string) : video :=
  Video (Some (Some duration)) "lofi beats" "https://v.example/watch?v=1"
    ["https://i.example/1.jpg"].

(** Ten results: seven under five minutes, three above. *)
Definition sample_results : list video :=
  map sample_video
    ["4:59"; "0:30"; "3:15"; "10:00"; "2:02"; "1:00:00"; "4:00"; "1:01";
     "7:45"; "0:59"].

(** ** The remaining routes and tasks *)

(** The handler of [/]. *)
Definition nothing : response :=
  add_header "Content-Type" "application/json"
    (jsonify (JObj [("msg", JStr "Use /download or /audios/<filename>")])).

(** A [threading.Timer] that has been started. *)
Record timer : Type := Timer {
  timer_interval : Z;
  timer_daemon : bool
}.

(** What [delete_files_task] acts on: the cache directory with its log,
    and the timers started so far. *)
Record task_state : Type := TaskState {
  task_fs : sweep_state;
  task_timers : list timer
}.

Definition on_fs {A} (c : M sweep_state A) : M task_state A :=
  fun s => let '(r, fs) := c (task_fs s) in (r, TaskState fs (task_timers s)).

Definition start_timer (tm : timer) : M task_state unit :=
  modify (fun s => TaskState (task_fs s) (task_timers s ++ [tm])).

(** [delete_files_task]: one sweep, then a daemon timer that runs the task
    again in 100 seconds. *)
Definition delete_files_task (time_time : Q) : M task_state unit :=
  on_fs (delete_expired_files time_time) ;;;
  start_timer (Timer 100 true).

(** ** Vocabulary of the further statements *)

(** [rest] is empty or begins with something that is not a digit. *)
Definition no_leading_digit (rest : string) : Prop :=
  match rest with
  | String c _ => is_digit c = false
  | EmptyString => True
  end.

(** [Access-Control-Allow-Origin], [Access-Control-Allow-Methods] and the
    audio content type, as [serve_audio] sets them. *)
Definition cors_audio_headers (r : response) : Prop :=
  hget "Access-Control-Allow-Origin" (headers r) = Some "*"
  /\ hget "Access-Control-Allow-Methods" (headers r) = Some "GET"
  /\ hget "Content-Type" (headers r) = Some "audio/mpeg".

(** A world whose file [audios/<name>] passes [isfile], reports [size]
    bytes and opens as [opened]. *)
Definition racy_world (name : string) (size : result Z)
    (opened : result (list byte)) : os_world :=
  let path := "/srv/audios/" +:+ name in
  OsWorld "/srv" (fun p => String.eqb p path) (fun _ => size)
    (fun _ => sample_open opened)
    sample_max_seek sample_max_read
    (fun _ => sample_open_fits opened).

(** The descriptor [generate] yields for the thumbnail, the file stem and
    the request at hand. *)
Definition descriptor (R : request_ctx) (thumbnail_url : option string)
    (file_name : string) : json :=
  JObj [("img", json_of_optstr thumbnail_url);
        ("direct_link",
         JStr (rstrip_sep (url_root R) +:+ "/audios/" +:+ file_name +:+ ".mp3"));
        ("expiration_timestamp",
         JInt (int_of_float (time_time R) + RETENTION_PERIOD))].

(** The stem [generate] keeps of the file name yt-dlp reports. *)
Definition stem_of (audio_file_path : string) : string :=
  os_path_basename (os_path_splitext audio_file_path).1.

(** The character [c] does not occur in [s]. *)
Fixpoint lacks (c : ascii) (s : string) : bool :=
  match s with
  | String a r => negb (Ascii.eqb a c) && lacks c r
  | EmptyString => true
  end.

(** The answer of [/search] when anything raised. *)
Definition search_failed : response :=
  set_status 500 (jsonify (JObj [("error", JStr "Search failed")])).

(** What [":" in None] raises. *)
Definition none_duration_error : exn :=
  Exn TypeError "argument of type 'NoneType' is not iterable".


(** * Properties *)

(** ** Digits, [int] and [str] *)

Lemma is_digit_not_space c : is_digit c = true -> is_space c = false.
Proof. destruct c as [[|] [|] [|] [|] [|] [|] [|] [|]]; simpl; intros H; try discriminate H; reflexivity. Qed.

Lemma is_digit_uint_of_char c u :
  is_digit c = true -> exists u', uint_of_char c (Some u) = Some u'.
Proof.
  destruct c as [[|] [|] [|] [|] [|] [|] [|] [|]]; simpl; intros H;
    try discriminate H; eexists; reflexivity.
Qed.

Lemma lstrip_digits s : all_digits s = true -> lstrip s = s.
Proof.
  destruct s as [|c r]; simpl; [reflexivity|].
  intros [Hc _]%andb_prop. by rewrite (is_digit_not_space _ Hc).
Qed.

Lemma rstrip_digits s : all_digits s = true -> rstrip s = s.
Proof.
  induction s as [|c r IH]; simpl; [reflexivity|].
  intros [Hc Hr]%andb_prop. rewrite (IH Hr), (is_digit_not_space _ Hc).
  by destruct r.
Qed.

Lemma scan_digits_digits s :
  all_digits s = true -> scan_digits false s = Some (s, EmptyString).
Proof.
  induction s as [|c r IH]; simpl; [reflexivity|].
  intros [Hc Hr]%andb_prop. by rewrite Hc, (IH Hr).
Qed.

Lemma uint_of_digits s :
  all_digits s = true -> exists u, NilEmpty.uint_of_string s = Some u.
Proof.
  induction s as [|c r IH]; simpl; [by eexists|].
  intros [Hc Hr]%andb_prop. destruct (IH Hr) as [u ->].
  by apply is_digit_uint_of_char.
Qed.

(** [int] on a string of digits: the limit on the number of digits, then
    the value. *)
Lemma py_int_all_digits s :
  all_digits s = true -> s <> EmptyString ->
  py_int s =
  if (int_max_str_digits <? String.length s)%nat then
    Raise (digits_err (String.length s))
  else
    match NilEmpty.uint_of_string s with
    | Some u => Ok (Z.of_uint u)
    | None => Raise (value_err s)
    end.
Proof.
  intros Hs Hne.
  unfold py_int, strip. rewrite (lstrip_digits s Hs), (rstrip_digits s Hs).
  destruct s as [|c r]; [congruence|].
  assert (Hsign : (match String c r with
                   | String "-" r0 => (true, r0)
                   | String "+" r0 => (false, r0)
                   | _ => (false, String c r)
                   end) = (false, String c r)).
  { simpl in Hs. apply andb_prop in Hs as [Hc _].
    destruct c as [[|] [|] [|] [|] [|] [|] [|] [|]]; simpl in Hc;
      try discriminate Hc; reflexivity. }
  rewrite Hsign.
  assert (Hus : forall A (x y : A),
             match String c r with String "_" _ => x | _ => y end = y).
  { intros A x y. simpl in Hs. apply andb_prop in Hs as [Hc _].
    destruct c as [[|] [|] [|] [|] [|] [|] [|] [|]]; simpl in Hc;
      try discriminate Hc; reflexivity. }
  rewrite Hus, (scan_digits_digits _ Hs).
  destruct (int_max_str_digits <? String.length (String c r))%nat; [reflexivity|].
  by destruct (NilEmpty.uint_of_string (String c r)).
Qed.

Lemma py_int_digits s :
  all_digits s = true -> s <> EmptyString ->
  (String.length s <= int_max_str_digits)%nat ->
  exists u, NilEmpty.uint_of_string s = Some u /\ py_int s = Ok (Z.of_uint u).
Proof.
  intros Hs Hne Hlen. destruct (uint_of_digits s Hs) as [u Hu].
  exists u; split; [done|].
  rewrite (py_int_all_digits s Hs Hne), Hu.
  by rewrite (proj2 (Nat.ltb_ge _ _) Hlen).
Qed.

(** A number of more digits than the limit is refused, whatever its
    value. *)
Lemma py_int_long s :
  all_digits s = true -> (int_max_str_digits < String.length s)%nat ->
  py_int s = Raise (digits_err (String.length s)).
Proof.
  intros Hs Hlen. rewrite (py_int_all_digits s Hs).
  - by rewrite (proj2 (Nat.ltb_lt _ _) Hlen).
  - intros ->. simpl in Hlen. lia.
Qed.

Lemma of_uint_nonneg u : 0 <= Z.of_uint u.
Proof. unfold Z.of_uint. apply N2Z.is_nonneg. Qed.

Lemma string_of_uint_digits d : all_digits (NilEmpty.string_of_uint d) = true.
Proof. induction d; simpl; auto. Qed.

Lemma string_of_uint_length d :
  String.length (NilEmpty.string_of_uint d) = Decimal.nb_digits d.
Proof. induction d; simpl; auto. Qed.

(** The digits [str] writes for a natural number: none is a leading zero
    but for zero itself. *)
Lemma py_str_nonneg n :
  0 <= n ->
  exists d, py_str n = NilEmpty.string_of_uint d /\ d <> Decimal.Nil
            /\ Z.of_uint d = n /\ Decimal.unorm d = d.
Proof.
  intros Hn. unfold py_str. pose proof (DecimalZ.of_to n) as Hz.
  destruct n as [|p|p]; [| |lia].
  - exists Decimal.zero. by repeat split.
  - exists (Pos.to_uint p). simpl in *. split; [|split; [|split; [done|]]].
    + pose proof (DecimalPos.Unsigned.to_uint_nonnil p).
      by destruct (Pos.to_uint p).
    + apply DecimalPos.Unsigned.to_uint_nonnil.
    + pose proof (DecimalPos.Unsigned.to_of (Pos.to_uint p)) as Hto.
      by rewrite DecimalPos.Unsigned.of_to in Hto.
Qed.

Lemma py_str_digits n :
  0 <= n -> all_digits (py_str n) = true /\ py_str n <> EmptyString.
Proof.
  intros Hn. destruct (py_str_nonneg n Hn) as (d & -> & Hd & _). split.
  - apply string_of_uint_digits.
  - by destruct d.
Qed.

Lemma of_uint_acc_ge d : forall acc,
  Zpos acc * 10 ^ Z.of_nat (Decimal.nb_digits d) <= Zpos (Pos.of_uint_acc d acc).
Proof.
  induction d; intros acc; cbn [Pos.of_uint_acc Decimal.nb_digits];
    try (rewrite Nat2Z.inj_succ, Z.pow_succ_r by lia;
         etransitivity; [|apply IHd];
         pose proof (Z.pow_nonneg 10 (Z.of_nat (Decimal.nb_digits d))); nia).
  rewrite Z.pow_0_r. lia.
Qed.

(** A number below [10 ^ k] is written with at most [k] digits. *)
Lemma py_str_length n k :
  0 <= n < 10 ^ Z.of_nat k -> (0 < k)%nat ->
  (String.length (py_str n) <= k)%nat.
Proof.
  intros [Hn Hlt] Hk. destruct (py_str_nonneg n Hn) as (d & -> & Hd & Hval & Hnorm).
  rewrite string_of_uint_length.
  assert (Hlow : d = Decimal.zero
                 \/ 10 ^ Z.of_nat (Decimal.nb_digits d - 1) <= Z.of_uint d).
  { unfold Z.of_uint.
    destruct d as [|l|l|l|l|l|l|l|l|l|l]; [done| |right..];
      try (cbn [Pos.of_uint Decimal.nb_digits Z.of_N];
           rewrite Nat.sub_succ, Nat.sub_0_r;
           etransitivity; [|apply of_uint_acc_ge]; lia).
    left. rewrite DecimalFacts.unorm_D0 in Hnorm.
    destruct (Decimal.nzhead l) as [|l'|l'|l'|l'|l'|l'|l'|l'|l'|l'] eqn:Hh;
      unfold Decimal.unorm in Hnorm; rewrite Hh in Hnorm;
      try discriminate Hnorm.
    - by injection Hnorm as <-.
    - by apply DecimalFacts.nzhead_nonzero in Hh. }
  destruct Hlow as [-> | Hlow]; [simpl; lia|].
  rewrite Hval in Hlow.
  assert (Z.of_nat (Decimal.nb_digits d - 1) < Z.of_nat k); [|lia].
  apply (Z.pow_lt_mono_r_iff 10); lia.
Qed.

(** [int(str(n))] is [n] for the natural numbers [int] converts. *)
Lemma py_int_py_str n : 0 <= n < int_limit -> py_int (py_str n) = Ok n.
Proof.
  intros [Hn Hlt]. destruct (py_str_digits n Hn) as [Hd Hne].
  destruct (py_int_digits _ Hd Hne) as (u & Hu & ->).
  { apply (py_str_length n 4300); [exact (conj Hn Hlt) | apply Nat.lt_0_succ]. }
  destruct (py_str_nonneg n Hn) as (d & Hs & _ & Hz & _).
  rewrite Hs, NilEmpty.usu in Hu. by injection Hu as <-; rewrite Hz.
Qed.

(** Offsets and sizes that fit a machine word are far below the limit. *)
Lemma ssize_max_int_limit : ssize_max < int_limit.
Proof. vm_compute. reflexivity. Qed.

Lemma py_int_raises s e : py_int s = Raise e -> exn_class e = ValueError.
Proof.
  unfold py_int. repeat case_match; intros [= <-]; reflexivity.
Qed.

(** ** The pattern of the range resolver *)

Lemma span_digits_fst s : all_digits (fst (span_digits s)) = true.
Proof.
  induction s as [|c r IH]; simpl; [reflexivity|].
  destruct (is_digit c) eqn:Hc; [|reflexivity].
  destruct (span_digits r) as [ds rest]. simpl in *. by rewrite Hc.
Qed.

Lemma digits_dash_group s g1 rest :
  digits_dash s = Some (g1, rest) ->
  all_digits g1 = true /\ g1 <> EmptyString.
Proof.
  revert g1 rest. induction s as [|c r IH]; simpl; intros g1 rest; [done|].
  destruct (is_digit c) eqn:Hc; [|done].
  destruct (digits_dash r) as [[g rest']|].
  - intros [= <- <-]. destruct (IH _ _ eq_refl) as [Hg _].
    simpl. by rewrite Hc, Hg.
  - destruct r as [|c' r']; [done|].
    destruct (Ascii.eqb_spec c' "-") as [->|Hne].
    + intros [= <- <-]. simpl. by rewrite Hc.
    + intros H. exfalso.
      destruct c' as [[|] [|] [|] [|] [|] [|] [|] [|]]; try discriminate H.
      by apply Hne.
Qed.

Lemma re_search_groups s g1 g2 :
  re_search s = Some (g1, g2) ->
  all_digits g1 = true /\ g1 <> EmptyString /\ all_digits g2 = true.
Proof.
  induction s as [|c r IH]; simpl.
  - done.
  - unfold re_match at 1.
    destruct (digits_dash (String c r)) as [[g rest]|] eqn:Hd.
    + intros [= <- <-]. destruct (digits_dash_group _ _ _ Hd).
      repeat split; try done. apply span_digits_fst.
    + apply IH.
Qed.

(** A digit string followed by a dash is taken whole as group 1. *)
Lemma digits_dash_app ds rest :
  all_digits ds = true -> ds <> EmptyString ->
  digits_dash (ds +:+ String "-" rest) = Some (ds, rest).
Proof.
  induction ds as [|c r IH]; [done|]. simpl. intros [Hc Hr]%andb_prop _.
  rewrite Hc. destruct r as [|c' r'].
  - simpl. reflexivity.
  - rewrite IH; [reflexivity | done | done].
Qed.

Lemma span_digits_all ds : all_digits ds = true -> span_digits ds = (ds, EmptyString).
Proof.
  induction ds as [|c r IH]; simpl; [done|].
  intros [Hc Hr]%andb_prop. by rewrite Hc, (IH Hr).
Qed.

(** A suffix-only specification holds no digit followed by a dash. *)
Lemma digits_dash_all_digits ds : all_digits ds = true -> digits_dash ds = None.
Proof.
  induction ds as [|c r IH]; simpl; [done|].
  intros [Hc Hr]%andb_prop. rewrite Hc, (IH Hr).
  destruct r as [|c' r']; [done|].
  simpl in Hr. apply andb_prop in Hr as [Hc' _].
  by destruct c' as [[|] [|] [|] [|] [|] [|] [|] [|]].
Qed.

Lemma re_search_all_digits ds : all_digits ds = true -> re_search ds = None.
Proof.
  induction ds as [|c r IH]; [done|].
  intros Hd. simpl. unfold re_match. rewrite (digits_dash_all_digits _ Hd).
  simpl in Hd. apply andb_prop in Hd as [_ Hr]. by apply IH.
Qed.

Lemma re_search_skip c r : is_digit c = false -> re_search (String c r) = re_search r.
Proof. intros Hc. simpl. unfold re_match. simpl. by rewrite Hc. Qed.

Lemma re_search_here s m : re_match s = Some m -> re_search s = Some m.
Proof. intros Hm. destruct s; cbn [re_search]; by rewrite Hm. Qed.

Lemma re_search_bytes_range da db :
  all_digits da = true -> da <> EmptyString -> all_digits db = true ->
  re_search ("bytes=" +:+ da +:+ "-" +:+ db) = Some (da, db).
Proof.
  intros Ha Hne Hb.
  change ("bytes=" +:+ da +:+ "-" +:+ db)
    with (String "b" (String "y" (String "t" (String "e" (String "s"
            (String "=" (da +:+ String "-" db))))))).
  rewrite !re_search_skip by reflexivity.
  apply re_search_here. unfold re_match.
  rewrite (digits_dash_app _ _ Ha Hne). by rewrite (span_digits_all _ Hb).
Qed.

Lemma re_search_bytes_suffix ds :
  all_digits ds = true -> re_search ("bytes=-" +:+ ds) = None.
Proof.
  intros Hd.
  change ("bytes=-" +:+ ds)
    with (String "b" (String "y" (String "t" (String "e" (String "s"
            (String "=" (String "-" ds))))))).
  rewrite !re_search_skip by reflexivity.
  by apply re_search_all_digits.
Qed.

(** ** Range resolver *)

Lemma parse_range_header_eq range_header file_size :
  parse_range_header range_header file_size =
  match re_search range_header with
  | None => Ok (0, file_size - 1)
  | Some (g1, g2) =>
      a <-? py_int g1 ;;
      e <-? (if truthy g2 then py_int g2 else Ok (file_size - 1)) ;;
      let start_pos := Z.max 0 (Z.min a (file_size - 1)) in
      Ok (start_pos, Z.max start_pos (Z.min e (file_size - 1)))
  end.
Proof.
  unfold parse_range_header.
  destruct (re_search range_header) as [[g1 g2]|] eqn:Hs; [|reflexivity].
  destruct (re_search_groups _ _ _ Hs) as (_ & Hne & _).
  by destruct g1.
Qed.

(** The groups of a match within the limit on digits convert: [int] does
    not raise on them. *)
Lemma groups_convert range_header g1 g2 file_size :
  re_search range_header = Some (g1, g2) ->
  within_digit_limit range_header = true ->
  exists a e, py_int g1 = Ok a /\ 0 <= a
    /\ (if truthy g2 then py_int g2 = Ok e /\ 0 <= e else e = file_size - 1).
Proof.
  intros Hs Hlim. unfold within_digit_limit in Hlim. rewrite Hs in Hlim.
  apply andb_prop in Hlim as [Hl1%Nat.leb_le Hl2%Nat.leb_le].
  apply re_search_groups in Hs as (H1 & Hne & H2).
  destruct (py_int_digits g1 H1 Hne Hl1) as (u & _ & Hu).
  exists (Z.of_uint u).
  destruct g2 as [|c r].
  - exists (file_size - 1). repeat split; [done | apply of_uint_nonneg].
  - destruct (py_int_digits (String c r) H2) as (v & _ & Hv); [done|done|].
    exists (Z.of_uint v). repeat split; try done; apply of_uint_nonneg.
Qed.

(** A group beyond the limit makes [int] raise, and the resolver with it. *)
Lemma parse_range_header_long range_header file_size :
  within_digit_limit range_header = false ->
  exists e, parse_range_header range_header file_size = Raise e
            /\ exn_class e = ValueError.
Proof.
  intros Hlim. rewrite parse_range_header_eq.
  unfold within_digit_limit in Hlim.
  destruct (re_search range_header) as [[g1 g2]|] eqn:Hs; [|done].
  apply re_search_groups in Hs as (H1 & Hne & H2).
  apply andb_false_iff in Hlim as [Hl1%Nat.leb_gt | Hl2%Nat.leb_gt].
  - rewrite (py_int_long g1 H1 Hl1). by eexists.
  - destruct (py_int g1) as [a|e] eqn:Ha; cbn [rbind].
    + assert (truthy g2 = true) as ->.
      { destruct g2; [simpl in Hl2; lia | done]. }
      rewrite (py_int_long g2 H2 Hl2). by eexists.
    + exists e. split; [done|]. by apply (py_int_raises g1).
Qed.

(** With at least one byte and numbers that convert, the resolved interval
    lies inside the file. *)
Lemma parse_range_header_in_bounds range_header file_size :
  1 <= file_size -> within_digit_limit range_header = true ->
  exists start_pos end_pos,
    parse_range_header range_header file_size = Ok (start_pos, end_pos)
    /\ 0 <= start_pos /\ start_pos <= end_pos /\ end_pos <= file_size - 1.
Proof.
  intros Hsize Hlim. rewrite parse_range_header_eq.
  destruct (re_search range_header) as [[g1 g2]|] eqn:Hs.
  - destruct (groups_convert _ _ _ file_size Hs Hlim) as (a & e & Ha & Ha0 & He).
    rewrite Ha. cbn [rbind].
    destruct (truthy g2).
    + destruct He as [-> _]. cbn [rbind]. eexists _, _.
      split; [reflexivity | lia].
    + cbn [rbind]. eexists _, _. split; [reflexivity | lia].
  - exists 0, (file_size - 1). split; [reflexivity | lia].
Qed.

(** The resolver returns an interval for every header whose numbers
    convert, whatever the size. *)
Lemma parse_range_header_converts range_header file_size :
  within_digit_limit range_header = true ->
  exists start_pos end_pos,
    parse_range_header range_header file_size = Ok (start_pos, end_pos).
Proof.
  intros Hlim. rewrite parse_range_header_eq.
  destruct (re_search range_header) as [[g1 g2]|] eqn:Hs.
  - destruct (groups_convert _ _ _ file_size Hs Hlim) as (a & e & Ha & Ha0 & He).
    rewrite Ha. cbn [rbind].
    destruct (truthy g2).
    + destruct He as [-> _]. cbn [rbind]. by eexists _, _.
    + cbn [rbind]. by eexists _, _.
  - by eexists _, _.
Qed.

(** C1, as amended: for every file size of at least one byte and every
    header whose first pattern holds numbers of at most 4300 digits, the
    most [int] converts, the range resolver returns without raising. A
    well-formed header [bytes=a-b] with [0 <= a <= b < file_size] (and [b]
    below [int_limit]) resolves to [(a, b)], and so does any header whose
    first pattern reads as such [a] and [b]. For every such header the
    result satisfies [0 <= start <= end <= file_size - 1]; it is the full
    file when the header holds no pattern, and otherwise the requested
    start brought down to [file_size - 1] when it is beyond, and the
    requested end (the last byte when the pattern has none) brought up to
    the start or down to [file_size - 1] when it is outside. A header with
    a longer number makes the resolver raise [ValueError]. *)
Theorem parse_range_header_resolves (file_size : Z) :
  1 <= file_size ->
  (forall a b : Z, 0 <= a -> a <= b -> b < file_size -> b < int_limit ->
     parse_range_header ("bytes=" +:+ py_str a +:+ "-" +:+ py_str b) file_size
     = Ok (a, b))
  /\
  (forall range_header : string,
     within_digit_limit range_header = true ->
     exists start_pos end_pos,
       parse_range_header range_header file_size = Ok (start_pos, end_pos)
       /\ 0 <= start_pos /\ start_pos <= end_pos /\ end_pos <= file_size - 1
       /\ (forall g1 g2 a b,
             re_search range_header = Some (g1, g2) ->
             py_int g1 = Ok a -> g2 <> EmptyString -> py_int g2 = Ok b ->
             0 <= a -> a <= b -> b < file_size ->
             start_pos = a /\ end_pos = b)
       /\ match re_search range_header with
          | None => start_pos = 0 /\ end_pos = file_size - 1
          | Some (g1, g2) =>
              exists a e,
                py_int g1 = Ok a /\ 0 <= a
                /\ (if truthy g2 then py_int g2 = Ok e else e = file_size - 1)
                /\ start_pos = (if a <=? file_size - 1 then a else file_size - 1)
                /\ end_pos = (if e <? start_pos then start_pos
                              else if e <=? file_size - 1 then e
                              else file_size - 1)
          end)
  /\
  (forall range_header : string,
     within_digit_limit range_header = false ->
     exists e, parse_range_header range_header file_size = Raise e
               /\ exn_class e = ValueError).
Proof.
  intros Hsize. split; [|split].
  - intros a b Ha Hab Hb Hlim.
    destruct (py_str_digits a Ha) as [Hda Hna].
    destruct (py_str_digits b) as [Hdb Hnb]; [lia|].
    rewrite parse_range_header_eq, (re_search_bytes_range _ _ Hda Hna Hdb).
    rewrite (py_int_py_str a) by lia. simpl rbind.
    assert (truthy (py_str b) = true) as -> by (by destruct (py_str b)).
    rewrite py_int_py_str by lia. cbn [rbind]. cbv zeta. f_equal. f_equal; lia.
  - intros range_header Hlim. rewrite parse_range_header_eq.
    destruct (re_search range_header) as [[g1 g2]|] eqn:Hs.
    + destruct (groups_convert _ _ _ file_size Hs Hlim) as (a & e & Ha & Ha0 & He).
      rewrite Ha. simpl rbind.
      set (start_pos := Z.max 0 (Z.min a (file_size - 1))).
      assert (Hres : (e0 <-? (if truthy g2 then py_int g2 else Ok (file_size - 1)) ;;
                      Ok (start_pos, Z.max start_pos (Z.min e0 (file_size - 1))))
                     = Ok (start_pos, Z.max start_pos (Z.min e (file_size - 1)))).
      { destruct (truthy g2); [destruct He as [-> _]|subst e]; reflexivity. }
      rewrite Hres. eexists _, _. split; [reflexivity|].
      split; [lia|]. split; [lia|]. split; [lia|]. split.
      * intros g1' g2' a' b' [= <- <-] Ha' Hne Hb' ? ? ?.
        rewrite Ha in Ha'. injection Ha' as <-.
        destruct g2 as [|c r]; [done|]. cbn [truthy] in He.
        destruct He as [He _]. rewrite He in Hb'. injection Hb' as <-.
        subst start_pos. lia.
      * exists a, e. split; [done|]. split; [done|]. split.
        { destruct (truthy g2); [by destruct He | done]. }
        assert (Hst : start_pos = (if a <=? file_size - 1 then a else file_size - 1)).
        { subst start_pos. destruct (Z.leb_spec a (file_size - 1)); lia. }
        split; [done|].
        destruct (Z.ltb_spec e start_pos); [lia|].
        destruct (Z.leb_spec e (file_size - 1)); lia.
    + exists 0, (file_size - 1). repeat split; try lia; intros; congruence.
  - intros range_header Hlim. by apply parse_range_header_long.
Qed.

Lemma parse_range_header_resolves_witness :
  1 <= 1000 /\ parse_range_header "bytes=0-499" 1000 = Ok (0, 499).
Proof.
  split; [lia|].
  apply (proj1 (parse_range_header_resolves 1000 ltac:(lia)) 0 499);
    [lia | lia | lia | reflexivity].
Defined.

(** C1 as stated fails twice. On an empty file no interval satisfies
    [0 <= start <= end <= -1], and the resolver answers [(0, 0)]. And the
    resolver does fail: on a header whose number has 4301 digits [int]
    raises and nothing catches it. *)
Lemma parse_range_header_fails :
  ~ (forall (range_header : string) (file_size : Z), 0 <= file_size ->
       exists start_pos end_pos,
         parse_range_header range_header file_size = Ok (start_pos, end_pos)
         /\ 0 <= start_pos /\ start_pos <= end_pos /\ end_pos <= file_size - 1)
  /\ ~ (forall (range_header : string) (file_size : Z), 1 <= file_size ->
         exists start_pos end_pos,
           parse_range_header range_header file_size = Ok (start_pos, end_pos)).
Proof.
  split.
  - intros H. destruct (H "bytes=0-" 0) as (s & e & Heq & ? & ? & ?); [lia|].
    vm_compute in Heq. injection Heq as <- <-. lia.
  - intros H.
    destruct (H ("bytes=" +:+ nines 4301 +:+ "-") 1000) as (s & e & Heq); [lia|].
    vm_compute in Heq. discriminate Heq.
Qed.

(** ** Content Delivery *)

Lemma file_seek_ok w data pos :
  0 <= pos -> pos <= os_max_seek w -> pos <= ssize_max ->
  file_seek w data pos = Ok (drop (Z.to_nat pos) data).
Proof.
  intros H0 H1 H2. unfold file_seek.
  destruct (Z.ltb_spec pos (- ssize_max - 1)); [unfold ssize_max in *; lia|].
  destruct (Z.ltb_spec ssize_max pos); [lia|].
  destruct (Z.ltb_spec pos 0); [lia|].
  destruct (Z.ltb_spec (os_max_seek w) pos); [lia|]. reflexivity.
Qed.

Lemma file_read_ok w rest n :
  0 <= n -> n <= os_max_read w -> n <= ssize_max - 33 ->
  file_read w rest n = Ok (take (Z.to_nat n) rest).
Proof.
  intros H0 H1 H2. unfold file_read.
  destruct (Z.ltb_spec n (- ssize_max - 1)); [unfold ssize_max in *; lia|].
  destruct (Z.ltb_spec ssize_max n); [lia|].
  destruct (Z.ltb_spec n (-1)); [lia|].
  destruct (Z.eqb_spec n (-1)); [lia|].
  destruct (Z.ltb_spec (ssize_max - 33) n); [lia|].
  destruct (Z.ltb_spec (os_max_read w) n); [lia|]. reflexivity.
Qed.

(** [read()] returns all that is left. *)
Lemma file_read_all w rest : file_read w rest (-1) = Ok rest.
Proof. reflexivity. Qed.

Lemma take_drop_span data start_pos end_pos :
  0 <= start_pos -> start_pos <= end_pos -> end_pos <= len data - 1 ->
  is_span (take (Z.to_nat (end_pos - start_pos + 1)) (drop (Z.to_nat start_pos) data))
          data start_pos end_pos.
Proof.
  intros H0 H1 H2. unfold is_span, len in *. split.
  - rewrite length_take, length_drop. lia.
  - intros i Hi. rewrite lookup_take_lt by lia. by rewrite lookup_drop.
Qed.

(** The range from the first byte to the last is the whole file. *)
Lemma take_drop_whole data :
  take (Z.to_nat (len data - 1 - 0 + 1)) (drop (Z.to_nat 0) data) = data.
Proof.
  unfold len. change (Z.to_nat 0) with 0%nat. rewrite drop_0.
  apply take_ge. lia.
Qed.

Lemma make_partial_response_ok w file_path data start_pos end_pos file_size t :
  os_open_rb w file_path = Ok data ->
  0 <= start_pos -> start_pos <= os_max_seek w -> start_pos <= ssize_max ->
  0 <= end_pos - start_pos + 1 ->
  end_pos - start_pos + 1 <= os_max_read w ->
  end_pos - start_pos + 1 <= ssize_max - 33 ->
  make_partial_response w file_path start_pos end_pos file_size t =
  (Ok (Response 206
         [("Content-Type", "text/html; charset=utf-8");
          ("Content-Length", py_str (end_pos - start_pos + 1));
          ("Content-Range",
           "bytes " +:+ py_str start_pos +:+ "-" +:+ py_str end_pos
             +:+ "/" +:+ py_str file_size)]
         (Raw (take (Z.to_nat (end_pos - start_pos + 1))
                 (drop (Z.to_nat start_pos) data)))),
   t ++ [EOpen file_path]).
Proof.
  intros Hopen Hs Hs1 Hs2 Hc Hc1 Hc2.
  unfold make_partial_response, try_except, bind, call, lift, ret.
  rewrite Hopen, (file_seek_ok _ _ _ Hs Hs1 Hs2), (file_read_ok _ _ _ Hc Hc1 Hc2).
  reflexivity.
Qed.

(** The same for a range inside the file. *)
Lemma make_partial_response_within w file_path data start_pos end_pos file_size t :
  os_open_rb w file_path = Ok data ->
  0 <= start_pos -> start_pos <= end_pos -> end_pos <= len data - 1 ->
  make_partial_response w file_path start_pos end_pos file_size t =
  (Ok (Response 206
         [("Content-Type", "text/html; charset=utf-8");
          ("Content-Length", py_str (end_pos - start_pos + 1));
          ("Content-Range",
           "bytes " +:+ py_str start_pos +:+ "-" +:+ py_str end_pos
             +:+ "/" +:+ py_str file_size)]
         (Raw (take (Z.to_nat (end_pos - start_pos + 1))
                 (drop (Z.to_nat start_pos) data)))),
   t ++ [EOpen file_path]).
Proof.
  intros Hopen H0 H1 H2.
  destruct (os_fits w _ _ Hopen) as (Hr1 & Hr2 & Hr3).
  apply make_partial_response_ok; try done; lia.
Qed.

Lemma make_entire_response_ok w file_path data file_size t :
  os_open_rb w file_path = Ok data ->
  make_entire_response w file_path file_size t =
  (Ok (Response 200
         [("Content-Type", "text/html; charset=utf-8");
          ("Content-Length", py_str file_size)]
         (Raw data)),
   t ++ [EOpen file_path]).
Proof.
  intros Hopen.
  unfold make_entire_response, try_except, bind, call, lift, ret.
  by rewrite Hopen, file_read_all.
Qed.

(** [serve_audio] up to the choice between the two responses. *)
Lemma serve_audio_stored w range_header filename data t :
  accepted_filename filename -> stored w filename data ->
  serve_audio w range_header filename t =
  (response <-
     match range_header with
     | Some h =>
         if truthy h then
           range <- lift (parse_range_header h (len data)) ;;
           let '(start_pos, end_pos) := range in
           make_partial_response w (audio_path w filename) start_pos end_pos
             (len data)
         else make_entire_response w (audio_path w filename) (len data)
     | None => make_entire_response w (audio_path w filename) (len data)
     end ;;
   ret (set_header "Content-Type" "audio/mpeg"
          (set_header "Access-Control-Allow-Methods" "GET"
             (set_header "Access-Control-Allow-Origin" "*" response))))
    (((t ++ [EGetcwd]) ++ [EIsfile (audio_path w filename)])
       ++ [EGetsize (audio_path w filename)]).
Proof.
  intros [Hdd Hsep] (Hfile & Hsize & _).
  unfold serve_audio. unfold bind at 1. unfold call at 1.
  fold (audio_path w filename). rewrite Hdd, Hsep. cbn [orb].
  unfold bind at 1. unfold call at 1. rewrite Hfile. cbn [negb].
  unfold bind at 1. unfold call at 1. rewrite Hsize.
  reflexivity.
Qed.

(** Whatever the numbers of the header, an interval the resolver returns
    for a file of at least one byte lies inside the file. *)
Lemma parse_range_header_inside range_header file_size start_pos end_pos :
  1 <= file_size ->
  parse_range_header range_header file_size = Ok (start_pos, end_pos) ->
  0 <= start_pos /\ start_pos <= end_pos /\ end_pos <= file_size - 1.
Proof.
  intros Hsize. rewrite parse_range_header_eq.
  destruct (re_search range_header) as [[g1 g2]|].
  - destruct (py_int g1) as [a|]; [|done]. cbn [rbind].
    destruct (if truthy g2 then py_int g2 else Ok (file_size - 1)) as [e|]; [|done].
    cbn [rbind]. intros [= <- <-]. lia.
  - intros [= <- <-]. lia.
Qed.

(** C3, as amended: for every existing file of at least one byte served
    with a Range header that the resolver resolves to [(start, end)], as
    it does every header whose numbers [int] converts, the partial-content
    response, both as [make_partial_response] builds it and as
    [serve_audio] returns it, has status 206, [Content-Range] equal to
    [bytes start-end/size], [Content-Length] equal to [end - start + 1],
    and a body that is exactly the [end - start + 1] bytes of the file from
    offset [start] through offset [end]. *)
Theorem partial_content_response
    (w : os_world) (filename : string) (data : list byte) (h : string) :
  accepted_filename filename -> stored w filename data ->
  truthy h = true -> 1 <= len data ->
  (within_digit_limit h = true ->
   exists start_pos end_pos,
     parse_range_header h (len data) = Ok (start_pos, end_pos))
  /\
  (forall start_pos end_pos,
     parse_range_header h (len data) = Ok (start_pos, end_pos) ->
     exists partial final t,
       make_partial_response w (audio_path w filename) start_pos end_pos
         (len data) [] = (Ok partial, [EOpen (audio_path w filename)])
       /\ serve_audio w (Some h) filename [] = (Ok final, t)
       /\ partial_content partial data start_pos end_pos
       /\ partial_content final data start_pos end_pos).
Proof.
  intros Hname Hst Hh Hsize.
  split; [by apply parse_range_header_converts|].
  intros start_pos end_pos Hp.
  destruct (parse_range_header_inside _ _ _ _ Hsize Hp) as (Hs0 & Hse & He).
  pose proof Hst as (_ & _ & Hopen).
  pose proof (take_drop_span data start_pos end_pos Hs0 Hse He) as Hspan.
  eexists _, _, _. split.
  { rewrite (make_partial_response_within _ _ data) by done. reflexivity. }
  split.
  { rewrite (serve_audio_stored _ _ _ data) by done. rewrite Hh.
    unfold bind at 1. unfold bind at 1. unfold lift at 1. rewrite Hp.
    rewrite (make_partial_response_within _ _ data) by done.
    reflexivity. }
  split; (split; [reflexivity|]; split; [reflexivity|]; split; [reflexivity|]);
    eexists; (split; [reflexivity | exact Hspan]).
Qed.

Lemma one_file_world_stored name data :
  startswith name "/" = false -> len data <= sample_max_read ->
  stored (one_file_world name data) name data.
Proof.
  intros Hname Hlen.
  assert (Hpath : audio_path (one_file_world name data) name = "/srv/audios/" +:+ name).
  { unfold audio_path, os_path_join, path_join2. cbn. by rewrite Hname. }
  unfold stored. rewrite Hpath. cbn. rewrite String.eqb_refl.
  repeat split. unfold sample_open.
  by rewrite (proj2 (Z.leb_le _ _) Hlen).
Qed.

Lemma partial_content_response_witness :
  accepted_filename "a.mp3"
  /\ stored (one_file_world "a.mp3" (list_byte_of_string "hello")) "a.mp3"
       (list_byte_of_string "hello")
  /\ truthy "bytes=1-3" = true
  /\ 1 <= len (list_byte_of_string "hello")
  /\ parse_range_header "bytes=1-3" (len (list_byte_of_string "hello")) = Ok (1, 3)
  /\ exists partial final t,
       make_partial_response (one_file_world "a.mp3" (list_byte_of_string "hello"))
         (audio_path (one_file_world "a.mp3" (list_byte_of_string "hello")) "a.mp3")
         1 3 (len (list_byte_of_string "hello")) []
       = (Ok partial,
          [EOpen (audio_path (one_file_world "a.mp3" (list_byte_of_string "hello")) "a.mp3")])
       /\ serve_audio (one_file_world "a.mp3" (list_byte_of_string "hello"))
            (Some "bytes=1-3") "a.mp3" [] = (Ok final, t)
       /\ partial_content partial (list_byte_of_string "hello") 1 3
       /\ partial_content final (list_byte_of_string "hello") 1 3.
Proof.
  assert (Ha : accepted_filename "a.mp3") by (split; reflexivity).
  assert (Hs : stored (one_file_world "a.mp3" (list_byte_of_string "hello"))
                 "a.mp3" (list_byte_of_string "hello")).
  { apply one_file_world_stored; [reflexivity | vm_compute; discriminate]. }
  assert (Ht : truthy "bytes=1-3" = true) by reflexivity.
  assert (Hl : 1 <= len (list_byte_of_string "hello")) by (vm_compute; discriminate).
  assert (Hp : parse_range_header "bytes=1-3" (len (list_byte_of_string "hello"))
               = Ok (1, 3)) by (vm_compute; reflexivity).
  split; [exact Ha|]. split; [exact Hs|]. split; [exact Ht|]. split; [exact Hl|].
  split; [exact Hp|].
  exact (proj2 (partial_content_response _ _ _ _ Ha Hs Ht Hl) 1 3 Hp).
Defined.

(** C3 as stated fails on an empty file: with [Range: bytes=0-] the
    resolver answers [(0, 0)], the response announces one byte and carries
    none. *)
Lemma partial_content_response_empty_file :
  ~ (forall (w : os_world) (filename : string) (data : list byte) (h : string)
       (start_pos end_pos : Z),
       accepted_filename filename -> stored w filename data ->
       truthy h = true ->
       parse_range_header h (len data) = Ok (start_pos, end_pos) ->
       exists final t,
         serve_audio w (Some h) filename [] = (Ok final, t)
         /\ partial_content final data start_pos end_pos).
Proof.
  intros H.
  destruct (H (one_file_world "a.mp3" []) "a.mp3" [] "bytes=0-" 0 0)
    as (final & t & Hserve & _ & _ & _ & content & Hbody & Hlen & _).
  - split; reflexivity.
  - apply one_file_world_stored; [reflexivity | vm_compute; discriminate].
  - reflexivity.
  - vm_compute. reflexivity.
  - vm_compute in Hserve. injection Hserve as <- <-.
    simpl in Hbody. injection Hbody as <-. vm_compute in Hlen. discriminate.
Qed.

(** C4: for every existing file served without a Range header (none, or
    an empty one), the response, both as [make_entire_response] builds it
    and as [serve_audio] returns it, has status 200, [Content-Length] equal
    to the size of the file, and the whole content of the file as body. *)
Theorem entire_content_response
    (w : os_world) (filename : string) (data : list byte)
    (range_header : option string) :
  accepted_filename filename -> stored w filename data ->
  range_header = None \/ range_header = Some EmptyString ->
  exists entire final t,
    make_entire_response w (audio_path w filename) (len data) []
      = (Ok entire, [EOpen (audio_path w filename)])
    /\ serve_audio w range_header filename [] = (Ok final, t)
    /\ entire_content entire data
    /\ entire_content final data.
Proof.
  intros Hname Hst Hrange. pose proof Hst as (_ & _ & Hopen).
  eexists _, _, _. split.
  { rewrite (make_entire_response_ok _ _ data) by done. reflexivity. }
  split.
  { rewrite (serve_audio_stored _ _ _ data) by done.
    assert (Hsel : match range_header with
                   | Some h =>
                       if truthy h then
                         range <- lift (parse_range_header h (len data)) ;;
                         let '(start_pos, end_pos) := range in
                         make_partial_response w (audio_path w filename)
                           start_pos end_pos (len data)
                       else make_entire_response w (audio_path w filename) (len data)
                   | None => make_entire_response w (audio_path w filename) (len data)
                   end = make_entire_response w (audio_path w filename) (len data))
      by (destruct Hrange as [-> | ->]; reflexivity).
    rewrite Hsel. unfold bind at 1.
    rewrite (make_entire_response_ok _ _ data) by done. reflexivity. }
  split; repeat split; reflexivity.
Qed.

Lemma entire_content_response_witness :
  exists entire final t,
    make_entire_response (one_file_world "a.mp3" (list_byte_of_string "hello"))
      "/srv/audios/a.mp3" 5 [] = (Ok entire, [EOpen "/srv/audios/a.mp3"])
    /\ serve_audio (one_file_world "a.mp3" (list_byte_of_string "hello"))
         None "a.mp3" [] = (Ok final, t)
    /\ entire_content entire (list_byte_of_string "hello")
    /\ entire_content final (list_byte_of_string "hello").
Proof.
  apply (entire_content_response
           (one_file_world "a.mp3" (list_byte_of_string "hello")) "a.mp3"
           (list_byte_of_string "hello") None).
  - split; reflexivity.
  - apply one_file_world_stored; [reflexivity | vm_compute; discriminate].
  - left; reflexivity.
Defined.

(** C5: for every requested file name that contains [..] or begins with
    [/], [serve_audio] answers 400 and the only call it has made by then is
    [os.getcwd()]: no existence check, no size query, no open or read of
    the requested path. *)
Theorem serve_audio_rejects_traversal
    (w : os_world) (range_header : option string) (filename : string)
    (t : trace) :
  str_in ".." filename = true \/ startswith filename "/" = true ->
  exists r calls,
    serve_audio w range_header filename t = (Ok r, t ++ calls)
    /\ status_code r = 400
    /\ body r = Raw (list_byte_of_string "Invalid filename")
    /\ calls = [EGetcwd]
    /\ Forall (fun e => touches_path e = false) calls.
Proof.
  intros Hbad. exists (make_response_text "Invalid filename" 400), [EGetcwd].
  split; [|repeat split; repeat constructor].
  unfold serve_audio, bind at 1, call at 1.
  assert (str_in ".." filename || startswith filename "/" = true) as ->
    by (destruct Hbad as [-> | ->]; [reflexivity | apply orb_true_r]).
  reflexivity.
Qed.

Lemma serve_audio_rejects_traversal_witness :
  (str_in ".." "../../etc/passwd" = true \/ startswith "../../etc/passwd" "/" = true)
  /\ (str_in ".." "/abs" = true \/ startswith "/abs" "/" = true)
  /\ (exists r calls,
        serve_audio (one_file_world "a.mp3" []) None "../../etc/passwd" []
          = (Ok r, [] ++ calls)
        /\ status_code r = 400
        /\ body r = Raw (list_byte_of_string "Invalid filename")
        /\ calls = [EGetcwd]
        /\ Forall (fun e => touches_path e = false) calls)
  /\ (exists r calls,
        serve_audio (one_file_world "a.mp3" []) None "/abs" []
          = (Ok r, [] ++ calls)
        /\ status_code r = 400
        /\ body r = Raw (list_byte_of_string "Invalid filename")
        /\ calls = [EGetcwd]
        /\ Forall (fun e => touches_path e = false) calls).
Proof.
  split; [left; reflexivity|]. split; [right; reflexivity|]. split.
  - apply serve_audio_rejects_traversal. left; reflexivity.
  - apply serve_audio_rejects_traversal. right; reflexivity.
Defined.

(** C10: for every file size of at least one byte and every suffix-only
    header [bytes=-N], [N] made of digits, the resolver finds no pattern
    and returns the full-file interval [(0, file_size - 1)]; for an
    existing file of that size [serve_audio] then answers 206 with the
    whole file as body, not its last [N] bytes, and does not raise. *)
Theorem suffix_range_serves_whole_file
    (w : os_world) (filename : string) (data : list byte) (digits : string) :
  accepted_filename filename -> stored w filename data ->
  all_digits digits = true -> 1 <= len data ->
  re_search ("bytes=-" +:+ digits) = None
  /\ (forall file_size : Z, 1 <= file_size ->
        parse_range_header ("bytes=-" +:+ digits) file_size
        = Ok (0, file_size - 1))
  /\ exists final t,
       serve_audio w (Some ("bytes=-" +:+ digits)) filename [] = (Ok final, t)
       /\ partial_content final data 0 (len data - 1)
       /\ body final = Raw data.
Proof.
  intros Hname Hst Hd Hsize.
  pose proof (re_search_bytes_suffix _ Hd) as Hnone.
  assert (Hparse : forall file_size,
             parse_range_header ("bytes=-" +:+ digits) file_size
             = Ok (0, file_size - 1)).
  { intros fs. rewrite parse_range_header_eq. by rewrite Hnone. }
  split; [exact Hnone|]. split; [intros; apply Hparse|].
  pose proof Hst as (_ & _ & Hopen).
  pose proof (take_drop_whole data) as Hall.
  eexists _, _. split.
  { rewrite (serve_audio_stored _ _ _ data) by done.
    assert (truthy ("bytes=-" +:+ digits) = true) as -> by reflexivity.
    unfold bind at 1. unfold bind at 1. unfold lift at 1.
    rewrite Hparse.
    rewrite (make_partial_response_within _ _ data) by (done || lia).
    rewrite Hall. reflexivity. }
  split; [|reflexivity].
  split; [reflexivity|]. split; [reflexivity|]. split; [reflexivity|].
  exists data. split; [reflexivity|].
  rewrite <- Hall at 1. apply take_drop_span; lia.
Qed.

Lemma suffix_range_serves_whole_file_witness :
  re_search "bytes=-500" = None
  /\ (forall file_size : Z, 1 <= file_size ->
        parse_range_header "bytes=-500" file_size = Ok (0, file_size - 1))
  /\ exists final t,
       serve_audio (one_file_world "a.mp3" (list_byte_of_string "hello"))
         (Some "bytes=-500") "a.mp3" [] = (Ok final, t)
       /\ partial_content final (list_byte_of_string "hello") 0
            (len (list_byte_of_string "hello") - 1)
       /\ body final = Raw (list_byte_of_string "hello").
Proof.
  apply (suffix_range_serves_whole_file
           (one_file_world "a.mp3" (list_byte_of_string "hello")) "a.mp3"
           (list_byte_of_string "hello") "500").
  - split; reflexivity.
  - apply one_file_world_stored; [reflexivity | vm_compute; discriminate].
  - reflexivity.
  - vm_compute; discriminate.
Defined.

(** ** Retention Sweeper *)

Lemma Qltb_lt a b : Qltb a b = true <-> (a < b)%Q.
Proof.
  unfold Qltb. rewrite negb_true_iff. split.
  - intros H. apply Qnot_le_lt. intros Hle. apply Qle_bool_iff in Hle. congruence.
  - intros H. destruct (Qle_bool b a) eqn:E; [|reflexivity].
    apply Qle_bool_iff in E. exfalso. by apply (Qlt_not_le a b).
Qed.

Lemma round_half_even_floor y : Qfloor y <= round_half_even y.
Proof.
  unfold round_half_even.
  destruct (2 * (y - inject_Z (Qfloor y)) ?= 1)%Q; [destruct (Z.even (Qfloor y))| |]; lia.
Qed.

Lemma round_half_even_whole y z : (y == inject_Z z)%Q -> round_half_even y = z.
Proof.
  intros Hy. unfold round_half_even.
  assert (Hf : Qfloor y = z) by (rewrite (Qfloor_comp _ _ Hy); apply Qfloor_Z).
  rewrite Hf.
  assert (Hlt : (2 * (y - inject_Z z) < 1)%Q) by (rewrite Hy; lra).
  by rewrite (proj1 (Qlt_alt _ _) Hlt).
Qed.

Lemma scale_pos e : 0 <= e -> (0 < inject_Z (2 ^ e))%Q.
Proof.
  intros He. change 0%Q with (inject_Z 0). rewrite <- Zlt_Qlt.
  apply Z.pow_pos_nonneg; lia.
Qed.

(** Rounding does not cross a whole number. *)
Lemma round64_ge_int x n : (inject_Z n <= x)%Q -> (inject_Z n <= round64 x)%Q.
Proof.
  intros Hx. unfold round64.
  destruct (Qeq_bool x 0) eqn:Hz.
  { apply Qeq_bool_eq in Hz. by rewrite <- Hz. }
  destruct (Z.ltb_spec 0 (ulp_exponent x)) as [|He]; [done|].
  set (k := - ulp_exponent x). assert (Hk : 0 <= k) by (unfold k; lia).
  pose proof (scale_pos k Hk) as Hpos.
  apply Qle_shift_div_l; [done|].
  rewrite <- inject_Z_mult, <- Zle_Qle.
  etransitivity; [|apply round_half_even_floor].
  rewrite <- (Qfloor_Z (n * 2 ^ k)). apply Qfloor_resp_le.
  rewrite inject_Z_mult. apply Qmult_le_compat_r; [done|]. by apply Qlt_le_weak.
Qed.

(** A whole number is a double, and rounding leaves it as it is. *)
Lemma round64_whole x z : (x == inject_Z z)%Q -> (round64 x == inject_Z z)%Q.
Proof.
  intros Hx. unfold round64.
  destruct (Qeq_bool x 0) eqn:Hz.
  { apply Qeq_bool_eq in Hz. by rewrite <- Hx, Hz. }
  destruct (Z.ltb_spec 0 (ulp_exponent x)) as [|He]; [done|].
  set (k := - ulp_exponent x). assert (Hk : 0 <= k) by (unfold k; lia).
  pose proof (scale_pos k Hk) as Hpos.
  rewrite (round_half_even_whole _ (z * 2 ^ k)).
  - rewrite inject_Z_mult. apply Qdiv_mult_l. intros H0. rewrite H0 in Hpos.
    by apply Qlt_irrefl in Hpos.
  - by rewrite Hx, inject_Z_mult.
Qed.

Lemma found_expired_expired now mtime :
  found_expired now mtime -> expired now mtime.
Proof.
  unfold found_expired, expired, float_add_int. intros Hf.
  destruct (Qlt_le_dec (inject_Z RETENTION_PERIOD) (inject_Z now - mtime)) as [|Hle];
    [done|].
  exfalso. apply (Qlt_not_le _ _ Hf). apply round64_ge_int. lra.
Qed.

Lemma found_expired_exact now mtime :
  (round64 (mtime + inject_Z RETENTION_PERIOD) == mtime + inject_Z RETENTION_PERIOD)%Q ->
  expired now mtime -> found_expired now mtime.
Proof.
  unfold found_expired, expired, float_add_int. intros -> H. lra.
Qed.

Lemma found_expired_whole now m :
  found_expired now (inject_Z m) <-> m + RETENTION_PERIOD < now.
Proof.
  unfold found_expired, float_add_int.
  rewrite (round64_whole _ (m + RETENTION_PERIOD)) by (by rewrite inject_Z_plus).
  by rewrite <- Zlt_Qlt.
Qed.

Lemma Qltb_found now mtime :
  Qltb (float_add_int mtime RETENTION_PERIOD) (inject_Z now) = true
  <-> found_expired now mtime.
Proof. apply Qltb_lt. Qed.

Lemma removable_spec now o :
  removable now o = true <->
  exists mtime, o = Some (Entry RegularFile mtime false) /\ found_expired now mtime.
Proof.
  unfold removable. destruct o as [[[] m []]|]; try (split; [done | by intros (? & [=] & _)]).
  rewrite Qltb_found. split.
  - intros H. by exists m.
  - by intros (m' & [= <-] & H).
Qed.

(** What the pass removes is expired in exact terms too. *)
Lemma removable_expired now o :
  removable now o = true ->
  exists mtime, o = Some (Entry RegularFile mtime false) /\ expired now mtime.
Proof.
  intros (m & -> & Hf)%removable_spec. exists m. split; [done|].
  by apply found_expired_expired.
Qed.

Lemma audios_join k :
  startswith k "/" = false -> os_path_join "audios" [k] = "audios/" +:+ k.
Proof. intros Hk. unfold os_path_join, path_join2. simpl. by rewrite Hk. Qed.

Lemma entry_at_audios files k :
  entry_at (Listing files) ("audios/" +:+ k) = files !! k.
Proof. reflexivity. Qed.

Lemma sweep_entry_run now files k t :
  startswith k "/" = false ->
  sweep_entry now k (SweepState (Listing files) t) =
  (Ok tt, SweepState (Listing (sweep_one now files k))
            (t ++ sweep_one_events now files k)).
Proof.
  intros Hk. unfold sweep_entry. rewrite (audios_join k Hk).
  unfold sweep_one, sweep_one_events, removable.
  unfold bind at 1. unfold os_path_isfile at 1, record. cbn [audios sweep_trace].
  rewrite entry_at_audios.
  destruct (files !! k) as [[[] m lock]|] eqn:Hf; cbn [ret]; try reflexivity.
  unfold bind at 1. unfold os_path_getmtime at 1, record. cbn [audios sweep_trace].
  rewrite entry_at_audios, Hf. cbn [entry_mtime].
  destruct (Qltb (float_add_int m RETENTION_PERIOD) (inject_Z now)).
  - unfold try_except, bind, os_remove, record, sweep_logger, modify.
    cbn [audios sweep_trace]. change (strip_prefix "audios/" ("audios/" +:+ k)) with (Some k).
    cbv beta iota. rewrite Hf.
    destruct lock; cbn; unfold record; cbn; rewrite <- ?app_assoc; reflexivity.
  - destruct lock; cbn; rewrite <- ?app_assoc; reflexivity.
Qed.

Lemma for_each_sweep now l : forall files t,
  (forall k, k ∈ l -> startswith k "/" = false) ->
  for_each l (sweep_entry now) (SweepState (Listing files) t) =
  (Ok tt, SweepState (Listing (foldl (sweep_one now) files l))
            (t ++ sweep_events now files l)).
Proof.
  induction l as [|k r IH]; intros files t Hl.
  - cbn. by rewrite app_nil_r.
  - cbn [for_each foldl sweep_events]. unfold bind.
    rewrite sweep_entry_run by (apply Hl; left).
    rewrite IH by (intros k' Hk'; apply Hl; by right).
    by rewrite app_assoc.
Qed.

Lemma sweep_one_lookup now files k k' :
  sweep_one now files k' !! k =
  if decide (k = k') then
    (if removable now (files !! k) then None else files !! k)
  else files !! k.
Proof.
  unfold sweep_one. destruct (decide (k = k')) as [<-|Hne].
  - destruct (removable now (files !! k)); [apply lookup_delete_eq | done].
  - destruct (removable now (files !! k')); [by apply lookup_delete_ne | done].
Qed.

Lemma sweep_fold_lookup now l : forall files k,
  foldl (sweep_one now) files l !! k =
  if bool_decide (k ∈ l) && removable now (files !! k) then None else files !! k.
Proof.
  induction l as [|k' r IH]; intros files k.
  - cbn. rewrite bool_decide_eq_false_2; [done | apply not_elem_of_nil].
  - cbn [foldl]. rewrite IH, sweep_one_lookup.
    destruct (decide (k = k')) as [<-|Hne].
    + rewrite (bool_decide_eq_true_2 (k ∈ k :: r)) by left. cbn [andb].
      destruct (removable now (files !! k)) eqn:Hr.
      * by destruct (bool_decide (k ∈ r)).
      * rewrite Hr. by rewrite andb_false_r.
    + assert (bool_decide (k ∈ k' :: r) = bool_decide (k ∈ r)) as ->.
      { apply bool_decide_ext. rewrite elem_of_cons. tauto. }
      done.
Qed.



Lemma listing_names (files : gmap string entry) k :
  k ∈ (map_to_list files).*1 <-> is_Some (files !! k).
Proof.
  rewrite list_elem_of_fmap. split.
  - intros ([k' e] & -> & H%elem_of_map_to_list). by exists e.
  - intros [e He]. exists (k, e). split; [done|]. by apply elem_of_map_to_list.
Qed.

(** One pass over an existing directory. *)
Lemma delete_expired_files_listing time_time files t :
  names_ok files ->
  delete_expired_files time_time (SweepState (Listing files) t) =
  (Ok tt,
   SweepState
     (Listing (foldl (sweep_one (int_of_float time_time)) files
                 (map_to_list files).*1))
     (t ++ [EExists "audios"; EListdir "audios"]
        ++ sweep_events (int_of_float time_time) files (map_to_list files).*1)).
Proof.
  intros Hok. unfold delete_expired_files, try_except.
  unfold bind at 1. unfold os_path_exists, record. cbn.
  unfold record. cbn [audios sweep_trace].
  rewrite for_each_sweep.
  - by rewrite <- !app_assoc.
  - intros k Hk. apply Hok. by apply listing_names.
Qed.

Lemma delete_expired_files_total time_time s :
  exists s', delete_expired_files time_time s = (Ok tt, s').
Proof.
  unfold delete_expired_files, try_except.
  match goal with |- context [match ?c s with _ => _ end] => destruct (c s) as [[[]|e] s'] end.
  - by eexists.
  - unfold sweep_logger, modify. by eexists.
Qed.

Lemma names_ok_empty : names_ok ∅.
Proof. intros k [e He]. by rewrite lookup_empty in He. Qed.

Lemma names_ok_insert k e files :
  startswith k "/" = false -> names_ok files -> names_ok (<[k:=e]> files).
Proof.
  intros Hk Hok k' [e' He']. apply lookup_insert_Some in He' as [[<- _]|[_ He']].
  - done.
  - apply Hok. by exists e'.
Qed.

Lemma sample_dir_lookups :
  sample_dir !! "old.mp3" = Some (Entry RegularFile 1000 false)
  /\ sample_dir !! "new.mp3" = Some (Entry RegularFile 5000 false)
  /\ sample_dir !! "held.mp3" = Some (Entry RegularFile 10 true)
  /\ sample_dir !! "absent.mp3" = None.
Proof. repeat split; vm_compute; reflexivity. Qed.

Lemma sample_dir_ok : names_ok sample_dir.
Proof. repeat (apply names_ok_insert; [reflexivity|]). apply names_ok_empty. Qed.

Lemma rounding_dir_lookups :
  rounding_dir !! "late.mp3" = Some (Entry RegularFile late_mtime false)
  /\ rounding_dir !! "held.mp3" = Some (Entry RegularFile 10 true).
Proof. repeat split; vm_compute; reflexivity. Qed.

Lemma rounding_dir_ok : names_ok rounding_dir.
Proof. repeat (apply names_ok_insert; [reflexivity|]). apply names_ok_empty. Qed.

(** C6, as amended: after one pass of [delete_expired_files] over an
    existing cache directory, with [now] the clock reading cut to whole
    seconds, as the pass takes it: every regular file for which
    [now > mtime + RETENTION_PERIOD] holds with the sum computed in floating
    point, as the pass computes it, and whose removal is not refused, is
    gone; that is every such file with [now - mtime > RETENTION_PERIOD]
    whenever the sum is exact, as it is for a whole-second [mtime]. Every
    entry whose age does not exceed [RETENTION_PERIOD] is as it was, be
    the age counted from [now] or from the clock reading itself; so is
    every entry that is not a regular file, that the pass does not find
    expired or whose removal is refused; and no entry has appeared. When
    the directory does not exist the pass changes nothing and returns
    normally. *)
Theorem sweep_retention
    (time_time : Q) (files : gmap string entry) (t : trace) :
  names_ok files ->
  (exists files' t',
     delete_expired_files time_time (SweepState (Listing files) t)
       = (Ok tt, SweepState (Listing files') t')
     /\ (forall k e, files !! k = Some e ->
           entry_kind e = RegularFile ->
           found_expired (int_of_float time_time) (entry_mtime e) ->
           entry_locked e = false ->
           files' !! k = None)
     /\ (forall k e, files !! k = Some e ->
           entry_kind e = RegularFile ->
           expired (int_of_float time_time) (entry_mtime e) ->
           (round64 (entry_mtime e + inject_Z RETENTION_PERIOD)
            == entry_mtime e + inject_Z RETENTION_PERIOD)%Q ->
           entry_locked e = false ->
           files' !! k = None)
     /\ (forall k e, files !! k = Some e ->
           ~ expired (int_of_float time_time) (entry_mtime e) ->
           files' !! k = Some e)
     /\ (forall k e, files !! k = Some e ->
           (0 <= time_time)%Q ->
           (time_time - entry_mtime e <= inject_Z RETENTION_PERIOD)%Q ->
           files' !! k = Some e)
     /\ (forall k e, files !! k = Some e ->
           entry_kind e <> RegularFile
           \/ ~ found_expired (int_of_float time_time) (entry_mtime e)
           \/ entry_locked e = true ->
           files' !! k = Some e)
     /\ (forall k, files !! k = None -> files' !! k = None))
  /\ delete_expired_files time_time (SweepState Missing t)
       = (Ok tt, SweepState Missing (t ++ [EExists "audios"])).
Proof.
  intros Hok. split; [|reflexivity].
  eexists _, _. split; [by apply delete_expired_files_listing|].
  assert (Hgone : forall k e, files !! k = Some e ->
            entry_kind e = RegularFile ->
            found_expired (int_of_float time_time) (entry_mtime e) ->
            entry_locked e = false ->
            foldl (sweep_one (int_of_float time_time)) files (map_to_list files).*1 !! k
            = None).
  { intros k [kd m lock] Hk Hkind Hexp Hlock. simpl in *. subst kd lock.
    rewrite sweep_fold_lookup, Hk.
    rewrite bool_decide_eq_true_2 by (apply listing_names; by eexists).
    assert (removable (int_of_float time_time) (Some (Entry RegularFile m false)) = true)
      as -> by (apply removable_spec; by exists m).
    reflexivity. }
  assert (Hkept : forall k e, files !! k = Some e ->
            ~ expired (int_of_float time_time) (entry_mtime e) ->
            foldl (sweep_one (int_of_float time_time)) files (map_to_list files).*1 !! k
            = Some e).
  { intros k e Hk Hfresh. rewrite sweep_fold_lookup, Hk.
    destruct (removable (int_of_float time_time) (Some e)) eqn:Hr.
    + apply removable_expired in Hr as (m & [= ->] & Hexp). by destruct Hfresh.
    + by rewrite andb_false_r. }
  split; [exact Hgone|]. split; [|split; [exact Hkept|split; [|split]]].
  - intros k e Hk Hkind Hexp Hexact Hlock. apply (Hgone k e); try done.
    by apply found_expired_exact.
  - intros k e Hk Hpos Hage. apply (Hkept k e Hk). unfold expired.
    assert (Hfloor : (inject_Z (int_of_float time_time) <= time_time)%Q).
    { unfold int_of_float. rewrite (proj2 (Qle_bool_iff 0 time_time) Hpos).
      apply Qfloor_le. }
    lra.
  - intros k e Hk Hwhy. rewrite sweep_fold_lookup, Hk.
    destruct (removable (int_of_float time_time) (Some e)) eqn:Hr;
      [|by rewrite andb_false_r].
    apply removable_spec in Hr as (m & [= ->] & Hexp).
    by destruct Hwhy as [Hkind | [Hnot | Hlock]].
  - intros k Hk. rewrite sweep_fold_lookup, Hk. by rewrite andb_false_r.
Qed.

Lemma sweep_retention_witness :
  names_ok sample_dir
  /\ exists files' t',
       delete_expired_files 9000.5 (SweepState (Listing sample_dir) [])
         = (Ok tt, SweepState (Listing files') t')
       /\ files' !! "old.mp3" = None
       /\ files' !! "new.mp3" = Some (Entry RegularFile 5000 false)
       /\ files' !! "absent.mp3" = None.
Proof.
  split; [exact sample_dir_ok|].
  destruct (sweep_retention 9000.5 sample_dir [] sample_dir_ok)
    as [(files' & t' & Hrun & Hold & _ & Hnew & _ & _ & Hnone) _].
  exists files', t'. split; [exact Hrun|]. split; [|split].
  - apply (Hold "old.mp3" (Entry RegularFile 1000 false));
      [apply sample_dir_lookups | reflexivity | by vm_compute | reflexivity].
  - apply (Hnew "new.mp3" (Entry RegularFile 5000 false));
      [apply sample_dir_lookups|].
    intros H. vm_compute in H. discriminate H.
  - apply Hnone. apply sample_dir_lookups.
Defined.

(** An entry that is not one the pass removes is still there after it. *)
Lemma sweep_keeps now time_time files t files' t' k e :
  names_ok files ->
  delete_expired_files time_time (SweepState (Listing files) t)
    = (Ok tt, SweepState (Listing files') t') ->
  now = int_of_float time_time ->
  files !! k = Some e -> removable now (Some e) = false ->
  files' !! k = Some e.
Proof.
  intros Hok Hrun -> Hk Hr.
  rewrite (delete_expired_files_listing _ _ _ Hok) in Hrun.
  assert (Heq : files' = foldl (sweep_one (int_of_float time_time)) files
                           (map_to_list files).*1) by congruence.
  rewrite Heq, sweep_fold_lookup, Hk, Hr. by rewrite andb_false_r.
Qed.


(** An entry whose removal is refused is still there after the pass. *)
Lemma sweep_keeps_locked time_time files t files' t' k e :
  names_ok files ->
  delete_expired_files time_time (SweepState (Listing files) t)
    = (Ok tt, SweepState (Listing files') t') ->
  files !! k = Some e -> entry_locked e = true ->
  files' !! k = Some e.
Proof.
  intros Hok Hrun Hk Hlock.
  apply (sweep_keeps (int_of_float time_time) _ _ _ _ _ _ _ Hok Hrun eq_refl Hk).
  destruct e as [kd m lock]. simpl in Hlock. subst lock. by destruct kd.
Qed.

(** C6 as stated fails three times over. When a removal is refused, the
    expired regular file [held.mp3] is still in the directory after the
    pass. With [now] the clock reading itself, a file 7200.2 seconds old is
    kept, because the pass cuts the reading to whole seconds first. And
    with [now] cut to whole seconds, a file whose age exceeds the period by
    a quarter of a microsecond is kept, because the sum
    [mtime + RETENTION_PERIOD] is rounded up to [now] when the pass takes
    it. *)
Lemma sweep_retention_fails :
  ~ (forall (time_time : Q) (files : gmap string entry) (t : trace),
       names_ok files ->
       exists files' t',
         delete_expired_files time_time (SweepState (Listing files) t)
           = (Ok tt, SweepState (Listing files') t')
         /\ (forall k e, files !! k = Some e ->
               entry_kind e = RegularFile ->
               expired (int_of_float time_time) (entry_mtime e) ->
               files' !! k = None))
  /\ ~ (forall (time_time : Q) (files : gmap string entry) (t : trace),
         names_ok files ->
         exists files' t',
           delete_expired_files time_time (SweepState (Listing files) t)
             = (Ok tt, SweepState (Listing files') t')
           /\ (forall k e, files !! k = Some e ->
                 entry_kind e = RegularFile -> entry_locked e = false ->
                 (inject_Z RETENTION_PERIOD < time_time - entry_mtime e)%Q ->
                 files' !! k = None))
  /\ ~ (forall (time_time : Q) (files : gmap string entry) (t : trace),
         names_ok files ->
         exists files' t',
           delete_expired_files time_time (SweepState (Listing files) t)
             = (Ok tt, SweepState (Listing files') t')
           /\ (forall k e, files !! k = Some e ->
                 entry_kind e = RegularFile -> entry_locked e = false ->
                 expired (int_of_float time_time) (entry_mtime e) ->
                 files' !! k = None)).
Proof.
  split; [|split]; intros H.
  - destruct (H 9000.5%Q sample_dir [] sample_dir_ok) as (files' & t' & Hrun & Hgone).
    pose proof sample_dir_lookups as (_ & _ & Hheld & _).
    assert (Hexp : expired (int_of_float 9000.5) 10) by (by vm_compute).
    specialize (Hgone "held.mp3" (Entry RegularFile 10 true) Hheld eq_refl Hexp).
    pose proof (sweep_keeps_locked _ _ _ _ _ _ _ sample_dir_ok Hrun Hheld eq_refl) as Hstay.
    rewrite Hgone in Hstay. discriminate Hstay.
  - assert (Hok : names_ok (<["ID.mp3" := Entry RegularFile 1000.5 false]> ∅))
      by (apply names_ok_insert; [reflexivity | apply names_ok_empty]).
    destruct (H 8200.7%Q _ [] Hok) as (files' & t' & Hrun & Hgone).
    assert (Hk : (<["ID.mp3" := Entry RegularFile 1000.5 false]> ∅ : gmap string entry)
                   !! "ID.mp3" = Some (Entry RegularFile 1000.5 false))
      by apply lookup_insert_eq.
    assert (Hage : (inject_Z RETENTION_PERIOD < 8200.7 - 1000.5)%Q)
      by (vm_compute; reflexivity).
    assert (Hnow : 8200 = int_of_float 8200.7) by (vm_compute; reflexivity).
    assert (Hrem : removable 8200 (Some (Entry RegularFile 1000.5 false)) = false)
      by (vm_compute; reflexivity).
    specialize (Hgone "ID.mp3" (Entry RegularFile 1000.5 false) Hk eq_refl eq_refl Hage).
    pose proof (sweep_keeps 8200 8200.7 _ [] files' t' "ID.mp3"
                  (Entry RegularFile 1000.5 false) Hok Hrun Hnow Hk Hrem) as Hstay.
    rewrite Hgone in Hstay. discriminate Hstay.
  - destruct (H late_clock rounding_dir [] rounding_dir_ok) as (files' & t' & Hrun & Hgone).
    pose proof rounding_dir_lookups as (Hlate & _).
    assert (Hexp : expired (int_of_float late_clock) late_mtime)
      by (vm_compute; reflexivity).
    assert (Hnow : 2147490847 = int_of_float late_clock) by (vm_compute; reflexivity).
    assert (Hrem : removable 2147490847 (Some (Entry RegularFile late_mtime false)) = false)
      by (vm_compute; reflexivity).
    specialize (Hgone "late.mp3" (Entry RegularFile late_mtime false) Hlate
                  eq_refl eq_refl Hexp).
    pose proof (sweep_keeps 2147490847 late_clock rounding_dir [] files' t' "late.mp3"
                  (Entry RegularFile late_mtime false) rounding_dir_ok Hrun Hnow Hlate Hrem)
      as Hstay.
    rewrite Hgone in Hstay. discriminate Hstay.
Qed.




(** ** Fetch Pipeline *)

Lemma duration_passes_spec duration :
  duration_passes duration = true <->
  exists d, duration = Some d /\ ~ (d == 0)%Q /\ (d <= 300)%Q.
Proof.
  unfold duration_passes. destruct duration as [d|].
  - rewrite andb_true_iff, negb_true_iff, Qle_bool_iff. split.
    + intros [Hz Hle]. exists d. repeat split; [|done].
      intros Heq. apply Qeq_bool_iff in Heq. congruence.
    + intros (d' & [= <-] & Hz & Hle). split; [|done].
      destruct (Qeq_bool d 0) eqn:E; [|done].
      apply Qeq_bool_iff in E. by destruct Hz.
  - split; [done | by intros (? & [=] & _)].
Qed.

(** The run of [generate] when the gate is closed. *)
Lemma generate_gated Y P R host_url video_url info t :
  extract_info Y video_url false = Ok info ->
  duration_passes (info_duration info) = false ->
  generate Y P R host_url video_url t
  = (Ok [duration_error], t ++ [EExtractInfo video_url false]).
Proof.
  intros Hprobe Hgate.
  unfold generate, try_except, generate_try, bind, call, ret.
  by rewrite Hprobe, Hgate.
Qed.

(** The run of [compress_audio]. *)
Lemma compress_audio_run P file_path t :
  exists t',
    (compress_audio P file_path t = (Ok tt, t ++ EFromFile file_path :: t')
     /\ exists audio, from_file P file_path = Ok audio
                      /\ export P audio file_path = Ok tt)
    \/ (exists e, compress_audio P file_path t = (Raise e, t ++ EFromFile file_path :: t')
        /\ (from_file P file_path = Raise e
            \/ exists audio, from_file P file_path = Ok audio
                             /\ export P audio file_path = Raise e)).
Proof.
  unfold compress_audio, try_except, bind, call, logger, throw.
  destruct (from_file P file_path) as [audio|e] eqn:Hf.
  - destruct (export P audio file_path) as [[]|e] eqn:He.
    + eexists. left. rewrite <- !app_assoc. split; [reflexivity|]. by exists audio.
    + eexists. right. exists e. rewrite <- !app_assoc. split; [reflexivity|].
      right. by exists audio.
  - eexists. right. exists e. rewrite <- !app_assoc. split; [reflexivity|]. by left.
Qed.

(** The run of [generate] when the gate is open: the download is the next
    call, and the outcome is the descriptor or the error of the first step
    that raises. *)
Lemma generate_open Y P R host_url video_url info t :
  extract_info Y video_url false = Ok info ->
  duration_passes (info_duration info) = true ->
  exists doc calls,
    generate Y P R host_url video_url t
    = (Ok [doc],
       t ++ [EExtractInfo video_url false; EExtractInfo video_url true] ++ calls)
    /\ (is_descriptor doc
        \/ exists e, step_raises Y P video_url e /\ doc = error_payload e).
Proof.
  intros Hprobe Hgate.
  unfold generate, try_except, generate_try, bind, call, ret, logger.
  rewrite Hprobe. cbv beta iota. rewrite Hgate.
  destruct (extract_info Y video_url true) as [info'|e] eqn:Hdl; cbv beta iota.
  2:{ eexists _, _. rewrite <- !app_assoc.
      split; [reflexivity|]. right. exists e. split; [|reflexivity].
      right. exists info. repeat split; try done. by left. }
  destruct (prepare_filename Y info') as [path|e] eqn:Hfn; cbv beta iota.
  2:{ eexists _, _. rewrite <- !app_assoc.
      split; [reflexivity|]. right. exists e. split; [|reflexivity].
      right. exists info. repeat split; try done. right. exists info'.
      split; [done|]. by left. }
  destruct (os_path_splitext path) as [file_name file_extension] eqn:Hsplit.
  assert (Hmp3 : "audios/" +:+ os_path_basename file_name +:+ ".mp3" = mp3_path_of path)
    by (unfold mp3_path_of; by rewrite Hsplit).
  rewrite Hmp3.
  destruct (compress_audio_run P (mp3_path_of path)
              (((t ++ [EExtractInfo video_url false]) ++ [EExtractInfo video_url true])
                 ++ [EPrepareFilename]))
    as (t' & [[Hrun _] | (e & Hrun & Hwhy)]); rewrite Hrun; cbv beta iota.
  - eexists _, _. rewrite <- !app_assoc. split; [reflexivity|].
    left. by eexists _, _, _.
  - eexists _, _. rewrite <- !app_assoc. split; [reflexivity|].
    right. exists e. split; [|reflexivity].
    right. exists info. repeat split; try done. right. exists info'.
    split; [done|]. right. exists path. by split.
Qed.

Lemma generate_probe_raises Y P R host_url video_url e t :
  extract_info Y video_url false = Raise e ->
  exists t', generate Y P R host_url video_url t = (Ok [error_payload e], t').
Proof.
  intros Hprobe.
  unfold generate, try_except, generate_try, bind, call, logger, ret.
  rewrite Hprobe. by eexists.
Qed.

Lemma generate_step_raises Y P R host_url video_url e t :
  step_raises Y P video_url e ->
  exists t', generate Y P R host_url video_url t = (Ok [error_payload e], t').
Proof.
  intros [Hprobe | (info & Hprobe & Hgate & Hrest)].
  { by apply generate_probe_raises. }
  unfold generate, try_except, generate_try, bind, call, ret, logger.
  rewrite Hprobe. cbv beta iota. rewrite Hgate.
  destruct Hrest as [Hdl | (info' & Hdl & Hrest)]; rewrite Hdl; cbv beta iota.
  { by eexists. }
  destruct Hrest as [Hfn | (path & Hfn & Hrest)]; rewrite Hfn; cbv beta iota.
  { by eexists. }
  destruct (os_path_splitext path) as [file_name file_extension] eqn:Hsplit.
  assert (Hmp3 : "audios/" +:+ os_path_basename file_name +:+ ".mp3" = mp3_path_of path)
    by (unfold mp3_path_of; by rewrite Hsplit).
  rewrite Hmp3. unfold compress_audio, try_except, bind, call, logger, throw.
  destruct Hrest as [Hff | (audio & Hff & Hex)]; rewrite Hff; cbv beta iota.
  { by eexists. }
  rewrite Hex. by eexists.
Qed.

(** C2, as amended: for every reference whose probe succeeds, if the
    probed duration is unknown or strictly greater than 300 seconds,
    [generate] yields the structured error payload and the probe is the
    only call it has made (no download, no encoding, no file written); if
    the duration is known, not zero and at most 300 seconds (exactly 300
    included), the next call is the full download. In particular 301
    yields the error payload and 300 proceeds to the download. *)
Theorem duration_gate
    (Y : ytdl) (P : pydub) (R : request_ctx) (host_url video_url : string)
    (info : info_dict) (t : trace) :
  extract_info Y video_url false = Ok info ->
  ((info_duration info = None
    \/ exists d, info_duration info = Some d /\ (300 < d)%Q) ->
   generate Y P R host_url video_url t
   = (Ok [duration_error], t ++ [EExtractInfo video_url false])
   /\ is_error_payload duration_error)
  /\
  (forall d, info_duration info = Some d -> ~ (d == 0)%Q -> (d <= 300)%Q ->
     exists doc calls,
       generate Y P R host_url video_url t
       = (Ok [doc],
          t ++ [EExtractInfo video_url false; EExtractInfo video_url true]
            ++ calls))
  /\
  (info_duration info = Some 301%Q ->
   generate Y P R host_url video_url t
   = (Ok [duration_error], t ++ [EExtractInfo video_url false]))
  /\
  (info_duration info = Some 300%Q ->
   exists doc calls,
     generate Y P R host_url video_url t
     = (Ok [doc],
        t ++ [EExtractInfo video_url false; EExtractInfo video_url true]
          ++ calls)).
Proof.
  intros Hprobe.
  assert (Hclosed : (info_duration info = None
                     \/ exists d, info_duration info = Some d /\ (300 < d)%Q) ->
                    generate Y P R host_url video_url t
                    = (Ok [duration_error], t ++ [EExtractInfo video_url false])).
  { intros Hd. apply (generate_gated _ _ _ _ _ info); [done|].
    destruct (duration_passes (info_duration info)) eqn:Hg; [|done].
    apply duration_passes_spec in Hg as (d & Hd' & _ & Hle).
    destruct Hd as [Hn | (d' & Hd & Hlt)]; [congruence|].
    rewrite Hd in Hd'. injection Hd' as ->. exfalso. by apply (Qlt_not_le 300 d). }
  assert (Hopen : forall d, info_duration info = Some d -> ~ (d == 0)%Q -> (d <= 300)%Q ->
                    exists doc calls,
                      generate Y P R host_url video_url t
                      = (Ok [doc],
                         t ++ [EExtractInfo video_url false; EExtractInfo video_url true]
                           ++ calls)).
  { intros d Hd Hz Hle.
    destruct (generate_open Y P R host_url video_url info t Hprobe)
      as (doc & calls & Hrun & _).
    - apply duration_passes_spec. by exists d.
    - by exists doc, calls. }
  split; [|split; [|split]].
  - intros Hd. split; [by apply Hclosed|]. by eexists.
  - exact Hopen.
  - intros Hd. apply Hclosed. right. exists 301%Q. split; [done|]. reflexivity.
  - intros Hd. apply (Hopen 300%Q Hd); [|apply Qle_refl].
    intros H. vm_compute in H. discriminate H.
Qed.

Lemma duration_gate_witness :
  generate (sample_ytdl (Some 301%Q)) sample_pydub sample_ctx
    "http://host/download/" "v" []
  = (Ok [duration_error], [] ++ [EExtractInfo "v" false])
  /\ exists doc calls,
       generate (sample_ytdl (Some 300%Q)) sample_pydub sample_ctx
         "http://host/download/" "v" []
       = (Ok [doc], [] ++ [EExtractInfo "v" false; EExtractInfo "v" true] ++ calls).
Proof.
  split.
  - apply (duration_gate (sample_ytdl (Some 301%Q)) sample_pydub sample_ctx
             "http://host/download/" "v"
             (InfoDict (Some 301%Q) (Some "https://i.example/t.jpg")) []
             eq_refl).
    reflexivity.
  - apply (duration_gate (sample_ytdl (Some 300%Q)) sample_pydub sample_ctx
             "http://host/download/" "v"
             (InfoDict (Some 300%Q) (Some "https://i.example/t.jpg")) []
             eq_refl).
    reflexivity.
Defined.

(** C2 as stated fails for a probed duration of zero: it is known and at
    most 300 seconds, and [generate] yields the error payload without
    downloading. *)
Lemma duration_gate_zero :
  ~ (forall (Y : ytdl) (P : pydub) (R : request_ctx) (host_url video_url : string)
       (info : info_dict) (t : trace) (d : Q),
       extract_info Y video_url false = Ok info ->
       info_duration info = Some d -> (d <= 300)%Q ->
       exists doc calls,
         generate Y P R host_url video_url t
         = (Ok [doc],
            t ++ [EExtractInfo video_url false; EExtractInfo video_url true]
              ++ calls)).
Proof.
  intros H.
  destruct (H (sample_ytdl (Some 0%Q)) sample_pydub sample_ctx
              "http://host/download/" "v"
              (InfoDict (Some 0%Q) (Some "https://i.example/t.jpg")) [] 0%Q
              eq_refl eq_refl)
    as (doc & calls & Hrun).
  - intros Hlt. vm_compute in Hlt. discriminate Hlt.
  - rewrite (generate_gated _ _ _ _ _
               (InfoDict (Some 0%Q) (Some "https://i.example/t.jpg")))
      in Hrun by reflexivity.
    simpl in Hrun. discriminate Hrun.
Qed.

(** C8: for every reference, [generate] does not raise, whatever the
    probe, the download, the file-name query and the post-processing do:
    it yields exactly one document, which is an error payload (a JSON
    object with an [error] field) or the descriptor of the artifact. When
    one of those steps raises [e], the document is the error payload
    carrying the message of [e]. The [/download] handler called with a
    reference runs the pipeline on it and answers with status 200 and, as
    body, what the pipeline yields: that one document, which is the error
    payload of [e] when a step raises [e]. *)
Theorem generate_never_raises
    (Y : ytdl) (P : pydub) (R : request_ctx) (host_url video_url : string)
    (t : trace) :
  (exists doc t',
     generate Y P R host_url video_url t = (Ok [doc], t')
     /\ (is_error_payload doc \/ is_descriptor doc))
  /\
  (forall e, step_raises Y P video_url e ->
     exists t',
       generate Y P R host_url video_url t = (Ok [error_payload e], t')
       /\ is_error_payload (error_payload e))
  /\
  (truthy video_url = true ->
   (forall docs t',
      generate Y P R (base_url R +:+ "/") video_url t = (Ok docs, t') ->
      download_audio Y P R (Some video_url) t
      = (Ok (Response 200 [("Content-Type", "application/json")] (Chunks docs)),
         t'))
   /\ exists doc t',
        generate Y P R (base_url R +:+ "/") video_url t = (Ok [doc], t')
        /\ download_audio Y P R (Some video_url) t
           = (Ok (Response 200 [("Content-Type", "application/json")]
                    (Chunks [doc])),
              t')
        /\ (is_error_payload doc \/ is_descriptor doc)
        /\ (forall e, step_raises Y P video_url e -> doc = error_payload e)).
Proof.
  assert (Hgen : exists doc t',
             generate Y P R host_url video_url t = (Ok [doc], t')
             /\ (is_error_payload doc \/ is_descriptor doc)).
  { destruct (extract_info Y video_url false) as [info|e] eqn:Hprobe.
    - destruct (duration_passes (info_duration info)) eqn:Hgate.
      + destruct (generate_open Y P R host_url video_url info t Hprobe Hgate)
          as (doc & calls & Hrun & [Hd | (e & _ & ->)]).
        * exists doc. eexists. split; [exact Hrun | by right].
        * eexists _, _. split; [exact Hrun|]. left. by eexists.
      + eexists _, _. split; [by apply (generate_gated _ _ _ _ _ info)|].
        left. by eexists.
    - destruct (generate_probe_raises Y P R host_url video_url e t Hprobe) as [t' Hrun].
      eexists _, _. split; [exact Hrun|]. left. by eexists. }
  split; [exact Hgen|]. split.
  - intros e He.
    destruct (generate_step_raises Y P R host_url video_url e t He) as [t' Hrun].
    exists t'. split; [exact Hrun | by eexists].
  - intros Hurl.
    assert (Hdl : forall docs t',
               generate Y P R (base_url R +:+ "/") video_url t = (Ok docs, t') ->
               download_audio Y P R (Some video_url) t
               = (Ok (Response 200 [("Content-Type", "application/json")]
                        (Chunks docs)), t')).
    { intros docs t' Hrun. unfold download_audio. rewrite Hurl.
      unfold bind, ret. by rewrite Hrun. }
    split; [exact Hdl|].
    assert (Hhost : forall h h', generate Y P R h video_url t = generate Y P R h' video_url t)
      by reflexivity.
    destruct Hgen as (doc & t' & Hrun & Hdoc).
    rewrite (Hhost _ (base_url R +:+ "/")) in Hrun.
    exists doc, t'. split; [exact Hrun|]. split; [by apply Hdl|].
    split; [exact Hdoc|].
    intros e He.
    destruct (generate_step_raises Y P R (base_url R +:+ "/") video_url e t He)
      as [t2 Hrun2].
    rewrite Hrun in Hrun2. by injection Hrun2 as ->.
Qed.

Lemma generate_never_raises_witness :
  step_raises (sample_ytdl (Some 10%Q)) failing_pydub "v"
    (Exn CouldntDecodeError "Decoding failed")
  /\ truthy "v" = true
  /\ (exists t',
        generate (sample_ytdl (Some 10%Q)) failing_pydub sample_ctx
          "http://host/download/" "v" []
        = (Ok [JObj [("error", JStr "Error processing video: Decoding failed")]], t'))
  /\ (exists t',
        download_audio (sample_ytdl (Some 10%Q)) failing_pydub sample_ctx (Some "v") []
        = (Ok (Response 200 [("Content-Type", "application/json")]
                 (Chunks [error_payload (Exn CouldntDecodeError "Decoding failed")])),
           t')).
Proof.
  assert (Hstep : step_raises (sample_ytdl (Some 10%Q)) failing_pydub "v"
                    (Exn CouldntDecodeError "Decoding failed")).
  { right. eexists. split; [reflexivity|]. split; [reflexivity|].
    right. eexists. split; [reflexivity|].
    right. eexists. split; [reflexivity|]. left. reflexivity. }
  pose proof (generate_never_raises (sample_ytdl (Some 10%Q)) failing_pydub
                sample_ctx "http://host/download/" "v" []) as (_ & Hraise & Hdl).
  split; [exact Hstep|]. split; [reflexivity|]. split.
  - destruct (Hraise _ Hstep) as (t' & Hrun & _). by exists t'.
  - destruct (Hdl eq_refl) as (_ & doc & t' & _ & Hrun & _ & Herr).
    exists t'. by rewrite <- (Herr _ Hstep).
Defined.

(** ** Search *)

Lemma str_in_colon_cons c r :
  str_in ":" (String c r) = Ascii.eqb c ":" || str_in ":" r.
Proof.
  cbn [str_in String.prefix].
  destruct (Ascii.ascii_dec ":" c) as [<-|Hne].
  - by destruct r.
  - destruct (Ascii.eqb_spec c ":") as [->|_]; [by destruct Hne | done].
Qed.

Lemma split_on_nonempty s : split_on ":" s <> [].
Proof.
  induction s as [|c r IH]; [done|]. cbn [split_on].
  destruct (Ascii.eqb c ":"); [done|]. by destruct (split_on ":" r).
Qed.

Lemma split_on_one s p :
  split_on ":" s = [p] <-> s = p /\ str_in ":" p = false.
Proof.
  revert p. induction s as [|c r IH]; intros p.
  - cbn. split; [by intros [= <-] | by intros [<- _]].
  - cbn [split_on]. destruct (Ascii.eqb c ":") eqn:Hc.
    + split.
      * intros [= <- Hr]. by apply split_on_nonempty in Hr.
      * intros [<- Hin]. rewrite str_in_colon_cons, Hc in Hin. done.
    + destruct (split_on ":" r) as [|q qs] eqn:Hs; [by apply split_on_nonempty in Hs|].
      split.
      * intros [= <- ->]. destruct (proj1 (IH q) eq_refl) as [-> Hq].
        by rewrite str_in_colon_cons, Hc.
      * intros [<- Hin]. rewrite str_in_colon_cons, Hc in Hin.
        pose proof (proj2 (IH r) (conj eq_refl Hin)) as Hr.
        by injection Hr as -> ->.
Qed.

Lemma split_on_two s p0 p1 :
  split_on ":" s = [p0; p1] <->
  s = p0 +:+ ":" +:+ p1 /\ str_in ":" p0 = false /\ str_in ":" p1 = false.
Proof.
  revert p0. induction s as [|c r IH]; intros p0.
  - cbn. split; [done | intros [H _]; by destruct p0].
  - cbn [split_on]. destruct (Ascii.eqb_spec c ":") as [->|Hc].
    + split.
      * intros [= <- Hr]. apply split_on_one in Hr as [-> Hp1]. done.
      * intros (Hs & H0 & H1). destruct p0 as [|c0 p0'].
        -- cbn in Hs. injection Hs as ->. f_equal. by apply split_on_one.
        -- cbn in Hs. injection Hs as <- _.
           rewrite str_in_colon_cons in H0. done.
    + destruct (split_on ":" r) as [|q qs] eqn:Hs; [by apply split_on_nonempty in Hs|].
      assert (Hcb : Ascii.eqb c ":" = false) by (by apply Ascii.eqb_neq).
      split.
      * intros [= <- ->]. destruct (proj1 (IH q) eq_refl) as (-> & Hq & Hp1).
        repeat split; [|done]. by rewrite str_in_colon_cons, Hcb.
      * intros (Heq & H0 & H1). destruct p0 as [|c0 p0'].
        -- cbn in Heq. injection Heq as -> _. done.
        -- cbn in Heq. injection Heq as <- ->.
           rewrite str_in_colon_cons, Hcb in H0.
           pose proof (proj2 (IH p0') (conj eq_refl (conj H0 H1))) as Hr.
           by injection Hr as -> ->.
Qed.

(** The filter is the declarative predicate. *)
Lemma kept_spec v : kept v = true <-> under_five_minutes v.
Proof.
  unfold kept, under_five_minutes. split.
  - destruct (v_duration v) as [[d|]|]; try done.
    destruct (split_on ":" d) as [|p0 [|p1 [|]]] eqn:Hs; try done.
    apply split_on_two in Hs as (-> & H0 & H1).
    destruct (py_int p0) as [m|] eqn:Hm; [|done].
    destruct (py_int p1) as [s|] eqn:Hsec; [|done].
    intros Hlt%Z.ltb_lt. by exists p0, p1, m, s.
  - intros (p0 & p1 & m & s & -> & H0 & H1 & Hm & Hs & Hlt).
    rewrite (proj2 (split_on_two _ p0 p1)) by done.
    rewrite Hm, Hs. by apply Z.ltb_lt.
Qed.

(** One turn of the loop of [search], for a result whose duration is a
    string or is missing. *)
Lemma search_step_kept acc v :
  v_duration v <> Some None ->
  search_step acc v = Ok (if kept v then acc ++ [search_entry v] else acc).
Proof.
  intros Hd. unfold search_step, colon_in_duration, kept.
  destruct (v_duration v) as [[d|]|]; [|done|reflexivity].
  cbn [rbind].
  destruct (split_on ":" d) as [|p0 [|p1 [|]]] eqn:Hs;
    try (by destruct (str_in ":" d)).
  assert (str_in ":" d = true) as ->.
  { apply split_on_two in Hs as (-> & _ & _).
    clear. induction p0 as [|c r IH].
    { change ("" +:+ ":" +:+ p1) with (String ":" p1).
      by rewrite str_in_colon_cons. }
    change (String c r +:+ ":" +:+ p1) with (String c (r +:+ ":" +:+ p1)).
    rewrite str_in_colon_cons, IH. apply orb_true_r. }
  destruct (py_int p0) as [m|e0] eqn:Hm; cbn [rbind].
  - destruct (py_int p1) as [s|e1] eqn:Hsec; cbn [rbind]; [done|].
    by rewrite (py_int_raises _ _ Hsec).
  - by rewrite (py_int_raises _ _ Hm).
Qed.

Lemma search_loop_filter results : forall acc,
  (forall v, In v results -> v_duration v <> Some None) ->
  search_loop acc results
  = Ok (acc ++ List.map search_entry (List.filter kept results)).
Proof.
  induction results as [|v r IH]; intros acc Hd.
  - cbn. by rewrite app_nil_r.
  - cbn [search_loop List.filter].
    rewrite search_step_kept by (apply Hd; by left). cbn [rbind].
    rewrite IH by (intros v' Hv'; apply Hd; by right).
    destruct (kept v); [|done]. cbn [List.map]. by rewrite <- app_assoc.
Qed.

(** C9, as amended: for every catalog result list in which no duration
    is [None], the [/search] handler answers 200 with a document whose
    [search] array holds, in catalog order, exactly the entries whose
    duration reads as minutes and seconds totalling strictly less than 300
    seconds, each mapped to its title, its link (as [url]) and its first
    thumbnail; so title and url are non-empty whenever the catalog's are,
    and the array has as many entries as the catalog has such results. *)
Theorem search_filters
    (catalog : string -> result (list video)) (q : string)
    (results : list video) (t : trace) :
  q <> EmptyString -> catalog q = Ok results ->
  (forall v, In v results -> v_duration v <> Some None) ->
  exists r entries,
    search catalog (Some q) t = (Ok r, t ++ [ESearch q])
    /\ status_code r = 200
    /\ body r = JsonDoc (JObj [("search", JArr entries)])
    /\ entries = List.map search_entry (List.filter kept results)
    /\ (forall doc, In doc entries <->
          exists v, In v results /\ under_five_minutes v
                    /\ doc = JObj [("title", JStr (v_title v));
                                   ("url", JStr (v_link v));
                                   ("thumbnail",
                                    JStr (match v_thumbnails v with
                                          | th :: _ => th
                                          | [] => EmptyString
                                          end))])
    /\ (forall doc, In doc entries ->
          exists v, In v results
                    /\ (v_title v <> EmptyString -> v_link v <> EmptyString ->
                        exists title url thumbnail,
                          doc = JObj [("title", JStr title); ("url", JStr url);
                                      ("thumbnail", JStr thumbnail)]
                          /\ title <> EmptyString /\ url <> EmptyString))
    /\ length entries = length (List.filter kept results).
Proof.
  intros Hq Hcat Hd.
  exists (search_response (List.map search_entry (List.filter kept results))),
         (List.map search_entry (List.filter kept results)).
  assert (Hmem : forall doc,
             In doc (List.map search_entry (List.filter kept results)) <->
             exists v, In v results /\ under_five_minutes v /\ doc = search_entry v).
  { intros doc. rewrite in_map_iff. split.
    - intros (v & <- & [Hin Hk]%filter_In). exists v. by rewrite <- kept_spec.
    - intros (v & Hin & Hk & ->). exists v. split; [done|].
      apply filter_In. by rewrite kept_spec. }
  split; [|split; [reflexivity|split; [reflexivity|split;
                [reflexivity|split; [exact Hmem|split]]]]].
  - destruct q as [|c q']; [done|].
    unfold search, try_except, bind, call, lift, ret.
    rewrite Hcat. cbv beta iota. by rewrite (search_loop_filter results [] Hd).
  - intros doc (v & Hin & _ & ->)%Hmem. exists v. split; [done|].
    intros Ht Hl. by eexists _, _, _.
  - apply length_map.
Qed.

Lemma search_filters_witness :
  "lofi" <> EmptyString
  /\ (forall v, In v sample_results -> v_duration v <> Some None)
  /\ exists r entries,
       search (fun _ => Ok sample_results) (Some "lofi") []
       = (Ok r, [] ++ [ESearch "lofi"])
       /\ body r = JsonDoc (JObj [("search", JArr entries)])
       /\ length sample_results = 10%nat
       /\ length entries = 7%nat.
Proof.
  assert (Hq : "lofi" <> EmptyString) by discriminate.
  assert (Hd : forall v, In v sample_results -> v_duration v <> Some None).
  { intros v Hin. unfold sample_results in Hin. apply in_map_iff in Hin as (d & <- & _).
    discriminate. }
  split; [exact Hq|]. split; [exact Hd|].
  destruct (search_filters (fun _ => Ok sample_results) "lofi" sample_results []
              Hq eq_refl Hd)
    as (r & entries & Hrun & _ & Hbody & _ & _ & _ & Hlen).
  exists r, entries. split; [exact Hrun|]. split; [exact Hbody|].
  split; [reflexivity|].
  rewrite Hlen. vm_compute. reflexivity.
Defined.

(** C9 as stated fails for a result of exactly five minutes: it does not
    exceed the maximum and the handler leaves it out. *)
Lemma search_drops_five_minutes :
  ~ (forall (catalog : string -> result (list video)) (q : string)
       (results : list video) (t : trace),
       q <> EmptyString -> catalog q = Ok results ->
       exists r entries t',
         search catalog (Some q) t = (Ok r, t')
         /\ body r = JsonDoc (JObj [("search", JArr entries)])
         /\ forall v p0 p1 minutes seconds,
              In v results ->
              v_duration v = Some (Some (p0 +:+ ":" +:+ p1)) ->
              py_int p0 = Ok minutes -> py_int p1 = Ok seconds ->
              minutes * 60 + seconds <= 300 ->
              In (search_entry v) entries).
Proof.
  intros H.
  destruct (H (fun _ => Ok [sample_video "5:00"]) "lofi" [sample_video "5:00"] [])
    as (r & entries & t' & Hrun & Hbody & Hall); [discriminate | reflexivity |].
  specialize (Hall (sample_video "5:00") "5" "00" 5 0).
  vm_compute in Hrun. injection Hrun as <- _.
  cbn in Hbody. injection Hbody as <-.
  apply Hall; [by left | reflexivity | reflexivity | reflexivity | lia].
Qed.

(** A result whose duration is [None] makes the whole search fail. *)
Lemma search_null_duration :
  search (fun _ => Ok [sample_video "4:59"; Video (Some None) "live" "https://v.example/live" []])
    (Some "lofi") []
  = (Ok (set_status 500 (jsonify (JObj [("error", JStr "Search failed")]))),
     [ESearch "lofi";
      ELog ERROR "Error searching videos: argument of type 'NoneType' is not iterable"]).
Proof. reflexivity. Qed.

(** * Further properties of the code *)

(** ** Range resolver: the other shapes of header *)

Lemma span_digits_app ds rest :
  all_digits ds = true -> no_leading_digit rest ->
  span_digits (ds +:+ rest) = (ds, rest).
Proof.
  intros Hd Hrest. induction ds as [|c r IH].
  - destruct rest as [|c r]; [done|].
    cbn [no_leading_digit] in Hrest.
    change ("" +:+ String c r) with (String c r).
    change (span_digits (String c r))
      with (if is_digit c then let '(ds, rest) := span_digits r in (String c ds, rest)
            else (EmptyString, String c r)).
    by rewrite Hrest.
  - cbn [all_digits] in Hd. apply andb_prop in Hd as [Hc Hr].
    change (String c r +:+ rest) with (String c (r +:+ rest)).
    change (span_digits (String c (r +:+ rest)))
      with (if is_digit c
            then let '(ds, rest0) := span_digits (r +:+ rest) in (String c ds, rest0)
            else (EmptyString, String c (r +:+ rest))).
    by rewrite Hc, (IH Hr).
Qed.

Lemma re_search_bytes_range_then da db rest :
  all_digits da = true -> da <> EmptyString -> all_digits db = true ->
  no_leading_digit rest ->
  re_search ("bytes=" +:+ da +:+ "-" +:+ db +:+ rest) = Some (da, db).
Proof.
  intros Ha Hne Hb Hrest.
  change ("bytes=" +:+ da +:+ "-" +:+ db +:+ rest)
    with (String "b" (String "y" (String "t" (String "e" (String "s"
            (String "=" (da +:+ String "-" (db +:+ rest)))))))).
  rewrite !re_search_skip by reflexivity.
  apply re_search_here. unfold re_match.
  rewrite (digits_dash_app _ _ Ha Hne). by rewrite (span_digits_app _ _ Hb Hrest).
Qed.

(** What the resolver computes for [bytes=a-b] followed by anything that
    does not continue the second number. *)
Lemma parse_bytes_range_then a b rest file_size :
  0 <= a < int_limit -> 0 <= b < int_limit -> no_leading_digit rest ->
  parse_range_header ("bytes=" +:+ py_str a +:+ "-" +:+ py_str b +:+ rest) file_size
  = Ok (Z.max 0 (Z.min a (file_size - 1)),
        Z.max (Z.max 0 (Z.min a (file_size - 1))) (Z.min b (file_size - 1))).
Proof.
  intros Ha Hb Hrest.
  destruct (py_str_digits a (proj1 Ha)) as [Hda Hna].
  destruct (py_str_digits b (proj1 Hb)) as [Hdb Hnb].
  rewrite parse_range_header_eq, (re_search_bytes_range_then _ _ _ Hda Hna Hdb Hrest).
  rewrite (py_int_py_str a Ha). cbn [rbind].
  assert (truthy (py_str b) = true) as -> by (by destruct (py_str b)).
  by rewrite (py_int_py_str b Hb).
Qed.

Lemma append_empty_r s : s +:+ EmptyString = s.
Proof.
  induction s as [|c r IH]; [done|].
  change (String c r +:+ "") with (String c (r +:+ "")). by rewrite IH.
Qed.

Lemma parse_bytes_open a file_size :
  1 <= file_size -> 0 <= a < int_limit ->
  parse_range_header ("bytes=" +:+ py_str a +:+ "-") file_size
  = Ok (Z.min a (file_size - 1), file_size - 1).
Proof.
  intros Hsize Ha.
  destruct (py_str_digits a (proj1 Ha)) as [Hda Hna].
  rewrite parse_range_header_eq.
  pose proof (re_search_bytes_range_then (py_str a) EmptyString EmptyString
                Hda Hna eq_refl I) as Hs.
  change (py_str a +:+ "-" +:+ "" +:+ "") with (py_str a +:+ "-") in Hs.
  rewrite Hs, (py_int_py_str a Ha). cbn [rbind truthy]. cbv zeta.
  f_equal. f_equal; lia.
Qed.

(** X1: an open-ended range [bytes=a-], [a] a number [int] converts, runs
    to the last byte of the file; a start at or beyond the end of the file
    is brought back to the last byte, so that exactly one byte is
    designated. *)
Theorem open_ended_range (a file_size : Z) :
  1 <= file_size -> 0 <= a < int_limit ->
  parse_range_header ("bytes=" +:+ py_str a +:+ "-") file_size
  = Ok (Z.min a (file_size - 1), file_size - 1)
  /\ (file_size <= a ->
      parse_range_header ("bytes=" +:+ py_str a +:+ "-") file_size
      = Ok (file_size - 1, file_size - 1)).
Proof.
  intros Hsize Ha. split; [by apply parse_bytes_open|].
  intros Hbig. rewrite (parse_bytes_open a file_size Hsize Ha).
  f_equal. f_equal. lia.
Qed.

Lemma open_ended_range_witness :
  parse_range_header "bytes=500-" 1000 = Ok (500, 999)
  /\ parse_range_header "bytes=5000-" 1000 = Ok (999, 999).
Proof.
  assert (H500 : 0 <= 500 < int_limit) by (split; [lia | reflexivity]).
  assert (H5000 : 0 <= 5000 < int_limit) by (split; [lia | reflexivity]).
  split.
  - exact (proj1 (open_ended_range 500 1000 ltac:(lia) H500)).
  - exact (proj2 (open_ended_range 5000 1000 ltac:(lia) H5000) ltac:(lia)).
Defined.

(** X2: for [bytes=a-b] on a file of at least one byte, [a] and [b]
    numbers [int] converts, a range that lies outside the file or runs
    backwards is not refused but bent: a start at
    or beyond the end designates the last byte alone, an end before the
    start designates the byte at the start alone, and an end beyond the
    file stops at the last byte. *)
Theorem out_of_range_is_bent (a b file_size : Z) :
  1 <= file_size -> 0 <= a < int_limit -> 0 <= b < int_limit ->
  (file_size <= a ->
   parse_range_header ("bytes=" +:+ py_str a +:+ "-" +:+ py_str b) file_size
   = Ok (file_size - 1, file_size - 1))
  /\ (b < a -> a < file_size ->
      parse_range_header ("bytes=" +:+ py_str a +:+ "-" +:+ py_str b) file_size
      = Ok (a, a))
  /\ (a <= b -> a < file_size -> file_size <= b ->
      parse_range_header ("bytes=" +:+ py_str a +:+ "-" +:+ py_str b) file_size
      = Ok (a, file_size - 1)).
Proof.
  intros Hsize Ha Hb.
  pose proof (parse_bytes_range_then a b EmptyString file_size Ha Hb I) as Hrun.
  rewrite append_empty_r in Hrun. rewrite Hrun.
  destruct Ha, Hb. repeat split; intros; f_equal; f_equal; lia.
Qed.

Lemma out_of_range_is_bent_witness :
  parse_range_header "bytes=5000-6000" 1000 = Ok (999, 999)
  /\ parse_range_header "bytes=900-100" 1000 = Ok (900, 900)
  /\ parse_range_header "bytes=900-5000" 1000 = Ok (900, 999).
Proof.
  assert (Hlim : forall n, 0 <= n <= 6000 -> 0 <= n < int_limit).
  { intros n Hn. split; [lia|]. apply (Z.le_lt_trans _ 6000); [lia | reflexivity]. }
  split; [|split].
  - exact (proj1 (out_of_range_is_bent 5000 6000 1000 ltac:(lia)
                    (Hlim 5000 ltac:(lia)) (Hlim 6000 ltac:(lia)))
             ltac:(lia)).
  - exact (proj1 (proj2 (out_of_range_is_bent 900 100 1000 ltac:(lia)
                           (Hlim 900 ltac:(lia)) (Hlim 100 ltac:(lia))))
             ltac:(lia) ltac:(lia)).
  - exact (proj2 (proj2 (out_of_range_is_bent 900 5000 1000 ltac:(lia)
                           (Hlim 900 ltac:(lia)) (Hlim 5000 ltac:(lia))))
             ltac:(lia) ltac:(lia) ltac:(lia)).
Defined.

(** X3: only the first range of a header counts: whatever follows
    [bytes=a-b] without continuing its second number (a comma and further
    ranges, say) changes nothing to the interval. *)
Theorem first_range_only (a b file_size : Z) (rest : string) :
  0 <= a -> 0 <= b -> no_leading_digit rest ->
  parse_range_header ("bytes=" +:+ py_str a +:+ "-" +:+ py_str b +:+ rest) file_size
  = parse_range_header ("bytes=" +:+ py_str a +:+ "-" +:+ py_str b) file_size.
Proof.
  intros Ha Hb Hrest.
  destruct (py_str_digits a Ha) as [Hda Hna].
  destruct (py_str_digits b Hb) as [Hdb Hnb].
  rewrite !parse_range_header_eq.
  rewrite (re_search_bytes_range_then _ _ _ Hda Hna Hdb Hrest).
  pose proof (re_search_bytes_range_then _ _ EmptyString Hda Hna Hdb I) as Hs.
  rewrite append_empty_r in Hs. by rewrite Hs.
Qed.

Lemma first_range_only_witness :
  parse_range_header "bytes=0-99,200-299" 1000
  = parse_range_header "bytes=0-99" 1000.
Proof.
  exact (first_range_only 0 99 1000 ",200-299" ltac:(lia) ltac:(lia) eq_refl).
Defined.

(** ** Content Delivery: the other paths of [serve_audio] *)

Lemma digits_dash_lacks s : lacks "-" s = true -> digits_dash s = None.
Proof.
  induction s as [|c r IH]; [done|]. cbn [lacks digits_dash].
  intros [Hc Hr]%andb_prop. rewrite (IH Hr).
  destruct (is_digit c); [|done].
  destruct r as [|c' r']; [done|]. cbn [lacks] in Hr.
  apply andb_prop in Hr as [Hc' _]. apply negb_true_iff, Ascii.eqb_neq in Hc'.
  destruct c' as [[|] [|] [|] [|] [|] [|] [|] [|]]; try reflexivity.
  by destruct Hc'.
Qed.

Lemma re_search_lacks s : lacks "-" s = true -> re_search s = None.
Proof.
  induction s as [|c r IH]; [done|]. intros Hs.
  cbn [re_search]. unfold re_match. rewrite (digits_dash_lacks _ Hs).
  cbn [lacks] in Hs. apply andb_prop in Hs as [_ Hr]. by apply IH.
Qed.



Lemma make_partial_response_unreadable w file_path e start_pos end_pos file_size t :
  os_open_rb w file_path = Raise e ->
  make_partial_response w file_path start_pos end_pos file_size t =
  (Ok (make_response_text "Error reading file" 500),
   t ++ [EOpen file_path;
         ELog ERROR ("Error creating partial response: " +:+ exn_msg e)]).
Proof.
  intros Hopen.
  unfold make_partial_response, try_except, bind, call, logger, ret.
  rewrite Hopen. by rewrite <- app_assoc.
Qed.

Lemma make_entire_response_unreadable w file_path e file_size t :
  os_open_rb w file_path = Raise e ->
  make_entire_response w file_path file_size t =
  (Ok (make_response_text "Error reading file" 500),
   t ++ [EOpen file_path;
         ELog ERROR ("Error creating full response: " +:+ exn_msg e)]).
Proof.
  intros Hopen.
  unfold make_entire_response, try_except, bind, call, logger, ret.
  rewrite Hopen. by rewrite <- app_assoc.
Qed.

(** Whatever it is given, [make_partial_response] answers: with a 206
    carrying what it read, or with the 500 of its [except] clause. *)
Lemma make_partial_response_cases w file_path start_pos end_pos file_size t :
  (exists content,
     make_partial_response w file_path start_pos end_pos file_size t
     = (Ok (Response 206
              [("Content-Type", "text/html; charset=utf-8");
               ("Content-Length", py_str (end_pos - start_pos + 1));
               ("Content-Range",
                "bytes " +:+ py_str start_pos +:+ "-" +:+ py_str end_pos
                  +:+ "/" +:+ py_str file_size)]
              (Raw content)),
        t ++ [EOpen file_path]))
  \/
  (exists msg,
     make_partial_response w file_path start_pos end_pos file_size t
     = (Ok (make_response_text "Error reading file" 500),
        t ++ [EOpen file_path; ELog ERROR msg])).
Proof.
  unfold make_partial_response, try_except, bind, call, lift, logger, ret.
  destruct (os_open_rb w file_path) as [data|e];
    [|right; eexists; by rewrite <- app_assoc].
  destruct (file_seek w data start_pos) as [rest|e];
    [|right; eexists; by rewrite <- app_assoc].
  destruct (file_read w rest (end_pos - start_pos + 1)) as [content|e];
    [|right; eexists; by rewrite <- app_assoc].
  left. by eexists.
Qed.

Lemma make_entire_response_cases w file_path file_size t :
  (exists content,
     make_entire_response w file_path file_size t
     = (Ok (Response 200
              [("Content-Type", "text/html; charset=utf-8");
               ("Content-Length", py_str file_size)]
              (Raw content)),
        t ++ [EOpen file_path]))
  \/
  (exists msg,
     make_entire_response w file_path file_size t
     = (Ok (make_response_text "Error reading file" 500),
        t ++ [EOpen file_path; ELog ERROR msg])).
Proof.
  destruct (os_open_rb w file_path) as [data|e] eqn:Hopen.
  - left. rewrite (make_entire_response_ok _ _ data) by done. by eexists.
  - right. rewrite (make_entire_response_unreadable _ _ e) by done. by eexists.
Qed.

(** [serve_audio] once the name is accepted, the file found and its size
    known. *)
Lemma serve_audio_past_checks w range_header filename file_size t :
  accepted_filename filename ->
  os_isfile w (audio_path w filename) = true ->
  os_getsize w (audio_path w filename) = Ok file_size ->
  serve_audio w range_header filename t =
  (response <-
     match range_header with
     | Some h =>
         if truthy h then
           range <- lift (parse_range_header h file_size) ;;
           let '(start_pos, end_pos) := range in
           make_partial_response w (audio_path w filename) start_pos end_pos
             file_size
         else make_entire_response w (audio_path w filename) file_size
     | None => make_entire_response w (audio_path w filename) file_size
     end ;;
   ret (set_header "Content-Type" "audio/mpeg"
          (set_header "Access-Control-Allow-Methods" "GET"
             (set_header "Access-Control-Allow-Origin" "*" response))))
    (t ++ [EGetcwd; EIsfile (audio_path w filename);
           EGetsize (audio_path w filename)]).
Proof.
  intros [Hdd Hsep] Hfile Hsize.
  unfold serve_audio. unfold bind at 1. unfold call at 1.
  fold (audio_path w filename). rewrite Hdd, Hsep. cbn [orb].
  unfold bind at 1. unfold call at 1. rewrite Hfile. cbn [negb].
  unfold bind at 1. unfold call at 1. rewrite Hsize.
  by rewrite <- !app_assoc.
Qed.

(** The two ways [serve_audio] picks its response, as one case analysis,
    for a Range header whose numbers convert. *)
Lemma serve_audio_cases w range_header filename file_size t :
  accepted_filename filename ->
  os_isfile w (audio_path w filename) = true ->
  os_getsize w (audio_path w filename) = Ok file_size ->
  convertible range_header = true ->
  let t0 := t ++ [EGetcwd; EIsfile (audio_path w filename);
                  EGetsize (audio_path w filename)] in
  let finish r :=
    set_header "Content-Type" "audio/mpeg"
      (set_header "Access-Control-Allow-Methods" "GET"
         (set_header "Access-Control-Allow-Origin" "*" r)) in
  (exists h start_pos end_pos r t',
     range_header = Some h /\ truthy h = true
     /\ parse_range_header h file_size = Ok (start_pos, end_pos)
     /\ make_partial_response w (audio_path w filename) start_pos end_pos
          file_size t0 = (Ok r, t')
     /\ serve_audio w range_header filename t = (Ok (finish r), t'))
  \/
  (exists r t',
     (range_header = None \/ range_header = Some EmptyString)
     /\ make_entire_response w (audio_path w filename) file_size t0 = (Ok r, t')
     /\ serve_audio w range_header filename t = (Ok (finish r), t')).
Proof.
  intros Hname Hfile Hsize Hconv t0 finish.
  rewrite (serve_audio_past_checks _ _ _ file_size) by done. fold t0.
  assert (Hentire : exists r t',
             make_entire_response w (audio_path w filename) file_size t0 = (Ok r, t')).
  { destruct (make_entire_response_cases w (audio_path w filename) file_size t0)
      as [[c Hr]|[m Hr]]; rewrite Hr; by eexists _, _. }
  destruct range_header as [[|c h]|].
  - right. destruct Hentire as (r & t' & Hr). exists r, t'.
    split; [by right|]. split; [done|]. cbn [truthy]. unfold bind. by rewrite Hr.
  - left. cbn [convertible] in Hconv.
    destruct (parse_range_header_converts (String c h) file_size Hconv)
      as (s & e & Hp).
    assert (Hpartial : exists r t',
               make_partial_response w (audio_path w filename) s e file_size t0
               = (Ok r, t')).
    { destruct (make_partial_response_cases w (audio_path w filename) s e file_size t0)
        as [[ct Hr]|[m Hr]]; rewrite Hr; by eexists _, _. }
    destruct Hpartial as (r & t' & Hr).
    exists (String c h), s, e, r, t'. repeat split; try done.
    cbn [truthy]. unfold bind at 1. unfold bind at 1. unfold lift at 1.
    rewrite Hp. by rewrite Hr.
  - right. destruct Hentire as (r & t' & Hr). exists r, t'.
    split; [by left|]. split; [done|]. unfold bind. by rewrite Hr.
Qed.

(** With a number too long in its Range header, [serve_audio] raises what
    [int] raises: nothing around the resolver catches it. *)
Lemma serve_audio_long_number w range_header filename file_size t :
  accepted_filename filename ->
  os_isfile w (audio_path w filename) = true ->
  os_getsize w (audio_path w filename) = Ok file_size ->
  convertible range_header = false ->
  exists e,
    serve_audio w range_header filename t
    = (Raise e, t ++ [EGetcwd; EIsfile (audio_path w filename);
                      EGetsize (audio_path w filename)])
    /\ exn_class e = ValueError.
Proof.
  intros Hname Hfile Hsize Hconv.
  rewrite (serve_audio_past_checks _ _ _ file_size) by done.
  destruct range_header as [h|]; [|done]. cbn [convertible] in Hconv.
  destruct (parse_range_header_long h file_size Hconv) as (e & Hp & He).
  assert (truthy h = true) as -> by (by destruct h).
  exists e. split; [|done].
  unfold bind at 1. unfold bind at 1. unfold lift at 1. by rewrite Hp.
Qed.

(** X4: a Range header that holds no dash at all ([bytes], [bytes=12],
    free text) resolves to the full-file interval, and an existing file is
    then served whole with status 206. *)
Theorem range_without_dash
    (w : os_world) (filename : string) (data : list byte) (h : string) :
  accepted_filename filename -> stored w filename data ->
  truthy h = true -> lacks "-" h = true ->
  (forall file_size, parse_range_header h file_size = Ok (0, file_size - 1))
  /\ exists final t,
       serve_audio w (Some h) filename [] = (Ok final, t)
       /\ status_code final = 206
       /\ hget "Content-Range" (headers final)
          = Some ("bytes " +:+ py_str 0 +:+ "-" +:+ py_str (len data - 1)
                    +:+ "/" +:+ py_str (len data))
       /\ body final = Raw data.
Proof.
  intros Hname Hst Hh Hdash.
  assert (Hparse : forall file_size,
             parse_range_header h file_size = Ok (0, file_size - 1)).
  { intros fs. rewrite parse_range_header_eq. by rewrite (re_search_lacks _ Hdash). }
  split; [exact Hparse|].
  pose proof Hst as (_ & _ & Hopen).
  destruct (os_fits w _ _ Hopen) as (Hr1 & Hr2 & Hr3).
  pose proof (take_drop_whole data) as Hall.
  eexists _, _. split.
  { rewrite (serve_audio_stored _ _ _ data) by done. rewrite Hh.
    unfold bind at 1. unfold bind at 1. unfold lift at 1.
    rewrite Hparse.
    rewrite (make_partial_response_ok _ _ data)
      by (done || unfold ssize_max, len in *; lia).
    rewrite Hall. reflexivity. }
  repeat split.
Qed.

Lemma range_without_dash_witness :
  (forall file_size, parse_range_header "bytes" file_size = Ok (0, file_size - 1))
  /\ exists final t,
       serve_audio (one_file_world "a.mp3" (list_byte_of_string "hello"))
         (Some "bytes") "a.mp3" [] = (Ok final, t)
       /\ status_code final = 206
       /\ hget "Content-Range" (headers final)
          = Some ("bytes " +:+ py_str 0 +:+ "-"
                    +:+ py_str (len (list_byte_of_string "hello") - 1)
                    +:+ "/" +:+ py_str (len (list_byte_of_string "hello")))
       /\ body final = Raw (list_byte_of_string "hello").
Proof.
  apply (range_without_dash
           (one_file_world "a.mp3" (list_byte_of_string "hello")) "a.mp3"
           (list_byte_of_string "hello") "bytes").
  - split; reflexivity.
  - apply one_file_world_stored; [reflexivity | vm_compute; discriminate].
  - reflexivity.
  - reflexivity.
Defined.

(** X5: when the accepted name is not an existing regular file,
    [serve_audio] answers 404 after [os.getcwd] and [os.path.isfile] alone:
    the size is not asked and nothing is opened. *)
Theorem serve_audio_not_found
    (w : os_world) (range_header : option string) (filename : string)
    (t : trace) :
  accepted_filename filename ->
  os_isfile w (audio_path w filename) = false ->
  exists r,
    serve_audio w range_header filename t
    = (Ok r, t ++ [EGetcwd; EIsfile (audio_path w filename)])
    /\ status_code r = 404
    /\ body r = Raw (list_byte_of_string "Audio file not found").
Proof.
  intros [Hdd Hsep] Hfile.
  exists (make_response_text "Audio file not found" 404).
  split; [|repeat split].
  unfold serve_audio. unfold bind at 1. unfold call at 1.
  fold (audio_path w filename). rewrite Hdd, Hsep. cbn [orb].
  unfold bind at 1. unfold call at 1. rewrite Hfile. cbn [negb]. unfold ret.
  by rewrite <- app_assoc.
Qed.

Lemma serve_audio_not_found_witness :
  exists r,
    serve_audio (one_file_world "a.mp3" []) None "b.mp3" []
    = (Ok r, [] ++ [EGetcwd; EIsfile (audio_path (one_file_world "a.mp3" []) "b.mp3")])
    /\ status_code r = 404
    /\ body r = Raw (list_byte_of_string "Audio file not found").
Proof.
  apply serve_audio_not_found.
  - split; reflexivity.
  - reflexivity.
Defined.

(** X6: when the file passes the existence check and the size query but
    cannot be opened (it vanished, it is unreadable), [serve_audio] raises
    nothing: it logs the error and answers 500 with the text
    [Error reading file], without a Range header or with one whose numbers
    convert; that answer still goes out labelled [audio/mpeg] with the
    CORS headers the handler sets. *)
Theorem serve_audio_unreadable
    (w : os_world) (range_header : option string) (filename : string)
    (file_size : Z) (e : exn) (t : trace) :
  accepted_filename filename ->
  os_isfile w (audio_path w filename) = true ->
  os_getsize w (audio_path w filename) = Ok file_size ->
  os_open_rb w (audio_path w filename) = Raise e ->
  convertible range_header = true ->
  exists r msg,
    serve_audio w range_header filename t
    = (Ok r, t ++ [EGetcwd; EIsfile (audio_path w filename);
                   EGetsize (audio_path w filename);
                   EOpen (audio_path w filename); ELog ERROR msg])
    /\ status_code r = 500
    /\ body r = Raw (list_byte_of_string "Error reading file")
    /\ cors_audio_headers r.
Proof.
  intros Hname Hfile Hsize Hopen Hconv.
  destruct (serve_audio_cases w range_header filename file_size t Hname Hfile Hsize Hconv)
    as [(h & s & en & r & t' & _ & _ & _ & Hr & ->)
       |(r & t' & _ & Hr & ->)].
  - rewrite (make_partial_response_unreadable _ _ e) in Hr by done.
    injection Hr as <- <-. eexists _, _. rewrite <- app_assoc.
    split; [reflexivity|]. repeat split.
  - rewrite (make_entire_response_unreadable _ _ e) in Hr by done.
    injection Hr as <- <-. eexists _, _. rewrite <- app_assoc.
    split; [reflexivity|]. repeat split.
Qed.

Lemma serve_audio_unreadable_witness :
  exists r msg,
    serve_audio (racy_world "a.mp3" (Ok 5) (Raise (Exn OSError "gone")))
      (Some "bytes=0-1") "a.mp3" []
    = (Ok r, [] ++ [EGetcwd; EIsfile "/srv/audios/a.mp3";
                    EGetsize "/srv/audios/a.mp3";
                    EOpen "/srv/audios/a.mp3"; ELog ERROR msg])
    /\ status_code r = 500
    /\ body r = Raw (list_byte_of_string "Error reading file")
    /\ cors_audio_headers r.
Proof.
  apply (serve_audio_unreadable
           (racy_world "a.mp3" (Ok 5) (Raise (Exn OSError "gone")))
           (Some "bytes=0-1") "a.mp3" 5 (Exn OSError "gone") []).
  - split; reflexivity.
  - reflexivity.
  - reflexivity.
  - reflexivity.
  - reflexivity.
Defined.

(** X7: every answer [serve_audio] gives once the name is accepted, the
    file found and its size known is a 200, a 206 or a 500, and carries
    [Access-Control-Allow-Origin: *], [Access-Control-Allow-Methods: GET]
    and [Content-Type: audio/mpeg], whether or not the file can be read;
    and it does give an answer whenever the numbers of the Range header
    convert. Otherwise it raises [ValueError] and opens nothing. *)
Theorem serve_audio_cors
    (w : os_world) (range_header : option string) (filename : string)
    (file_size : Z) (t : trace) :
  accepted_filename filename ->
  os_isfile w (audio_path w filename) = true ->
  os_getsize w (audio_path w filename) = Ok file_size ->
  (forall r t', serve_audio w range_header filename t = (Ok r, t') ->
     cors_audio_headers r
     /\ (status_code r = 200 \/ status_code r = 206 \/ status_code r = 500))
  /\ (convertible range_header = true ->
      exists r t', serve_audio w range_header filename t = (Ok r, t'))
  /\ (convertible range_header = false ->
      exists e,
        serve_audio w range_header filename t
        = (Raise e, t ++ [EGetcwd; EIsfile (audio_path w filename);
                          EGetsize (audio_path w filename)])
        /\ exn_class e = ValueError).
Proof.
  intros Hname Hfile Hsize.
  assert (Hyes : convertible range_header = true ->
            exists r t', serve_audio w range_header filename t = (Ok r, t')
              /\ cors_audio_headers r
              /\ (status_code r = 200 \/ status_code r = 206 \/ status_code r = 500)).
  { intros Hconv.
    destruct (serve_audio_cases w range_header filename file_size t Hname Hfile Hsize Hconv)
      as [(h & s & en & r & t' & _ & _ & _ & Hr & ->)
         |(r & t' & _ & Hr & ->)].
    - destruct (make_partial_response_cases w (audio_path w filename) s en file_size
                  (t ++ [EGetcwd; EIsfile (audio_path w filename);
                         EGetsize (audio_path w filename)]))
        as [[ct Hc]|[m Hc]]; rewrite Hc in Hr; injection Hr as <- <-;
        eexists _, _; (split; [reflexivity|]); (split; [repeat split|]).
      + right; by left.
      + right; by right.
    - destruct (make_entire_response_cases w (audio_path w filename) file_size
                  (t ++ [EGetcwd; EIsfile (audio_path w filename);
                         EGetsize (audio_path w filename)]))
        as [[ct Hc]|[m Hc]]; rewrite Hc in Hr; injection Hr as <- <-;
        eexists _, _; (split; [reflexivity|]); (split; [repeat split|]).
      + by left.
      + right; by right. }
  split; [|split].
  - intros r t' Hrun. destruct (convertible range_header) eqn:Hconv.
    + destruct (Hyes eq_refl) as (r0 & t0 & Hrun0 & Hc & Hst).
      rewrite Hrun in Hrun0. by injection Hrun0 as <- <-.
    + destruct (serve_audio_long_number w range_header filename file_size t
                  Hname Hfile Hsize Hconv) as (e & Hrun0 & _).
      rewrite Hrun in Hrun0. discriminate Hrun0.
  - intros Hconv. destruct (Hyes Hconv) as (r & t' & Hrun & _). by exists r, t'.
  - intros Hconv. by apply (serve_audio_long_number _ _ _ file_size).
Qed.

Lemma serve_audio_cors_witness :
  (exists r t',
     serve_audio (one_file_world "a.mp3" (list_byte_of_string "hello"))
       (Some "bytes=1-3") "a.mp3" [] = (Ok r, t'))
  /\ forall r t',
       serve_audio (one_file_world "a.mp3" (list_byte_of_string "hello"))
         (Some "bytes=1-3") "a.mp3" [] = (Ok r, t') ->
       cors_audio_headers r
       /\ (status_code r = 200 \/ status_code r = 206 \/ status_code r = 500).
Proof.
  destruct (serve_audio_cors
              (one_file_world "a.mp3" (list_byte_of_string "hello"))
              (Some "bytes=1-3") "a.mp3" 5 [])
    as (Hall & Hyes & _).
  - split; reflexivity.
  - reflexivity.
  - reflexivity.
  - split; [exact (Hyes eq_refl) | exact Hall].
Defined.

(** X8: when the size query raises after the existence check passed,
    [serve_audio] does not catch it: the exception leaves the handler and
    the file is never opened. *)
Theorem serve_audio_getsize_raises
    (w : os_world) (range_header : option string) (filename : string)
    (e : exn) (t : trace) :
  accepted_filename filename ->
  os_isfile w (audio_path w filename) = true ->
  os_getsize w (audio_path w filename) = Raise e ->
  serve_audio w range_header filename t
  = (Raise e, t ++ [EGetcwd; EIsfile (audio_path w filename);
                    EGetsize (audio_path w filename)]).
Proof.
  intros [Hdd Hsep] Hfile Hsize.
  unfold serve_audio. unfold bind at 1. unfold call at 1.
  fold (audio_path w filename). rewrite Hdd, Hsep. cbn [orb].
  unfold bind at 1. unfold call at 1. rewrite Hfile. cbn [negb].
  unfold bind at 1. unfold call at 1. rewrite Hsize.
  by rewrite <- !app_assoc.
Qed.

Lemma serve_audio_getsize_raises_witness :
  serve_audio (racy_world "a.mp3" (Raise (Exn OSError "gone")) (Ok []))
    None "a.mp3" []
  = (Raise (Exn OSError "gone"),
     [] ++ [EGetcwd; EIsfile "/srv/audios/a.mp3"; EGetsize "/srv/audios/a.mp3"]).
Proof.
  apply (serve_audio_getsize_raises
           (racy_world "a.mp3" (Raise (Exn OSError "gone")) (Ok []))
           None "a.mp3" (Exn OSError "gone") []).
  - split; reflexivity.
  - reflexivity.
  - reflexivity.
Defined.

(** X9: without a Range header the [Content-Length] announced is the size
    reported before the file was opened, and the body is whatever is read
    afterwards: when the file changed in between, the two disagree. *)
Theorem entire_response_stale_size
    (w : os_world) (filename : string) (file_size : Z) (data : list byte)
    (t : trace) :
  accepted_filename filename ->
  os_isfile w (audio_path w filename) = true ->
  os_getsize w (audio_path w filename) = Ok file_size ->
  os_open_rb w (audio_path w filename) = Ok data ->
  exists r t',
    serve_audio w None filename t = (Ok r, t')
    /\ status_code r = 200
    /\ hget "Content-Length" (headers r) = Some (py_str file_size)
    /\ body r = Raw data.
Proof.
  intros Hname Hfile Hsize Hopen.
  rewrite (serve_audio_past_checks _ _ _ file_size) by done.
  unfold bind. rewrite (make_entire_response_ok _ _ data) by done.
  eexists _, _. split; [reflexivity|]. repeat split.
Qed.

Lemma entire_response_stale_size_witness :
  exists r t',
    serve_audio (racy_world "a.mp3" (Ok 5) (Ok (list_byte_of_string "hi")))
      None "a.mp3" [] = (Ok r, t')
    /\ status_code r = 200
    /\ hget "Content-Length" (headers r) = Some (py_str 5)
    /\ body r = Raw (list_byte_of_string "hi").
Proof.
  apply (entire_response_stale_size
           (racy_world "a.mp3" (Ok 5) (Ok (list_byte_of_string "hi")))
           "a.mp3" 5 (list_byte_of_string "hi") []).
  - split; reflexivity.
  - reflexivity.
  - reflexivity.
  - reflexivity.
Defined.

(** X10: with a Range header that the resolver resolves, whatever the
    size reported (one byte at least, and within what [seek] and [read]
    accept) and whatever is actually read, the body of the 206 is a run of
    consecutive bytes of the file beginning at the resolved start, and it
    is never longer than the [Content-Length] announced. *)
Theorem partial_body_within_announced
    (w : os_world) (filename : string) (file_size : Z) (data : list byte)
    (h : string) (start_pos end_pos : Z) (t : trace) :
  accepted_filename filename ->
  os_isfile w (audio_path w filename) = true ->
  os_getsize w (audio_path w filename) = Ok file_size ->
  os_open_rb w (audio_path w filename) = Ok data ->
  truthy h = true -> 1 <= file_size -> in_reach w file_size ->
  parse_range_header h file_size = Ok (start_pos, end_pos) ->
  exists content r t',
    serve_audio w (Some h) filename t = (Ok r, t')
    /\ status_code r = 206
    /\ hget "Content-Length" (headers r) = Some (py_str (end_pos - start_pos + 1))
    /\ body r = Raw content
    /\ len content <= end_pos - start_pos + 1
    /\ forall (i : nat) x, content !! i = Some x ->
         data !! (Z.to_nat start_pos + i)%nat = Some x.
Proof.
  intros Hname Hfile Hsize Hopen Hh Hn (Hr1 & Hr2 & Hr3) Hp.
  destruct (parse_range_header_inside _ _ _ _ Hn Hp) as (Hs0 & Hse & He).
  exists (take (Z.to_nat (end_pos - start_pos + 1)) (drop (Z.to_nat start_pos) data)).
  eexists _, _. split.
  { rewrite (serve_audio_past_checks _ _ _ file_size) by done. rewrite Hh.
    unfold bind at 1. unfold bind at 1. unfold lift at 1. rewrite Hp.
    rewrite (make_partial_response_ok _ _ data)
      by (done || unfold ssize_max in *; lia).
    reflexivity. }
  split; [reflexivity|]. split; [reflexivity|]. split; [reflexivity|].
  unfold len. split.
  - rewrite length_take. lia.
  - intros i x Hi. apply lookup_take_Some in Hi as [Hi _].
    by rewrite lookup_drop in Hi.
Qed.

Lemma partial_body_within_announced_witness :
  exists content r t',
    serve_audio (racy_world "a.mp3" (Ok 5) (Ok (list_byte_of_string "hi")))
      (Some "bytes=1-3") "a.mp3" [] = (Ok r, t')
    /\ status_code r = 206
    /\ hget "Content-Length" (headers r) = Some (py_str (3 - 1 + 1))
    /\ body r = Raw content
    /\ len content <= 3 - 1 + 1
    /\ forall (i : nat) x, content !! i = Some x ->
         list_byte_of_string "hi" !! (Z.to_nat 1 + i)%nat = Some x.
Proof.
  apply (partial_body_within_announced
           (racy_world "a.mp3" (Ok 5) (Ok (list_byte_of_string "hi")))
           "a.mp3" 5 (list_byte_of_string "hi") "bytes=1-3" 1 3 []).
  - split; reflexivity.
  - reflexivity.
  - reflexivity.
  - reflexivity.
  - reflexivity.
  - lia.
  - unfold in_reach, within_limits, ssize_max, racy_world, sample_max_seek,
      sample_max_read; cbn [os_max_seek os_max_read]. lia.
  - vm_compute. reflexivity.
Defined.

(** ** Retention Sweeper: what a pass leaves alone *)

Lemma removable_false_kept now (files : gmap string entry) k e :
  files !! k = Some e ->
  removable now (files !! k) = true ->
  entry_kind e = RegularFile /\ entry_locked e = false
  /\ expired now (entry_mtime e).
Proof.
  intros Hk Hr. rewrite Hk in Hr.
  apply removable_expired in Hr as (m & [= ->] & Hexp). by repeat split.
Qed.

(** X11: a pass over an existing directory only ever takes expired
    regular files away. Every entry present afterwards was there before,
    unchanged; an entry that has disappeared was a regular file, expired,
    whose removal was not refused; entries that are not regular files
    (sub-directories) stay however old they are. *)
Theorem sweep_only_removes_expired
    (time_time : Q) (files : gmap string entry) (t : trace) :
  names_ok files ->
  exists files' t',
    delete_expired_files time_time (SweepState (Listing files) t)
      = (Ok tt, SweepState (Listing files') t')
    /\ (forall k e, files' !! k = Some e -> files !! k = Some e)
    /\ (forall k e, files !! k = Some e -> files' !! k = None ->
          entry_kind e = RegularFile /\ entry_locked e = false
          /\ expired (int_of_float time_time) (entry_mtime e))
    /\ (forall k e, files !! k = Some e -> entry_kind e = OtherEntry ->
          files' !! k = Some e).
Proof.
  intros Hok. eexists _, _. split; [by apply delete_expired_files_listing|].
  split; [|split].
  - intros k e. rewrite sweep_fold_lookup.
    by destruct (bool_decide _ && removable _ _).
  - intros k e Hk. rewrite sweep_fold_lookup.
    destruct (bool_decide _) ; cbn [andb]; [|by rewrite Hk].
    destruct (removable (int_of_float time_time) (files !! k)) eqn:Hr;
      [|by rewrite Hk].
    intros _. by apply (removable_false_kept _ files k).
  - intros k [kd m lock] Hk Hkind. simpl in Hkind. subst kd.
    rewrite sweep_fold_lookup, Hk. cbn [removable]. by rewrite andb_false_r.
Qed.

Lemma sweep_only_removes_expired_witness :
  names_ok sample_dir
  /\ exists files' t',
       delete_expired_files 9000.5 (SweepState (Listing sample_dir) [])
         = (Ok tt, SweepState (Listing files') t')
       /\ files' !! "sub" = Some (Entry OtherEntry 10 false).
Proof.
  split; [exact sample_dir_ok|].
  destruct (sweep_only_removes_expired 9000.5 sample_dir [] sample_dir_ok)
    as (files' & t' & Hrun & _ & _ & Hsub).
  exists files', t'. split; [exact Hrun|].
  apply Hsub; [|reflexivity]. vm_compute. reflexivity.
Defined.

Lemma names_ok_after now (files : gmap string entry) l :
  names_ok files -> names_ok (foldl (sweep_one now) files l).
Proof.
  intros Hok k [e He]. apply Hok. rewrite sweep_fold_lookup in He.
  destruct (bool_decide _ && removable _ _); [done|]. by exists e.
Qed.

(** X12: a pass is idempotent: a second pass at the same clock reading
    over the directory the first one left removes nothing more. *)
Theorem sweep_twice
    (time_time : Q) (files files' : gmap string entry) (t t' : trace) :
  names_ok files ->
  delete_expired_files time_time (SweepState (Listing files) t)
    = (Ok tt, SweepState (Listing files') t') ->
  exists t'',
    delete_expired_files time_time (SweepState (Listing files') t')
      = (Ok tt, SweepState (Listing files') t'').
Proof.
  intros Hok Hrun.
  rewrite (delete_expired_files_listing _ _ _ Hok) in Hrun.
  assert (Hfiles : files' = foldl (sweep_one (int_of_float time_time)) files
                              (map_to_list files).*1) by congruence.
  assert (Hok' : names_ok files') by (rewrite Hfiles; by apply names_ok_after).
  rewrite (delete_expired_files_listing _ _ _ Hok').
  eexists. f_equal. f_equal. f_equal.
  apply map_eq. intros k. rewrite sweep_fold_lookup.
  destruct (removable (int_of_float time_time) (files' !! k)) eqn:Hr;
    [|by rewrite andb_false_r].
  exfalso. apply removable_spec in Hr as (m & Hk & Hexp).
  rewrite Hfiles, sweep_fold_lookup in Hk.
  destruct (bool_decide (k ∈ (map_to_list files).*1)) eqn:Hin; cbn [andb] in Hk.
  - destruct (removable (int_of_float time_time) (files !! k)) eqn:Hr'; [done|].
    rewrite Hk in Hr'. cbn [removable] in Hr'.
    apply Qltb_found in Hexp. congruence.
  - apply bool_decide_eq_false in Hin. apply Hin, listing_names. by eexists.
Qed.

Lemma sweep_twice_witness :
  names_ok sample_dir
  /\ forall files' t',
       delete_expired_files 9000.5 (SweepState (Listing sample_dir) [])
         = (Ok tt, SweepState (Listing files') t') ->
       exists t'',
         delete_expired_files 9000.5 (SweepState (Listing files') t')
           = (Ok tt, SweepState (Listing files') t'').
Proof.
  split; [exact sample_dir_ok|].
  intros files' t'. exact (sweep_twice 9000.5 sample_dir files' [] t' sample_dir_ok).
Defined.

Lemma sweep_events_removals now l : forall (files : gmap string entry) path,
  ERemove path ∈ sweep_events now files l ->
  exists k m lock,
    path = "audios/" +:+ k
    /\ files !! k = Some (Entry RegularFile m lock)
    /\ expired now m.
Proof.
  induction l as [|k' r IH]; intros files path Hin.
  - by apply elem_of_nil in Hin.
  - cbn [sweep_events] in Hin. apply elem_of_app in Hin as [Hin|Hin].
    + unfold sweep_one_events in Hin.
      destruct (files !! k') as [[[] m lock]|] eqn:Hk;
        try (apply elem_of_cons in Hin as [[=]|Hin]; by apply elem_of_nil in Hin).
      destruct (Qltb (float_add_int m RETENTION_PERIOD) (inject_Z now)) eqn:Hlt.
      * exists k', m, lock.
        apply Qltb_found, found_expired_expired in Hlt. repeat split; try done.
        repeat (apply elem_of_cons in Hin as [Hin|Hin]; [try discriminate Hin|]).
        -- by injection Hin.
        -- by destruct lock.
        -- by apply elem_of_nil in Hin.
      * repeat (apply elem_of_cons in Hin as [Hin|Hin]; [discriminate Hin|]).
        by apply elem_of_nil in Hin.
    + destruct (IH _ _ Hin) as (k & m & lock & -> & Hk & Hexp).
      exists k, m, lock. repeat split; try done.
      rewrite sweep_one_lookup in Hk.
      destruct (decide (k = k')); [|done].
      by destruct (removable now (files !! k)).
Qed.

(** X13: a pass calls [os.remove] on nothing but expired regular files of
    the directory: never on a file still within the retention period,
    never on a sub-directory, never outside [audios]. *)
Theorem sweep_removal_attempts
    (time_time : Q) (files : gmap string entry) (t : trace) :
  names_ok files ->
  exists files' t',
    delete_expired_files time_time (SweepState (Listing files) t)
      = (Ok tt, SweepState (Listing files') (t ++ t'))
    /\ forall path, ERemove path ∈ t' ->
         exists k m lock,
           path = "audios/" +:+ k
           /\ files !! k = Some (Entry RegularFile m lock)
           /\ expired (int_of_float time_time) m.
Proof.
  intros Hok. eexists _, _. split; [by apply delete_expired_files_listing|].
  intros path Hin.
  repeat (apply elem_of_cons in Hin as [Hin|Hin]; [discriminate Hin|]).
  by apply (sweep_events_removals _ _ _ _ Hin).
Qed.

Lemma sweep_removal_attempts_witness :
  names_ok sample_dir
  /\ exists files' t',
       delete_expired_files 9000.5 (SweepState (Listing sample_dir) [])
         = (Ok tt, SweepState (Listing files') ([] ++ t'))
       /\ forall path, ERemove path ∈ t' ->
            exists k m lock,
              path = "audios/" +:+ k
              /\ sample_dir !! k = Some (Entry RegularFile m lock)
              /\ expired (int_of_float 9000.5) m.
Proof.
  split; [exact sample_dir_ok|].
  exact (sweep_removal_attempts 9000.5 sample_dir [] sample_dir_ok).
Defined.

(** X14: [delete_files_task] always starts its next timer: in every state
    of the cache directory (missing, unlistable, holding files whose
    removal is refused) the task returns normally after the sweep and has
    started exactly one daemon timer of 100 seconds, so the chain of
    sweeps is never broken by a failed pass. *)
Theorem delete_files_task_rearms (time_time : Q) (s : task_state) :
  exists fs,
    delete_expired_files time_time (task_fs s) = (Ok tt, fs)
    /\ delete_files_task time_time s
       = (Ok tt, TaskState fs (task_timers s ++ [Timer 100 true])).
Proof.
  destruct (delete_expired_files_total time_time (task_fs s)) as [fs Hfs].
  exists fs. split; [exact Hfs|].
  unfold delete_files_task, bind, on_fs, start_timer, modify. by rewrite Hfs.
Qed.

(** ** Fetch Pipeline: the produced artifact *)

Lemma rfind_lacks c s : lacks c s = true -> rfind c s = -1.
Proof.
  induction s as [|a r IH]; [done|]. cbn [lacks rfind].
  intros [Ha Hr]%andb_prop. rewrite (IH Hr). apply negb_true_iff in Ha.
  by rewrite Ha.
Qed.

Lemma rfind_app_found c s1 s2 :
  lacks c s2 = true -> rfind c (s1 +:+ String c s2) = slen s1.
Proof.
  intros Hs2. induction s1 as [|a r IH].
  - change ("" +:+ String c s2) with (String c s2). cbn [rfind].
    rewrite (rfind_lacks _ _ Hs2), Ascii.eqb_refl. reflexivity.
  - change (String a r +:+ String c s2) with (String a (r +:+ String c s2)).
    cbn [rfind]. rewrite IH. unfold slen.
    destruct (Z.leb_spec 0 (Z.of_nat (String.length r))); [|lia].
    cbn [String.length]. lia.
Qed.

Lemma lacks_app c s1 s2 : lacks c (s1 +:+ s2) = lacks c s1 && lacks c s2.
Proof.
  induction s1 as [|a r IH]; [done|].
  change (String a r +:+ s2) with (String a (r +:+ s2)). cbn [lacks].
  by rewrite IH, andb_assoc.
Qed.

Lemma substring_whole s r : String.substring 0 (String.length s) (s +:+ r) = s.
Proof.
  induction s as [|a s' IH].
  - cbn. by destruct r.
  - change (String a s' +:+ r) with (String a (s' +:+ r)).
    cbn [String.length String.substring]. by rewrite IH.
Qed.

Lemma lacks_dot_not_all_dots s :
  s <> EmptyString -> lacks "." s = true -> all_dots s = false.
Proof.
  destruct s as [|a r]; [done|]. intros _. cbn [lacks all_dots].
  intros [Ha _]%andb_prop. apply negb_true_iff in Ha. by rewrite Ha.
Qed.

(** X15: whatever extension yt-dlp gave the downloaded file, the file the
    pipeline transcodes and links is [audios/<id>.mp3]: for a reported name
    [audios/<id>.<ext>] with no separator or dot inside [id] and [ext], the
    stem kept is [id]. *)
Theorem mp3_path_of_download (id ext : string) :
  id <> EmptyString ->
  lacks "/" id = true -> lacks "." id = true ->
  lacks "/" ext = true -> lacks "." ext = true ->
  stem_of ("audios/" +:+ id +:+ "." +:+ ext) = id
  /\ mp3_path_of ("audios/" +:+ id +:+ "." +:+ ext) = "audios/" +:+ id +:+ ".mp3".
Proof.
  intros Hne Hsi Hdi Hse Hde.
  set (p := "audios/" +:+ id +:+ "." +:+ ext).
  assert (Hdot : rfind "." p = 7 + slen id).
  { subst p.
    change ("audios/" +:+ id +:+ "." +:+ ext)
      with (("audios/" +:+ id) +:+ String "." ext).
    rewrite (rfind_app_found _ _ _ Hde). unfold slen.
    change (String.length ("audios/" +:+ id)) with (7 + String.length id)%nat. lia. }
  assert (Hsep : rfind "/" p = 6).
  { subst p.
    change ("audios/" +:+ id +:+ "." +:+ ext)
      with ("audios" +:+ String "/" (id +:+ String "." ext)).
    rewrite rfind_app_found; [reflexivity|].
    rewrite lacks_app, Hsi. cbn [lacks andb]. by rewrite Hse. }
  assert (Hsplit : (os_path_splitext p).1 = "audios/" +:+ id).
  { unfold os_path_splitext. rewrite Hdot, Hsep.
    destruct (Z.ltb_spec 6 (7 + slen id)) as [_|?]; [|unfold slen in *; lia].
    assert (Hmid : slice p (6 + 1) (7 + slen id) = id).
    { unfold slice, slen. replace (7 + Z.of_nat (String.length id) - (6 + 1))
        with (Z.of_nat (String.length id)) by lia.
      rewrite Nat2Z.id. change (Z.to_nat (6 + 1)) with 7%nat. subst p.
      change (String.substring 7 (String.length id) ("audios/" +:+ id +:+ "." +:+ ext))
        with (String.substring 0 (String.length id) (id +:+ "." +:+ ext)).
      apply substring_whole. }
    rewrite Hmid, (lacks_dot_not_all_dots _ Hne Hdi). cbn [fst].
    unfold slice, slen. replace (7 + Z.of_nat (String.length id) - 0)
      with (Z.of_nat (7 + String.length id)) by lia.
    rewrite Nat2Z.id. change (Z.to_nat 0) with 0%nat. subst p.
    change (7 + String.length id)%nat with (String.length ("audios/" +:+ id)).
    change ("audios/" +:+ id +:+ "." +:+ ext)
      with (("audios/" +:+ id) +:+ String "." ext).
    apply substring_whole. }
  assert (Hstem : stem_of p = id).
  { unfold stem_of. rewrite Hsplit. unfold os_path_basename.
    change ("audios/" +:+ id) with ("audios" +:+ String "/" id).
    rewrite (rfind_app_found _ _ _ Hsi).
    change ("audios" +:+ String "/" id) with ("audios/" +:+ id).
    unfold slice, slen.
    change (String.length ("audios/" +:+ id)) with (7 + String.length id)%nat.
    change (Z.of_nat (String.length "audios") + 1) with 7.
    replace (Z.of_nat (7 + String.length id) - 7)
      with (Z.of_nat (String.length id)) by lia.
    rewrite Nat2Z.id. change (Z.to_nat 7) with 7%nat.
    change (String.substring 7 (String.length id) ("audios/" +:+ id))
      with (String.substring 0 (String.length id) id).
    rewrite <- (append_empty_r id) at 2. apply substring_whole. }
  split; [exact Hstem|].
  unfold mp3_path_of. fold (stem_of p). by rewrite Hstem.
Qed.

Lemma mp3_path_of_download_witness :
  stem_of "audios/dQw4w9WgXcQ.webm" = "dQw4w9WgXcQ"
  /\ mp3_path_of "audios/dQw4w9WgXcQ.webm" = "audios/dQw4w9WgXcQ.mp3".
Proof.
  exact (mp3_path_of_download "dQw4w9WgXcQ" "webm"
           ltac:(discriminate) eq_refl eq_refl eq_refl eq_refl).
Defined.

(** The whole behaviour of [compress_audio]. *)
Lemma compress_audio_outcomes P file_path t :
  (exists e,
     from_file P file_path = Raise e
     /\ compress_audio P file_path t
        = (Raise e,
           t ++ [EFromFile file_path;
                 ELog ERROR ("Error compressing audio " +:+ file_path +:+ ": "
                               +:+ exn_msg e)]))
  \/ (exists audio e,
        from_file P file_path = Ok audio
        /\ export P audio file_path = Raise e
        /\ compress_audio P file_path t
           = (Raise e,
              t ++ [EFromFile file_path; EExport file_path;
                    ELog ERROR ("Error compressing audio " +:+ file_path +:+ ": "
                                  +:+ exn_msg e)]))
  \/ (exists audio,
        from_file P file_path = Ok audio
        /\ export P audio file_path = Ok tt
        /\ compress_audio P file_path t
           = (Ok tt,
              t ++ [EFromFile file_path; EExport file_path;
                    ELog INFO ("Compressed audio file: " +:+ file_path)])).
Proof.
  unfold compress_audio, try_except, bind, call, logger, throw.
  destruct (from_file P file_path) as [audio|e] eqn:Hf.
  - destruct (export P audio file_path) as [[]|e] eqn:He.
    + right; right. exists audio. rewrite <- !app_assoc. by repeat split.
    + right; left. exists audio, e. rewrite <- !app_assoc. by repeat split.
  - left. exists e. rewrite <- !app_assoc. by split.
Qed.

(** X16: [compress_audio] hands its caller the very exception the library
    raised, after logging it at ERROR level; when the file cannot be
    decoded no export is attempted, so the file is not rewritten; a
    success is logged at INFO level after the export. *)
Theorem compress_audio_reraises (P : pydub) (file_path : string) (t : trace) :
  exists r calls,
    compress_audio P file_path t = (r, t ++ calls)
    /\ (EExport file_path ∈ calls -> exists audio, from_file P file_path = Ok audio)
    /\ (forall e, r = Raise e ->
          ELog ERROR ("Error compressing audio " +:+ file_path +:+ ": "
                        +:+ exn_msg e) ∈ calls
          /\ (from_file P file_path = Raise e
              \/ exists audio, from_file P file_path = Ok audio
                               /\ export P audio file_path = Raise e))
    /\ (r = Ok tt ->
          calls = [EFromFile file_path; EExport file_path;
                   ELog INFO ("Compressed audio file: " +:+ file_path)]
          /\ exists audio, from_file P file_path = Ok audio
                           /\ export P audio file_path = Ok tt).
Proof.
  destruct (compress_audio_outcomes P file_path t)
    as [(e & Hf & ->) | [(audio & e & Hf & He & ->) | (audio & Hf & He & ->)]];
    eexists _, _; (split; [reflexivity|]).
  - split; [|split].
    + intros Hin. repeat (apply elem_of_cons in Hin as [Hin|Hin]; [discriminate Hin|]).
      by apply elem_of_nil in Hin.
    + intros e' [= <-]. split; [|by left]. rewrite !elem_of_cons. by right; left.
    + done.
  - split; [|split].
    + intros _. by exists audio.
    + intros e' [= <-]. split; [|right; by exists audio].
      rewrite !elem_of_cons. by right; right; left.
    + done.
  - split; [|split].
    + intros _. by exists audio.
    + done.
    + intros _. split; [reflexivity | by exists audio].
Qed.

(** The run of [generate] when every step succeeds. *)
Lemma generate_success Y P R host_url video_url info info' path audio t :
  extract_info Y video_url false = Ok info ->
  duration_passes (info_duration info) = true ->
  extract_info Y video_url true = Ok info' ->
  prepare_filename Y info' = Ok path ->
  from_file P (mp3_path_of path) = Ok audio ->
  export P audio (mp3_path_of path) = Ok tt ->
  generate Y P R host_url video_url t
  = (Ok [descriptor R (info_thumbnail info') (stem_of path)],
     t ++ [EExtractInfo video_url false; EExtractInfo video_url true;
           EPrepareFilename; EFromFile (mp3_path_of path);
           EExport (mp3_path_of path);
           ELog INFO ("Compressed audio file: " +:+ mp3_path_of path)]).
Proof.
  intros Hprobe Hgate Hdl Hfn Hff Hex.
  unfold generate, try_except, generate_try, bind, call, ret, logger.
  rewrite Hprobe. cbv beta iota. rewrite Hgate, Hdl. cbv beta iota.
  rewrite Hfn. cbv beta iota.
  unfold descriptor, stem_of.
  destruct (os_path_splitext path) as [file_name file_extension] eqn:Hsplit.
  assert (Hmp3 : "audios/" +:+ os_path_basename file_name +:+ ".mp3" = mp3_path_of path)
    by (unfold mp3_path_of; by rewrite Hsplit).
  rewrite Hmp3. unfold compress_audio, try_except, bind, call, logger.
  rewrite Hff, Hex. cbv beta iota. cbn [fst]. by rewrite <- !app_assoc.
Qed.

(** X17: when the probe passes the gate and the download, the file-name
    query, the decoding and the export all succeed, [generate] makes just
    these calls in this order and yields one descriptor: [img] is the
    thumbnail of the downloaded entry, [direct_link] is the request's root
    URL without its trailing slashes followed by [/] and the path of the
    file that was transcoded, and [expiration_timestamp] is the whole
    second of the clock plus the retention period. *)
Theorem generate_descriptor
    (Y : ytdl) (P : pydub) (R : request_ctx) (host_url video_url : string)
    (info info' : info_dict) (path : string) (audio : list byte) (t : trace) :
  extract_info Y video_url false = Ok info ->
  duration_passes (info_duration info) = true ->
  extract_info Y video_url true = Ok info' ->
  prepare_filename Y info' = Ok path ->
  from_file P (mp3_path_of path) = Ok audio ->
  export P audio (mp3_path_of path) = Ok tt ->
  generate Y P R host_url video_url t
  = (Ok [JObj [("img", json_of_optstr (info_thumbnail info'));
               ("direct_link",
                JStr (rstrip_sep (url_root R) +:+ "/" +:+ mp3_path_of path));
               ("expiration_timestamp",
                JInt (int_of_float (time_time R) + 7200))]],
     t ++ [EExtractInfo video_url false; EExtractInfo video_url true;
           EPrepareFilename; EFromFile (mp3_path_of path);
           EExport (mp3_path_of path);
           ELog INFO ("Compressed audio file: " +:+ mp3_path_of path)]).
Proof.
  intros Hprobe Hgate Hdl Hfn Hff Hex.
  rewrite (generate_success Y P R host_url video_url info info' path audio t); try done.
Qed.

Lemma generate_descriptor_witness :
  generate (sample_ytdl (Some 200%Q)) sample_pydub sample_ctx
    "http://host/download/" "v" []
  = (Ok [JObj [("img", JStr "https://i.example/t.jpg");
               ("direct_link", JStr "http://host/audios/ID.mp3");
               ("expiration_timestamp", JInt 8200)]],
     [EExtractInfo "v" false; EExtractInfo "v" true; EPrepareFilename;
      EFromFile "audios/ID.mp3"; EExport "audios/ID.mp3";
      ELog INFO "Compressed audio file: audios/ID.mp3"]).
Proof.
  exact (generate_descriptor (sample_ytdl (Some 200%Q)) sample_pydub sample_ctx
           "http://host/download/" "v"
           (InfoDict (Some 200%Q) (Some "https://i.example/t.jpg"))
           (InfoDict (Some 200%Q) (Some "https://i.example/t.jpg"))
           "audios/ID.webm" [] []
           eq_refl eq_refl eq_refl eq_refl eq_refl eq_refl).
Defined.

(** Every run of [generate], by the first step that stops it. *)
Lemma generate_runs Y P R host_url video_url t :
  exists doc calls,
    generate Y P R host_url video_url t = (Ok [doc], t ++ calls)
    /\ (doc = duration_error
        \/ (exists e, doc = error_payload e)
        \/ exists info' path, doc = descriptor R (info_thumbnail info') (stem_of path))
    /\ forall ev, ev ∈ calls ->
         ev = EExtractInfo video_url false
         \/ (exists lv msg, ev = ELog lv msg)
         \/ (exists info,
               extract_info Y video_url false = Ok info
               /\ duration_passes (info_duration info) = true
               /\ (ev = EExtractInfo video_url true
                   \/ exists info',
                        extract_info Y video_url true = Ok info'
                        /\ (ev = EPrepareFilename
                            \/ exists path,
                                 prepare_filename Y info' = Ok path
                                 /\ (ev = EFromFile (mp3_path_of path)
                                     \/ ev = EExport (mp3_path_of path))))).
Proof.
  destruct (extract_info Y video_url false) as [info|e] eqn:Hprobe.
  2:{ eexists _, _. split.
      { unfold generate, try_except, generate_try, bind, call, logger, ret.
        rewrite Hprobe. rewrite <- app_assoc. reflexivity. }
      split; [right; left; by eexists|].
      intros ev Hin. repeat (apply elem_of_cons in Hin as [->|Hin]).
      - by left.
      - right; left. by eexists _, _.
      - by apply elem_of_nil in Hin. }
  destruct (duration_passes (info_duration info)) eqn:Hgate.
  2:{ eexists _, _. split; [by apply (generate_gated _ _ _ _ _ info)|].
      split; [by left|].
      intros ev Hin. repeat (apply elem_of_cons in Hin as [->|Hin]).
      - by left.
      - by apply elem_of_nil in Hin. }
  destruct (extract_info Y video_url true) as [info'|e] eqn:Hdl.
  2:{ eexists _, _. split.
      { unfold generate, try_except, generate_try, bind, call, logger, ret.
        rewrite Hprobe. cbv beta iota. rewrite Hgate, Hdl.
        rewrite <- !app_assoc. reflexivity. }
      split; [right; left; by eexists|].
      intros ev Hin. repeat (apply elem_of_cons in Hin as [->|Hin]).
      - by left.
      - right; right. exists info. repeat split; try done. by left.
      - right; left. by eexists _, _.
      - by apply elem_of_nil in Hin. }
  destruct (prepare_filename Y info') as [path|e] eqn:Hfn.
  2:{ eexists _, _. split.
      { unfold generate, try_except, generate_try, bind, call, logger, ret.
        rewrite Hprobe. cbv beta iota. rewrite Hgate, Hdl. cbv beta iota.
        rewrite Hfn. rewrite <- !app_assoc. reflexivity. }
      split; [right; left; by eexists|].
      intros ev Hin. repeat (apply elem_of_cons in Hin as [->|Hin]).
      - by left.
      - right; right. exists info. repeat split; try done. by left.
      - right; right. exists info. repeat split; try done. right.
        exists info'. split; [done|]. by left.
      - right; left. by eexists _, _.
      - by apply elem_of_nil in Hin. }
  assert (Hev : forall ev,
             ev = EFromFile (mp3_path_of path) \/ ev = EExport (mp3_path_of path) ->
             exists info0,
               extract_info Y video_url false = Ok info0
               /\ duration_passes (info_duration info0) = true
               /\ (ev = EExtractInfo video_url true
                   \/ exists info'0,
                        extract_info Y video_url true = Ok info'0
                        /\ (ev = EPrepareFilename
                            \/ exists path0,
                                 prepare_filename Y info'0 = Ok path0
                                 /\ (ev = EFromFile (mp3_path_of path0)
                                     \/ ev = EExport (mp3_path_of path0))))).
  { intros ev Hcase. exists info. rewrite Hprobe. repeat split; try done. right.
    exists info'. split; [done|]. right. exists path. by split. }
  assert (Hpre : forall ev,
             ev ∈ [EExtractInfo video_url false; EExtractInfo video_url true;
                   EPrepareFilename] ->
             ev = EExtractInfo video_url false
             \/ (exists lv msg, ev = ELog lv msg)
             \/ (exists info0,
                   extract_info Y video_url false = Ok info0
                   /\ duration_passes (info_duration info0) = true
                   /\ (ev = EExtractInfo video_url true
                       \/ exists info'0,
                            extract_info Y video_url true = Ok info'0
                            /\ (ev = EPrepareFilename
                                \/ exists path0,
                                     prepare_filename Y info'0 = Ok path0
                                     /\ (ev = EFromFile (mp3_path_of path0)
                                         \/ ev = EExport (mp3_path_of path0)))))).
  { intros ev Hin. repeat (apply elem_of_cons in Hin as [->|Hin]).
    - by left.
    - right; right. exists info. rewrite Hprobe. repeat split; try done. by left.
    - right; right. exists info. rewrite Hprobe. repeat split; try done. right.
      exists info'. split; [done|]. by left.
    - by apply elem_of_nil in Hin. }
  rewrite Hprobe, Hdl in Hev, Hpre.
  destruct (compress_audio_outcomes P (mp3_path_of path)
              (((t ++ [EExtractInfo video_url false])
                  ++ [EExtractInfo video_url true]) ++ [EPrepareFilename]))
    as [(e & Hff & Hrun) | [(audio & e & Hff & Hex & Hrun) | (audio & Hff & Hex & _)]].
  - eexists _, _. split.
    { unfold generate, try_except, generate_try, bind, call, logger, ret.
      rewrite Hprobe. cbv beta iota. rewrite Hgate, Hdl. cbv beta iota.
      rewrite Hfn. cbv beta iota.
      destruct (os_path_splitext path) as [file_name file_extension] eqn:Hsplit.
      assert (Hmp3 : "audios/" +:+ os_path_basename file_name +:+ ".mp3"
                     = mp3_path_of path)
        by (unfold mp3_path_of; by rewrite Hsplit).
      rewrite Hmp3, Hrun. rewrite <- !app_assoc. reflexivity. }
    split; [right; left; by eexists|].
    intros ev Hin. cbn [app] in Hin.
    apply elem_of_cons in Hin as [->|Hin]; [apply Hpre; by left|].
    apply elem_of_cons in Hin as [->|Hin]; [apply Hpre; right; by left|].
    apply elem_of_cons in Hin as [->|Hin]; [apply Hpre; right; right; by left|].
    repeat (apply elem_of_cons in Hin as [->|Hin]).
    + right; right. apply Hev. by left.
    + right; left. by eexists _, _.
    + right; left. by eexists _, _.
    + by apply elem_of_nil in Hin.
  - eexists _, _. split.
    { unfold generate, try_except, generate_try, bind, call, logger, ret.
      rewrite Hprobe. cbv beta iota. rewrite Hgate, Hdl. cbv beta iota.
      rewrite Hfn. cbv beta iota.
      destruct (os_path_splitext path) as [file_name file_extension] eqn:Hsplit.
      assert (Hmp3 : "audios/" +:+ os_path_basename file_name +:+ ".mp3"
                     = mp3_path_of path)
        by (unfold mp3_path_of; by rewrite Hsplit).
      rewrite Hmp3, Hrun. rewrite <- !app_assoc. reflexivity. }
    split; [right; left; by eexists|].
    intros ev Hin. cbn [app] in Hin.
    apply elem_of_cons in Hin as [->|Hin]; [apply Hpre; by left|].
    apply elem_of_cons in Hin as [->|Hin]; [apply Hpre; right; by left|].
    apply elem_of_cons in Hin as [->|Hin]; [apply Hpre; right; right; by left|].
    repeat (apply elem_of_cons in Hin as [->|Hin]).
    + right; right. apply Hev. by left.
    + right; right. apply Hev. by right.
    + right; left. by eexists _, _.
    + right; left. by eexists _, _.
    + by apply elem_of_nil in Hin.
  - eexists _, _. split.
    { by apply (generate_success Y P R host_url video_url info info' path audio t). }
    split; [right; right; by eexists _, _|].
    intros ev Hin. cbn [app] in Hin.
    apply elem_of_cons in Hin as [->|Hin]; [apply Hpre; by left|].
    apply elem_of_cons in Hin as [->|Hin]; [apply Hpre; right; by left|].
    apply elem_of_cons in Hin as [->|Hin]; [apply Hpre; right; right; by left|].
    repeat (apply elem_of_cons in Hin as [->|Hin]).
    + right; right. apply Hev. by left.
    + right; right. apply Hev. by right.
    + right; left. by eexists _, _.
    + by apply elem_of_nil in Hin.
Qed.

(** X18: the artifact outlives its link. When [generate] yields a
    descriptor, its [expiration_timestamp] is the whole second of the clock
    plus the retention period, and no pass of the sweeper whose own
    timestamp is at most that value removes a file written at or after the
    moment the descriptor was computed. *)
Theorem artifact_outlives_link
    (Y : ytdl) (P : pydub) (R : request_ctx) (host_url video_url : string)
    (t calls : trace) (img : json) (link : string) (ts : Z)
    (files : gmap string entry) (k : string) (e : entry)
    (clock : Q) (s : trace) :
  generate Y P R host_url video_url t
  = (Ok [JObj [("img", img); ("direct_link", JStr link);
               ("expiration_timestamp", JInt ts)]], calls) ->
  names_ok files -> files !! k = Some e ->
  (inject_Z (int_of_float (time_time R)) <= entry_mtime e)%Q ->
  int_of_float clock <= ts ->
  ts = int_of_float (time_time R) + RETENTION_PERIOD
  /\ exists files' s',
       delete_expired_files clock (SweepState (Listing files) s)
         = (Ok tt, SweepState (Listing files') s')
       /\ files' !! k = Some e.
Proof.
  intros Hgen Hok Hk Hmtime Hclock.
  assert (Hts : ts = int_of_float (time_time R) + RETENTION_PERIOD).
  { destruct (generate_runs Y P R host_url video_url t)
      as (doc & calls' & Hrun & [-> | [(ex & ->) | (info' & path & ->)]] & _);
      rewrite Hrun in Hgen.
    - discriminate Hgen.
    - discriminate Hgen.
    - unfold descriptor in Hgen. by injection Hgen as _ _ <-. }
  split; [exact Hts|].
  eexists _, _. split; [by apply delete_expired_files_listing|].
  rewrite sweep_fold_lookup, Hk.
  destruct (removable (int_of_float clock) (Some e)) eqn:Hr;
    [|by rewrite andb_false_r].
  exfalso. apply removable_expired in Hr as (m & [= ->] & Hexp).
  unfold expired in Hexp. cbn [entry_mtime] in Hmtime.
  assert (Hq : (inject_Z (int_of_float clock)
                <= inject_Z (int_of_float (time_time R)) + inject_Z RETENTION_PERIOD)%Q).
  { rewrite <- inject_Z_plus. rewrite <- Zle_Qle. lia. }
  lra.
Qed.

Lemma artifact_outlives_link_witness :
  exists files' s',
    delete_expired_files 8200.9
      (SweepState (Listing (<["ID.mp3" := Entry RegularFile 1000.5 false]> ∅)) [])
    = (Ok tt, SweepState (Listing files') s')
    /\ files' !! "ID.mp3" = Some (Entry RegularFile 1000.5 false).
Proof.
  apply (artifact_outlives_link (sample_ytdl (Some 200%Q)) sample_pydub sample_ctx
           "http://host/download/" "v" []
           [EExtractInfo "v" false; EExtractInfo "v" true; EPrepareFilename;
            EFromFile "audios/ID.mp3"; EExport "audios/ID.mp3";
            ELog INFO "Compressed audio file: audios/ID.mp3"]
           (JStr "https://i.example/t.jpg") "http://host/audios/ID.mp3" 8200
           (<["ID.mp3" := Entry RegularFile 1000.5 false]> ∅) "ID.mp3"
           (Entry RegularFile 1000.5 false) 8200.9 []).
  - reflexivity.
  - apply names_ok_insert; [reflexivity | apply names_ok_empty].
  - apply lookup_insert_eq.
  - vm_compute. discriminate.
  - vm_compute. discriminate.
Defined.

(** X19: [generate] touches the audio file only behind the gate and after
    the download: in any run, a decoding or an export is of the file named
    after what yt-dlp reported for a successful download, itself made only
    once the probe succeeded with a duration the gate lets through. *)
Theorem encoding_only_after_download
    (Y : ytdl) (P : pydub) (R : request_ctx) (host_url video_url : string)
    (r : result (list json)) (calls : trace) :
  generate Y P R host_url video_url [] = (r, calls) ->
  (EExtractInfo video_url true ∈ calls ->
   exists info,
     extract_info Y video_url false = Ok info
     /\ duration_passes (info_duration info) = true)
  /\ (forall p, EFromFile p ∈ calls \/ EExport p ∈ calls ->
        exists info info' path,
          extract_info Y video_url false = Ok info
          /\ duration_passes (info_duration info) = true
          /\ extract_info Y video_url true = Ok info'
          /\ prepare_filename Y info' = Ok path
          /\ p = mp3_path_of path).
Proof.
  intros Hgen.
  destruct (generate_runs Y P R host_url video_url [])
    as (doc & calls' & Hrun & _ & Hev).
  rewrite Hrun in Hgen. cbn [app] in Hgen. injection Hgen as _ <-.
  split.
  - intros Hin.
    destruct (Hev _ Hin) as [[=] | [(lv & msg & [=]) | (info & Hp & Hg & _)]].
    by exists info.
  - intros p [Hin | Hin];
      destruct (Hev _ Hin)
        as [[=] | [(lv & msg & [=])
                  | (info & Hp & Hg & [[=] | (info' & Hd & [[=] | (path & Hf & Hcase)])])]];
      exists info, info', path; repeat split; try done;
      destruct Hcase as [[=] | [=]]; done.
Qed.

Lemma encoding_only_after_download_witness :
  (EExtractInfo "v" true
     ∈ [EExtractInfo "v" false; EExtractInfo "v" true; EPrepareFilename;
        EFromFile "audios/ID.mp3"; EExport "audios/ID.mp3";
        ELog INFO "Compressed audio file: audios/ID.mp3"] ->
   exists info,
     extract_info (sample_ytdl (Some 200%Q)) "v" false = Ok info
     /\ duration_passes (info_duration info) = true)
  /\ (forall p,
        EFromFile p
          ∈ [EExtractInfo "v" false; EExtractInfo "v" true; EPrepareFilename;
             EFromFile "audios/ID.mp3"; EExport "audios/ID.mp3";
             ELog INFO "Compressed audio file: audios/ID.mp3"]
        \/ EExport p
             ∈ [EExtractInfo "v" false; EExtractInfo "v" true; EPrepareFilename;
                EFromFile "audios/ID.mp3"; EExport "audios/ID.mp3";
                ELog INFO "Compressed audio file: audios/ID.mp3"] ->
        exists info info' path,
          extract_info (sample_ytdl (Some 200%Q)) "v" false = Ok info
          /\ duration_passes (info_duration info) = true
          /\ extract_info (sample_ytdl (Some 200%Q)) "v" true = Ok info'
          /\ prepare_filename (sample_ytdl (Some 200%Q)) info' = Ok path
          /\ p = mp3_path_of path).
Proof.
  apply (encoding_only_after_download (sample_ytdl (Some 200%Q)) sample_pydub
           sample_ctx "http://host/download/" "v"
           (Ok [JObj [("img", JStr "https://i.example/t.jpg");
                      ("direct_link", JStr "http://host/audios/ID.mp3");
                      ("expiration_timestamp", JInt 8200)]])).
  reflexivity.
Defined.

(** ** The handlers of [/download] and [/search]: requests they refuse *)

(** X20: without a reference (no [video_url] parameter, or an empty one)
    [/download] answers 400 with a JSON error and calls nothing: the
    pipeline is not started and yt-dlp is not asked. *)
Theorem download_audio_without_reference
    (Y : ytdl) (P : pydub) (R : request_ctx) (video_url : option string)
    (t : trace) :
  video_url = None \/ video_url = Some EmptyString ->
  exists r,
    download_audio Y P R video_url t = (Ok r, t)
    /\ status_code r = 400
    /\ body r = JsonDoc (JObj [("error", JStr "video_url parameter is required")]).
Proof.
  intros [-> | ->]; eexists; (split; [reflexivity|]); by split.
Qed.

Lemma download_audio_without_reference_witness :
  exists r,
    download_audio (sample_ytdl (Some 200%Q)) sample_pydub sample_ctx None []
    = (Ok r, [])
    /\ status_code r = 400
    /\ body r = JsonDoc (JObj [("error", JStr "video_url parameter is required")]).
Proof.
  apply download_audio_without_reference. by left.
Defined.

(** X21: without a query (no [q] parameter, or an empty one) [/search]
    answers with the JSON error [Invalid search query] under status 200,
    not 400, and the catalog is not called. *)
Theorem search_without_query
    (catalog : string -> result (list video)) (q : option string) (t : trace) :
  q = None \/ q = Some EmptyString ->
  exists r,
    search catalog q t = (Ok r, t)
    /\ status_code r = 200
    /\ body r = JsonDoc (JObj [("error", JStr "Invalid search query")]).
Proof.
  intros [-> | ->]; eexists; (split; [reflexivity|]); by split.
Qed.

Lemma search_without_query_witness :
  exists r,
    search (fun _ => Ok sample_results) (Some EmptyString) [] = (Ok r, [])
    /\ status_code r = 200
    /\ body r = JsonDoc (JObj [("error", JStr "Invalid search query")]).
Proof.
  apply search_without_query. by right.
Defined.

Lemma search_run catalog c q t :
  search catalog (Some (String c q)) t =
  match catalog (String c q) with
  | Ok results =>
      match search_loop [] results with
      | Ok entries => (Ok (search_response entries), t ++ [ESearch (String c q)])
      | Raise e =>
          (Ok search_failed,
           t ++ [ESearch (String c q);
                 ELog ERROR ("Error searching videos: " +:+ exn_msg e)])
      end
  | Raise e =>
      (Ok search_failed,
       t ++ [ESearch (String c q);
             ELog ERROR ("Error searching videos: " +:+ exn_msg e)])
  end.
Proof.
  unfold search, try_except, bind, call, lift, logger, ret.
  destruct (catalog (String c q)) as [results|e]; cbv beta iota.
  - destruct (search_loop [] results) as [entries|e]; cbv beta iota.
    + reflexivity.
    + by rewrite <- app_assoc.
  - by rewrite <- app_assoc.
Qed.

(** X22: [/search] never raises: whatever the catalog returns or raises,
    the handler answers 200 or 500; when the catalog raises, the answer is
    500 with the JSON error [Search failed] and the exception is logged. *)
Theorem search_never_raises
    (catalog : string -> result (list video)) (q : option string) (t : trace) :
  (exists r t',
     search catalog q t = (Ok r, t')
     /\ (status_code r = 200 \/ status_code r = 500))
  /\ (forall query e,
        q = Some query -> query <> EmptyString -> catalog query = Raise e ->
        search catalog q t
        = (Ok (Response 500 [("Content-Type", "application/json")]
                 (JsonDoc (JObj [("error", JStr "Search failed")]))),
           t ++ [ESearch query;
                 ELog ERROR ("Error searching videos: " +:+ exn_msg e)])).
Proof.
  split.
  - destruct q as [[|c q]|]; try (eexists _, _; split; [reflexivity | by left]).
    rewrite search_run.
    destruct (catalog (String c q)) as [results|e].
    + destruct (search_loop [] results) as [entries|e];
        eexists _, _; (split; [reflexivity|]); [by left | by right].
    + eexists _, _. split; [reflexivity | by right].
  - intros query e -> Hq Hcat. destruct query as [|c query]; [done|].
    by rewrite search_run, Hcat.
Qed.

Lemma search_never_raises_witness :
  search (fun _ => Raise (Exn OSError "network down")) (Some "lofi") []
  = (Ok (Response 500 [("Content-Type", "application/json")]
           (JsonDoc (JObj [("error", JStr "Search failed")]))),
     [] ++ [ESearch "lofi"; ELog ERROR "Error searching videos: network down"]).
Proof.
  exact (proj2 (search_never_raises (fun _ => Raise (Exn OSError "network down"))
                  (Some "lofi") [])
           "lofi" (Exn OSError "network down") eq_refl ltac:(discriminate) eq_refl).
Defined.

Lemma search_step_outcome acc v :
  (exists l, search_step acc v = Ok l)
  \/ (v_duration v = Some None /\ search_step acc v = Raise none_duration_error).
Proof.
  destruct (v_duration v) as [[d|]|] eqn:Hd.
  - left. rewrite search_step_kept by (rewrite Hd; discriminate). by eexists.
  - right. split; [done|]. unfold search_step, colon_in_duration. by rewrite Hd.
  - left. rewrite search_step_kept by (rewrite Hd; discriminate). by eexists.
Qed.

Lemma search_loop_none results : forall acc v,
  In v results -> v_duration v = Some None ->
  search_loop acc results = Raise none_duration_error.
Proof.
  induction results as [|v0 r IH]; intros acc v Hin Hd; [done|].
  cbn [search_loop]. destruct Hin as [-> | Hin].
  - unfold search_step, colon_in_duration. by rewrite Hd.
  - destruct (search_step_outcome acc v0) as [[l ->] | [_ ->]]; [|reflexivity].
    cbn [rbind]. by apply (IH l v).
Qed.

(** X23: one result whose duration is [None] (a live stream) fails the
    whole search, wherever it stands in the list: the handler answers 500
    with [Search failed] and none of the other results is returned. *)
Theorem search_none_duration_fails
    (catalog : string -> result (list video)) (q : string)
    (results : list video) (v : video) (t : trace) :
  q <> EmptyString -> catalog q = Ok results ->
  In v results -> v_duration v = Some None ->
  search catalog (Some q) t
  = (Ok (Response 500 [("Content-Type", "application/json")]
           (JsonDoc (JObj [("error", JStr "Search failed")]))),
     t ++ [ESearch q;
           ELog ERROR
             "Error searching videos: argument of type 'NoneType' is not iterable"]).
Proof.
  intros Hq Hcat Hin Hd. destruct q as [|c q]; [done|].
  rewrite search_run, Hcat. by rewrite (search_loop_none results [] v Hin Hd).
Qed.

Lemma search_none_duration_fails_witness :
  search (fun _ => Ok (sample_results ++ [Video (Some None) "live" "https://v.example/live" []]))
    (Some "lofi") []
  = (Ok (Response 500 [("Content-Type", "application/json")]
           (JsonDoc (JObj [("error", JStr "Search failed")]))),
     [] ++ [ESearch "lofi";
            ELog ERROR
              "Error searching videos: argument of type 'NoneType' is not iterable"]).
Proof.
  apply (search_none_duration_fails
           (fun _ => Ok (sample_results ++ [Video (Some None) "live" "https://v.example/live" []]))
           "lofi"
           (sample_results ++ [Video (Some None) "live" "https://v.example/live" []])
           (Video (Some None) "live" "https://v.example/live" []) []).
  - discriminate.
  - reflexivity.
  - apply in_or_app. right. by left.
  - reflexivity.
Defined.

(** ** Seeking, thresholds and bounds *)

(** X24: resuming from an offset. For an existing file and a header
    [bytes=a-] with [a] inside the file, [serve_audio] answers 206 with
    [Content-Range: bytes a-(size-1)/size] and everything from offset [a]
    to the end of the file as body. *)
Theorem serve_audio_from_offset
    (w : os_world) (filename : string) (data : list byte) (a : Z) :
  accepted_filename filename -> stored w filename data ->
  0 <= a -> a < len data ->
  exists final t,
    serve_audio w (Some ("bytes=" +:+ py_str a +:+ "-")) filename [] = (Ok final, t)
    /\ status_code final = 206
    /\ hget "Content-Range" (headers final)
       = Some ("bytes " +:+ py_str a +:+ "-" +:+ py_str (len data - 1)
                 +:+ "/" +:+ py_str (len data))
    /\ hget "Content-Length" (headers final) = Some (py_str (len data - a))
    /\ body final = Raw (drop (Z.to_nat a) data).
Proof.
  intros Hname Hst Ha Hlt.
  pose proof Hst as (_ & _ & Hopen).
  assert (Hlim : 0 <= a < int_limit).
  { destruct (os_fits w _ _ Hopen) as (_ & _ & Hr3).
    pose proof ssize_max_int_limit. lia. }
  assert (Hp : parse_range_header ("bytes=" +:+ py_str a +:+ "-") (len data)
               = Ok (a, len data - 1)).
  { rewrite parse_bytes_open by (done || lia). f_equal. f_equal. lia. }
  assert (Hread : take (Z.to_nat (len data - 1 - a + 1)) (drop (Z.to_nat a) data)
                  = drop (Z.to_nat a) data).
  { unfold len in *. apply take_ge. rewrite length_drop. lia. }
  eexists _, _. split.
  { rewrite (serve_audio_stored _ _ _ data) by done.
    assert (truthy ("bytes=" +:+ py_str a +:+ "-") = true) as -> by reflexivity.
    unfold bind at 1. unfold bind at 1. unfold lift at 1. rewrite Hp.
    rewrite (make_partial_response_within _ _ data) by (done || lia).
    rewrite Hread. reflexivity. }
  split; [reflexivity|]. split; [reflexivity|]. split; [|reflexivity].
  replace (len data - a) with (len data - 1 - a + 1) by lia. reflexivity.
Qed.

Lemma serve_audio_from_offset_witness :
  exists final t,
    serve_audio (one_file_world "a.mp3" (list_byte_of_string "hello"))
      (Some "bytes=2-") "a.mp3" [] = (Ok final, t)
    /\ status_code final = 206
    /\ hget "Content-Range" (headers final)
       = Some ("bytes " +:+ py_str 2 +:+ "-"
                 +:+ py_str (len (list_byte_of_string "hello") - 1)
                 +:+ "/" +:+ py_str (len (list_byte_of_string "hello")))
    /\ hget "Content-Length" (headers final)
       = Some (py_str (len (list_byte_of_string "hello") - 2))
    /\ body final = Raw (drop (Z.to_nat 2) (list_byte_of_string "hello")).
Proof.
  apply (serve_audio_from_offset
           (one_file_world "a.mp3" (list_byte_of_string "hello")) "a.mp3"
           (list_byte_of_string "hello") 2).
  - split; reflexivity.
  - apply one_file_world_stored; [reflexivity | vm_compute; discriminate].
  - lia.
  - vm_compute. reflexivity.
Defined.

(** X25: the retention threshold in whole seconds. A regular file written
    at second [m], whose removal is not refused, survives every pass whose
    timestamp is at most [m + 7200] and is removed by any pass whose
    timestamp is at least [m + 7201]. *)
Theorem sweep_threshold
    (time_time : Q) (files : gmap string entry) (t : trace)
    (k : string) (m : Z) :
  names_ok files ->
  files !! k = Some (Entry RegularFile (inject_Z m) false) ->
  exists files' t',
    delete_expired_files time_time (SweepState (Listing files) t)
      = (Ok tt, SweepState (Listing files') t')
    /\ (int_of_float time_time <= m + 7200 ->
        files' !! k = Some (Entry RegularFile (inject_Z m) false))
    /\ (m + 7201 <= int_of_float time_time -> files' !! k = None).
Proof.
  intros Hok Hk. eexists _, _. split; [by apply delete_expired_files_listing|].
  assert (Hin : k ∈ (map_to_list files).*1) by (apply listing_names; by eexists).
  rewrite sweep_fold_lookup, Hk, (bool_decide_eq_true_2 _ Hin). cbn [andb removable].
  assert (Hiff : Qltb (float_add_int (inject_Z m) RETENTION_PERIOD)
                      (inject_Z (int_of_float time_time)) = true
                 <-> m + 7200 < int_of_float time_time).
  { rewrite Qltb_found, found_expired_whole. reflexivity. }
  destruct (Qltb (float_add_int (inject_Z m) RETENTION_PERIOD)
                 (inject_Z (int_of_float time_time))).
  - split; [|done]. intros Hle. assert (m + 7200 < int_of_float time_time) by by apply Hiff.
    lia.
  - split; [done|]. intros Hge.
    assert (true = true -> False) as Hf; [|by destruct Hf].
    intros _. assert (false = true) by (apply Hiff; lia). discriminate.
Qed.

Lemma sweep_threshold_witness :
  exists files' t',
    delete_expired_files 8201.2
      (SweepState (Listing (<["ID.mp3" := Entry RegularFile (inject_Z 1000) false]> ∅)) [])
    = (Ok tt, SweepState (Listing files') t')
    /\ (int_of_float 8201.2 <= 1000 + 7200 ->
        files' !! "ID.mp3" = Some (Entry RegularFile (inject_Z 1000) false))
    /\ (1000 + 7201 <= int_of_float 8201.2 -> files' !! "ID.mp3" = None).
Proof.
  apply (sweep_threshold 8201.2
           (<["ID.mp3" := Entry RegularFile (inject_Z 1000) false]> ∅) [] "ID.mp3" 1000).
  - apply names_ok_insert; [reflexivity | apply names_ok_empty].
  - apply lookup_insert_eq.
Defined.


